(** * Ghost: the inline streaming-insertion engine of [src/main.ts]

    A shallow embedding of [GhostPlugin.processStreamingQuery] and of the two
    callers that funnel into it.  JavaScript strings are sequences of UTF-16
    code units, so a string is a [list N]; every spinner glyph is one code
    unit, exactly as [lineContent.length] counts it.

    The Obsidian [Editor] is an external collaborator: the document is the
    flat text that CodeMirror keeps, a position is a (line, ch) pair that
    [posToOffset] clamps into the text, and [replaceRange] is a splice.
    [JSON.parse] is taken as a parameter of the streaming section.

    The rest of the file follows the engine: the line test of the spinner
    decoration, the [@] suggester, and the handlers of the settings tab,
    where personas are objects in a store because the modal and the settings
    list share them. *)

From Stdlib Require Import String Ascii DecimalString.
From Stdlib Require Import List NArith Arith Bool Lia Sorted.
Import ListNotations.

Set Implicit Arguments.

(** ** JavaScript strings *)

Module JS.

Definition char := N.
Definition str := list char.

(** An ASCII literal of the source, as code units. *)
Definition lit (s : string) : str :=
  List.map N_of_ascii (list_ascii_of_string s).

Definition NL : char := 10%N.

Definition isNL (c : char) : bool := N.eqb c NL.

Fixpoint str_eqb (a b : str) : bool :=
  match a, b with
  | [], [] => true
  | x :: a', y :: b' => N.eqb x y && str_eqb a' b'
  | _, _ => false
  end.

(** [s.startsWith(p)] *)
Fixpoint startsWith (s p : str) : bool :=
  match p, s with
  | [], _ => true
  | y :: p', x :: s' => N.eqb x y && startsWith s' p'
  | _ :: _, [] => false
  end.

(** [s.endsWith(p)] *)
Definition endsWith (s p : str) : bool :=
  (length p <=? length s) && str_eqb (skipn (length s - length p) s) p.

(** [s.slice(0, -k)] *)
Definition sliceEnd (k : nat) (s : str) : str := firstn (length s - k) s.

(** [s.slice(k)] and [s.substring(k)] for a non-negative [k] *)
Definition sliceFrom (k : nat) (s : str) : str := skipn k s.

(** [s.substring(0, k)] *)
Definition substringTo (k : nat) (s : str) : str := firstn k s.

(** [s.split('\n')]: never empty, one more segment than there are newlines. *)
Fixpoint split (s : str) : list str :=
  match s with
  | [] => [[]]
  | c :: s' =>
      if isNL c then [] :: split s'
      else match split s' with
           | l :: ls => (c :: l) :: ls
           | [] => [[c]]
           end
  end.

(** [s.replace(/\n/g, '\n> ')] *)
Fixpoint quoteNewlines (s : str) : str :=
  match s with
  | [] => []
  | c :: s' =>
      if isNL c then NL :: 62%N :: 32%N :: quoteNewlines s'
      else c :: quoteNewlines s'
  end.

(** White space and line terminators, the characters [trim] removes. *)
Definition isWhiteSpace (c : char) : bool :=
  ((9 <=? c) && (c <=? 13) || (c =? 32) || (c =? 160) || (c =? 5760)
   || (8192 <=? c) && (c <=? 8202) || (c =? 8232) || (c =? 8233)
   || (c =? 8239) || (c =? 8287) || (c =? 12288) || (c =? 65279))%N.

Fixpoint trimStart (s : str) : str :=
  match s with
  | c :: s' => if isWhiteSpace c then trimStart s' else s
  | [] => []
  end.

Definition trimEnd (s : str) : str := rev (trimStart (rev s)).

(** [s.trim()] *)
Definition trim (s : str) : str := trimEnd (trimStart s).

(** [\w] without the unicode flag *)
Definition isWord (c : char) : bool :=
  ((48 <=? c) && (c <=? 57) || (65 <=? c) && (c <=? 90)
   || (97 <=? c) && (c <=? 122) || (c =? 95))%N.

(** Decimal rendering of a number in a template literal. *)
Definition ofNumber (n : N) : str :=
  lit (NilZero.string_of_uint (N.to_uint n)).

End JS.

Import JS.

(** ** The editor *)

Record EditorPosition := mkPos { line : nat; ch : nat }.

Module Editor.

Definition Doc := str.

Definition lines (d : Doc) : list str := split d.

(** [editor.lineCount()] *)
Definition lineCount (d : Doc) : nat := length (lines d).

(** [editor.getLine(n)]; the empty string stands for a line out of range. *)
Definition getLine (d : Doc) (n : nat) : str := nth n (lines d) [].

(** [editor.posToOffset]: a line past the end is the end of the document, a
    column past the end of its line is the end of that line. *)
Fixpoint offsetAt (d : Doc) (l c : nat) {struct d} : nat :=
  match d with
  | [] => 0
  | x :: d' =>
      if isNL x then
        match l with
        | 0 => 0
        | S l' => S (offsetAt d' l' c)
        end
      else
        match l, c with
        | 0, 0 => 0
        | 0, S c' => S (offsetAt d' 0 c')
        | S _, _ => S (offsetAt d' l c)
        end
  end.

Definition posToOffset (d : Doc) (p : EditorPosition) : nat :=
  offsetAt d (line p) (ch p).

(** [editor.getRange(from, to)] *)
Definition getRange (d : Doc) (from to : EditorPosition) : str :=
  let a := posToOffset d from in
  let b := posToOffset d to in
  firstn (b - a) (skipn a d).

(** [editor.replaceRange(text, from, to)] *)
Definition replaceRange (text : str) (from to : EditorPosition) (d : Doc) : Doc :=
  firstn (posToOffset d from) d ++ text ++ skipn (posToOffset d to) d.

End Editor.

Import Editor.

(** ** Settings and wire types (the interfaces at the top of [main.ts]) *)

Inductive CursorBehavior := Keep | ToEnd.
Inductive ResponseStyle := Plain | HorizontalRule | Callout.
Inductive WebSearchPolicy := Always | Trigger | Off.
Inductive WebSearchEngine := Auto | Native | Exa.

Record Persona := {
  persona_name : str;
  persona_model : str;
  persona_systemPrompt : str
}.

Record GhostSettings := {
  apiKey : str;
  enabledModels : list str;
  triggerPhrase : str;
  systemPrompt : str;
  cursorBehavior : CursorBehavior;
  responseStyle : ResponseStyle;
  personas : list Persona;
  webSearchPolicy : WebSearchPolicy;
  webSearchEngine : WebSearchEngine
}.

Record UrlCitation := { url : str; title : str }.

Record OpenRouterAnnotation := {
  type : str;
  url_citation : option UrlCitation
}.

Record Delta := {
  content : option str;
  annotations : option (list OpenRouterAnnotation)
}.

Record Choice := { delta : option Delta }.

Record OpenRouterResponse := { choices : option (list Choice) }.

(** ** What the plugin does to its host *)

(** One call of [editor.replaceRange]; an insertion has [edit_to = edit_from]. *)
Record Edit := {
  edit_text : str;
  edit_from : EditorPosition;
  edit_to : EditorPosition
}.

(** The body of one [fetch] to the completions endpoint. *)
Record Request := {
  req_authorization : str;
  req_model : str;
  req_system : str;
  req_user : str;
  req_plugins : option (option WebSearchEngine)
}.

Record Host := {
  doc : Doc;
  edits : list Edit;        (* every replaceRange so far, oldest first *)
  notices : list str;       (* every Notice so far, oldest first *)
  cursor : option EditorPosition;   (* the last setCursor, if any *)
  requests : list Request   (* every fetch so far *)
}.

Definition do_replaceRange (text : str) (from to : EditorPosition) (h : Host) : Host :=
  {| doc := replaceRange text from to (doc h);
     edits := edits h ++ [{| edit_text := text; edit_from := from; edit_to := to |}];
     notices := notices h;
     cursor := cursor h;
     requests := requests h |}.

Definition do_insert (text : str) (at_ : EditorPosition) (h : Host) : Host :=
  do_replaceRange text at_ at_ h.

Definition do_notice (msg : str) (h : Host) : Host :=
  {| doc := doc h; edits := edits h; notices := notices h ++ [msg];
     cursor := cursor h; requests := requests h |}.

Definition do_setCursor (p : EditorPosition) (h : Host) : Host :=
  {| doc := doc h; edits := edits h; notices := notices h;
     cursor := Some p; requests := requests h |}.

Definition do_fetch (r : Request) (h : Host) : Host :=
  {| doc := doc h; edits := edits h; notices := notices h;
     cursor := cursor h; requests := requests h ++ [r] |}.

(** ** Reference parser: [/@([\w/.-]+)/g] and the backward scan *)

Record RegExpMatch := {
  index : nat;      (* match.index *)
  whole : str;      (* match[0] *)
  group1 : str      (* match[1] *)
}.

Definition isAt (c : char) : bool := N.eqb c 64.

(** The class [[\w/.-]]. *)
Definition isTok (c : char) : bool :=
  isWord c || N.eqb c 47 || N.eqb c 46 || N.eqb c 45.

(** The greedy [[\w/.-]*] at the head of a string. *)
Fixpoint takeTok (s : str) : str :=
  match s with
  | c :: s' => if isTok c then c :: takeTok s' else []
  | [] => []
  end.

(** [[...s.matchAll(modelRegex)]] from offset [i]; [skip] counts the characters
    of the match just reported, over which the scan does not start again. *)
Fixpoint matchAllAt (i skip : nat) (s : str) : list RegExpMatch :=
  match s with
  | [] => []
  | c :: rest =>
      match skip with
      | S k => matchAllAt (S i) k rest
      | 0 =>
          if isAt c then
            match takeTok rest with
            | [] => matchAllAt (S i) 0 rest
            | tok => {| index := i; whole := c :: tok; group1 := tok |}
                       :: matchAllAt (S i) (length tok) rest
            end
          else matchAllAt (S i) 0 rest
      end
  end.

Definition matchAll (s : str) : list RegExpMatch := matchAllAt 0 0 s.

(** [matches[matches.length - 1]] guarded by [matches.length > 0] *)
Definition lastMatchOf (matches : list RegExpMatch) : option RegExpMatch :=
  match matches with
  | [] => None
  | m :: ms => Some (last ms m)
  end.

Definition isEmpty (s : str) : bool :=
  match s with [] => true | _ => false end.

(** The loop [for (let i = lineNum; i >= 0; i--)]: the line and the match it
    breaks with, or [None] when it runs past line 0. *)
Fixpoint findModel (d : Doc) (i : nat) : option (nat * RegExpMatch) :=
  let next := match i with 0 => None | S j => findModel d j end in
  match lastMatchOf (matchAll (getLine d i)) with
  | Some lastMatch =>
      if isEmpty (group1 lastMatch) then next else Some (i, lastMatch)
  | None => next
  end.

(** The [+web] flag: [prompt.endsWith('+web')] and [prompt.slice(0, -4).trim()]. *)
Definition webMarker : str := lit "+web".

Definition stripWeb (prompt : str) : str :=
  if endsWith prompt webMarker then trim (sliceEnd 4 prompt) else prompt.

(** ** Placeholder and response styles *)

Definition spinnerFrames : list str :=
  [[10251]; [10265]; [10297]; [10296]; [10300];
   [10292]; [10278]; [10279]; [10247]; [10255]]%N.

Definition getSpinnerText (currentFrameIndex : nat) : str :=
  nth currentFrameIndex spinnerFrames [] ++ lit " Generating...".

Definition marker : str := lit "> ".

Definition prefix (style : ResponseStyle) : str :=
  match style with
  | Plain => [NL; NL]
  | HorizontalRule => [NL; NL] ++ lit "---" ++ [NL; NL]
  | Callout => [NL; NL] ++ lit "> [!ai] Ghost" ++ [NL] ++ marker
  end.

Definition spinnerPrefix (style : ResponseStyle) : str :=
  match style with Callout => marker | _ => [] end.

Definition generationLineOffset (style : ResponseStyle) : nat :=
  match style with Plain => 2 | HorizontalRule => 4 | Callout => 3 end.

Definition isCallout (style : ResponseStyle) : bool :=
  match style with Callout => true | _ => false end.

(** ** One invocation of [processStreamingQuery] *)

(** Where the async function is suspended. *)
Inductive Phase :=
  | AwaitResponse   (* in [await fetch(...)] *)
  | Reading         (* in [await reader.read()] *)
  | Returned.       (* the function has returned *)

Record Invocation := {
  host : Host;
  timerActive : bool;          (* the interval is still scheduled *)
  phase : Phase;
  generationLine : nat;
  currentFrameIndex : nat;
  loadingInterval : bool;      (* the variable holds a handle, not null *)
  isFirstChunk : bool;
  currentInsertPos : EditorPosition;
  buffer : str;
  collectedAnnotations : list OpenRouterAnnotation
}.

Definition with_host (h : Host) (s : Invocation) : Invocation :=
  {| host := h; timerActive := timerActive s; phase := phase s;
     generationLine := generationLine s;
     currentFrameIndex := currentFrameIndex s;
     loadingInterval := loadingInterval s; isFirstChunk := isFirstChunk s;
     currentInsertPos := currentInsertPos s; buffer := buffer s;
     collectedAnnotations := collectedAnnotations s |}.

Definition with_phase (p : Phase) (s : Invocation) : Invocation :=
  {| host := host s; timerActive := timerActive s; phase := p;
     generationLine := generationLine s;
     currentFrameIndex := currentFrameIndex s;
     loadingInterval := loadingInterval s; isFirstChunk := isFirstChunk s;
     currentInsertPos := currentInsertPos s; buffer := buffer s;
     collectedAnnotations := collectedAnnotations s |}.

Definition with_frame (i : nat) (s : Invocation) : Invocation :=
  {| host := host s; timerActive := timerActive s; phase := phase s;
     generationLine := generationLine s;
     currentFrameIndex := i;
     loadingInterval := loadingInterval s; isFirstChunk := isFirstChunk s;
     currentInsertPos := currentInsertPos s; buffer := buffer s;
     collectedAnnotations := collectedAnnotations s |}.

Definition with_pos (p : EditorPosition) (s : Invocation) : Invocation :=
  {| host := host s; timerActive := timerActive s; phase := phase s;
     generationLine := generationLine s;
     currentFrameIndex := currentFrameIndex s;
     loadingInterval := loadingInterval s; isFirstChunk := isFirstChunk s;
     currentInsertPos := p; buffer := buffer s;
     collectedAnnotations := collectedAnnotations s |}.

Definition with_buffer (b : str) (s : Invocation) : Invocation :=
  {| host := host s; timerActive := timerActive s; phase := phase s;
     generationLine := generationLine s;
     currentFrameIndex := currentFrameIndex s;
     loadingInterval := loadingInterval s; isFirstChunk := isFirstChunk s;
     currentInsertPos := currentInsertPos s; buffer := b;
     collectedAnnotations := collectedAnnotations s |}.

Definition with_annotations (a : list OpenRouterAnnotation) (s : Invocation) : Invocation :=
  {| host := host s; timerActive := timerActive s; phase := phase s;
     generationLine := generationLine s;
     currentFrameIndex := currentFrameIndex s;
     loadingInterval := loadingInterval s; isFirstChunk := isFirstChunk s;
     currentInsertPos := currentInsertPos s; buffer := buffer s;
     collectedAnnotations := a |}.

Definition not_first (s : Invocation) : Invocation :=
  {| host := host s; timerActive := timerActive s; phase := phase s;
     generationLine := generationLine s;
     currentFrameIndex := currentFrameIndex s;
     loadingInterval := loadingInterval s; isFirstChunk := false;
     currentInsertPos := currentInsertPos s; buffer := buffer s;
     collectedAnnotations := collectedAnnotations s |}.

(** [if (loadingInterval) clearInterval(loadingInterval)] *)
Definition clearTimer (s : Invocation) : Invocation :=
  {| host := host s;
     timerActive := if loadingInterval s then false else timerActive s;
     phase := phase s;
     generationLine := generationLine s;
     currentFrameIndex := currentFrameIndex s;
     loadingInterval := loadingInterval s; isFirstChunk := isFirstChunk s;
     currentInsertPos := currentInsertPos s; buffer := buffer s;
     collectedAnnotations := collectedAnnotations s |}.

(** [if (loadingInterval) { clearInterval(loadingInterval); loadingInterval = null }] *)
Definition clearTimerAndForget (s : Invocation) : Invocation :=
  {| host := host s;
     timerActive := if loadingInterval s then false else timerActive s;
     phase := phase s;
     generationLine := generationLine s;
     currentFrameIndex := currentFrameIndex s;
     loadingInterval := false; isFirstChunk := isFirstChunk s;
     currentInsertPos := currentInsertPos s; buffer := buffer s;
     collectedAnnotations := collectedAnnotations s |}.

Definition edit (text : str) (from to : EditorPosition) (s : Invocation) : Invocation :=
  with_host (do_replaceRange text from to (host s)) s.

Definition notify (msg : str) (s : Invocation) : Invocation :=
  with_host (do_notice msg (host s)) s.

(** An invocation that returned before it set anything up. *)
Definition returnedEarly (h : Host) : Invocation :=
  {| host := h; timerActive := false; phase := Returned;
     generationLine := 0; currentFrameIndex := 0;
     loadingInterval := false; isFirstChunk := true;
     currentInsertPos := mkPos 0 0; buffer := [];
     collectedAnnotations := [] |}.

(** Persona lookup: [personas.find(p => p.name === model)]. *)
Definition findPersona (ps : list Persona) (model : str) : option Persona :=
  find (fun p => str_eqb (persona_name p) model) ps.

Definition contextHeader : str := lit "Context from the current note:" ++ [NL].

Definition buildRequest (cfg : GhostSettings) (model context prompt : str)
    (hasWebFlag : bool) : Request :=
  let persona := findPersona (personas cfg) model in
  let targetModel :=
    match persona with Some p => persona_model p | None => model end in
  let systemInstruction :=
    match persona with
    | Some p => persona_systemPrompt p
    | None => systemPrompt cfg
    end in
  let fullSystemPrompt :=
    if isEmpty systemInstruction then contextHeader ++ context
    else systemInstruction ++ [NL; NL] ++ contextHeader ++ context in
  let shouldSearch :=
    match webSearchPolicy cfg with
    | Always => true
    | Trigger => hasWebFlag
    | Off => false
    end in
  {| req_authorization := lit "Bearer " ++ apiKey cfg;
     req_model := targetModel;
     req_system := fullSystemPrompt;
     req_user := prompt;
     req_plugins :=
       if shouldSearch then
         Some (match webSearchEngine cfg with Auto => None | e => Some e end)
       else None |}.

Definition noModelNotice : str := lit "Ghost: no model specified (e.g. @model-name).".
Definition noKeyNotice : str := lit "API key missing.".

(** The synchronous part of [processStreamingQuery], up to the [fetch]. *)
Definition processStreamingQuery (cfg : GhostSettings) (h : Host)
    (lineNum : nat) (lineText : str) : Invocation :=
  match findModel (doc h) lineNum with
  | None => returnedEarly (do_notice noModelNotice h)
  | Some (modelLineNum, modelMatch) =>
      if isEmpty (apiKey cfg) then returnedEarly (do_notice noKeyNotice h)
      else
        let model := group1 modelMatch in
        let contextEnd := mkPos modelLineNum (index modelMatch) in
        let context := getRange (doc h) (mkPos 0 0) contextEnd in
        let shouldRemoveTrigger := endsWith lineText (triggerPhrase cfg) in
        let promptEndCh :=
          if shouldRemoveTrigger
          then length lineText - length (triggerPhrase cfg)
          else length lineText in
        let promptStart :=
          mkPos modelLineNum (index modelMatch + length (whole modelMatch)) in
        let promptEnd := mkPos lineNum promptEndCh in
        let prompt0 := trim (getRange (doc h) promptStart promptEnd) in
        let hasWebFlag := endsWith prompt0 webMarker in
        let prompt := stripWeb prompt0 in
        let h1 :=
          if shouldRemoveTrigger
          then do_replaceRange [] promptEnd (mkPos lineNum (length lineText)) h
          else h in
        let placeholder := prefix (responseStyle cfg) ++ getSpinnerText 0 in
        let h2 := do_insert placeholder promptEnd h1 in
        let generationLine := lineNum + generationLineOffset (responseStyle cfg) in
        let h3 := do_fetch (buildRequest cfg model context prompt hasWebFlag) h2 in
        {| host := h3; timerActive := true; phase := AwaitResponse;
           generationLine := generationLine; currentFrameIndex := 0;
           loadingInterval := true; isFirstChunk := true;
           currentInsertPos := mkPos generationLine 0; buffer := [];
           collectedAnnotations := [] |}
  end.

(** The two callers in [onload]: the command, and the change listener that
    fires when the cursor line ends with the trigger phrase. *)
Definition triggerCommand (cfg : GhostSettings) (h : Host)
    (cur : EditorPosition) : Invocation :=
  processStreamingQuery cfg h (line cur) (getLine (doc h) (line cur)).

Definition onEditorChange (cfg : GhostSettings) (h : Host)
    (cur : EditorPosition) : option Invocation :=
  let lineText := getLine (doc h) (line cur) in
  if endsWith lineText (triggerPhrase cfg)
  then Some (processStreamingQuery cfg h (line cur) lineText)
  else None.

(** ** The animator: the [setInterval] callback *)

Definition looksLikeSpinner (style : ResponseStyle) (lineContent : str) : bool :=
  let checkContent :=
    if isCallout style then sliceFrom 2 lineContent else lineContent in
  existsb (fun f => startsWith checkContent f) spinnerFrames.

Definition tick (cfg : GhostSettings) (s : Invocation) : Invocation :=
  let s1 :=
    with_frame ((currentFrameIndex s + 1) mod length spinnerFrames) s in
  if generationLine s1 <? lineCount (doc (host s1)) then
    let lineContent := getLine (doc (host s1)) (generationLine s1) in
    if looksLikeSpinner (responseStyle cfg) lineContent then
      edit (spinnerPrefix (responseStyle cfg)
              ++ getSpinnerText (currentFrameIndex s1))
           (mkPos (generationLine s1) 0)
           (mkPos (generationLine s1) (length lineContent)) s1
    else s1
  else clearTimer s1.

(** ** The insertion cursor *)

(** The position update after a delta: [displayContent.split('\n')]. *)
Definition advance (base : EditorPosition) (text : str) : EditorPosition :=
  let lines := split text in
  if 1 <? length lines
  then mkPos (line base + length lines - 1) (length (last lines []))
  else mkPos (line base) (ch base + length text).

(** The update after the sources list and the divider, which has no
    single-line branch. *)
Definition advanceLines (base : EditorPosition) (text : str) : EditorPosition :=
  let lines := split text in
  mkPos (line base + length lines - 1) (length (last lines [])).

Definition displayOf (style : ResponseStyle) (content : str) : str :=
  if isCallout style then quoteNewlines content else content.

(** The text the first delta writes over the generation line. *)
Definition firstDisplayOf (style : ResponseStyle) (content : str) : str :=
  if isCallout style then marker ++ displayOf style content
  else displayOf style content.

(** The text the first delta appends when the generation line is gone. *)
Definition fallbackOf (style : ResponseStyle) (content : str) : str :=
  let fallbackContent :=
    if isCallout style then NL :: marker ++ quoteNewlines content
    else content in
  [NL; NL] ++ fallbackContent.

(** The branch [if (content) { ... }] of the read loop. *)
Definition onContent (cfg : GhostSettings) (content : str) (s : Invocation)
    : Invocation :=
  let style := responseStyle cfg in
  if isFirstChunk s then
    let s1 := clearTimerAndForget s in
    let d := doc (host s1) in
    let g := generationLine s1 in
    let s2 :=
      if g <? lineCount d then
        let currentLineLen := length (getLine d g) in
        let displayContent := firstDisplayOf style content in
        with_pos (advance (mkPos g 0) displayContent)
          (edit displayContent (mkPos g 0) (mkPos g currentLineLen) s1)
      else
        let lastLine := lineCount d - 1 in
        let lastLineLen := length (getLine d lastLine) in
        let s' :=
          edit (fallbackOf style content)
               (mkPos lastLine lastLineLen) (mkPos lastLine lastLineLen) s1 in
        let d' := doc (host s') in
        let endLine := lineCount d' - 1 in
        with_pos (mkPos endLine (length (getLine d' endLine))) s'
    in
    not_first s2
  else
    let displayContent := displayOf style content in
    with_pos (advance (currentInsertPos s) displayContent)
      (edit displayContent (currentInsertPos s) (currentInsertPos s) s).

(** ** Citations *)

(** [Map.prototype.set] on an insertion-ordered map. *)
Fixpoint mapSet (k v : str) (m : list (str * str)) : list (str * str) :=
  match m with
  | [] => [(k, v)]
  | (k', v') :: m' =>
      if str_eqb k' k then (k', v) :: m' else (k', v') :: mapSet k v m'
  end.

Definition uniqueSourcesOf (collected : list OpenRouterAnnotation)
    : list (str * str) :=
  fold_left
    (fun m a =>
       match url_citation a with
       | Some c => mapSet (url c) (if isEmpty (title c) then url c else title c) m
       | None => m
       end)
    collected [].

Definition sourcesHeader : str := [NL; NL] ++ lit "**Sources:**" ++ [NL].

Definition sourceEntry (e : str * str) : str :=
  lit "- [" ++ snd e ++ lit "](" ++ fst e ++ lit ")" ++ [NL].

Definition sourcesTextOf (style : ResponseStyle) (uniqueSources : list (str * str))
    : str :=
  let sourcesText :=
    fold_left (fun acc e => acc ++ sourceEntry e) uniqueSources sourcesHeader in
  if isCallout style then quoteNewlines sourcesText else sourcesText.

Definition divider : str := [NL; NL] ++ lit "---".

(** The [if (done) { ... break; }] branch and the cursor relocation after
    the loop. *)
Definition onDone (cfg : GhostSettings) (s : Invocation) : Invocation :=
  let style := responseStyle cfg in
  let s1 :=
    match collectedAnnotations s with
    | [] => s
    | _ =>
        match uniqueSourcesOf (collectedAnnotations s) with
        | [] => s
        | uniqueSources =>
            let sourcesText := sourcesTextOf style uniqueSources in
            with_pos (advanceLines (currentInsertPos s) sourcesText)
              (edit sourcesText (currentInsertPos s) (currentInsertPos s) s)
        end
    end in
  let s2 :=
    match style with
    | HorizontalRule =>
        with_pos (advanceLines (currentInsertPos s1) divider)
          (edit divider (currentInsertPos s1) (currentInsertPos s1) s1)
    | _ => s1
    end in
  let s3 :=
    match cursorBehavior cfg with
    | ToEnd =>
        let s' :=
          match ch (currentInsertPos s2) with
          | 0 => s2
          | _ =>
              with_pos (mkPos (line (currentInsertPos s2) + 1) 0)
                (edit [NL] (currentInsertPos s2) (currentInsertPos s2) s2)
          end in
        with_host (do_setCursor (currentInsertPos s') (host s')) s'
    | Keep => s2
    end in
  with_phase Returned s3.

(** ** The streaming client *)

Section Streaming.

(** [JSON.parse(data) as OpenRouterResponse]; [None] is a thrown SyntaxError. *)
Variable JSON_parse : str -> option OpenRouterResponse.
Variable cfg : GhostSettings.

Definition keepAlive : str := lit ": OPENROUTER PROCESSING".
Definition dataPrefix : str := lit "data: ".
Definition errorPrefix : str := lit "error: ".
Definition doneSentinel : str := lit "[DONE]".

(** [parsed.choices?.[0]?.delta] *)
Definition firstDelta (parsed : OpenRouterResponse) : option Delta :=
  match choices parsed with
  | Some (c :: _) => delta c
  | _ => None
  end.

(** The body of [for (const line of lines)]. *)
Definition processLine (ln : str) (s : Invocation) : Invocation :=
  let trimmedLine := trim ln in
  if isEmpty trimmedLine then s
  else if str_eqb trimmedLine keepAlive then s
  else if startsWith trimmedLine dataPrefix then
    let data := sliceFrom 6 trimmedLine in
    if str_eqb data doneSentinel then s
    else
      match JSON_parse data with
      | None => s
      | Some parsed =>
          let dl := firstDelta parsed in
          let content :=
            match dl with
            | Some d => match content d with Some c => c | None => [] end
            | None => []
            end in
          let s1 :=
            match dl with
            | Some d =>
                match annotations d with
                | Some ans =>
                    with_annotations (collectedAnnotations s ++ ans) s
                | None => s
                end
            | None => s
            end in
          if isEmpty content then s1 else onContent cfg content s1
      end
  else if startsWith trimmedLine errorPrefix then
    notify (lit "Stream Error: " ++ trimmedLine) s
  else s.

(** One resolved [reader.read()] with [done] false. *)
Definition onChunk (chunk : str) (s : Invocation) : Invocation :=
  let lines := split (buffer s ++ chunk) in
  let s1 := with_buffer (last lines []) s in
  fold_left (fun st ln => processLine ln st) (removelast lines) s1.

(** The [catch (err)] of the function. *)
Definition onThrow (s : Invocation) : Invocation :=
  with_phase Returned (notify (lit "Streaming error.") (clearTimer s)).

Definition onHttpError (status : N) (errorText : str) (s : Invocation)
    : Invocation :=
  with_phase Returned
    (notify (lit "Ghost Error: " ++ ofNumber status ++ lit " - "
               ++ substringTo 100 errorText)
       (clearTimer s)).

(** What the environment can deliver to a suspended invocation.  The
    interval can fire at any [await]; a response that is not OK comes with
    the text [response.text()] resolved to; a chunk is the text that
    [decoder.decode(value, { stream: true })] returned for it, so the chunks
    of a body concatenate to its decoded text wherever the bytes were cut. *)
Inductive Event :=
  | Tick                                      (* the interval fires *)
  | HttpError (status : N) (errorText : str)  (* fetch resolved, !response.ok *)
  | EmptyBody                                 (* response.ok, body is null *)
  | BodyStream                                (* response.ok, reader obtained *)
  | Chunk (text : str)                        (* read(): done false *)
  | Done                                      (* read(): done true *)
  | Throw.                                    (* fetch or read() rejected *)

Definition step (s : Invocation) (e : Event) : Invocation :=
  match e with
  | Tick => if timerActive s then tick cfg s else s
  | _ =>
      match phase s, e with
      | AwaitResponse, HttpError status errorText => onHttpError status errorText s
      | AwaitResponse, EmptyBody => with_phase Returned (clearTimer s)
      | AwaitResponse, BodyStream => with_phase Reading s
      | AwaitResponse, Throw => onThrow s
      | Reading, Chunk text => onChunk text s
      | Reading, Done => onDone cfg s
      | Reading, Throw => onThrow s
      | _, _ => s
      end
  end.

Definition run (s : Invocation) (es : list Event) : Invocation :=
  fold_left step es s.

End Streaming.

(** * Further parts of [main.ts] *)

(** ** The spinner decoration: the line test of [spinnerPlugin.buildDecorations] *)

Definition generating : str := lit " Generating...".

(** [spinnerFrames.some(frame => text.startsWith(`${frame} Generating...`))] *)
Definition isSpinner (text : str) : bool :=
  existsb (fun frame => startsWith text (frame ++ generating)) spinnerFrames.

(** ** The [@] suggester: [ModelSuggest] *)

(** [s.lastIndexOf(c)], with [None] for [-1]. *)
Fixpoint lastIndexOf (c : char) (s : str) : option nat :=
  match s with
  | [] => None
  | x :: s' =>
      match lastIndexOf c s' with
      | Some k => Some (S k)
      | None => if N.eqb x c then Some 0 else None
      end
  end.

(** [s.includes(c)] for a one-character [c]. *)
Definition includes (s : str) (c : char) : bool := existsb (N.eqb c) s.

(** [s.substring(a, b)]: both ends are clamped to the string, and swapped
    when [a > b]. *)
Definition substring (a b : nat) (s : str) : str :=
  firstn (Nat.max a b - Nat.min a b) (skipn (Nat.min a b) s).

Record EditorSuggestTriggerInfo := {
  start : EditorPosition;
  end_ : EditorPosition;
  query : str
}.

Definition space : char := 32%N.
Definition atSign : char := 64%N.

Definition onTrigger (cursor : EditorPosition) (d : Doc)
    : option EditorSuggestTriggerInfo :=
  let lineText := getLine d (line cursor) in
  match lastIndexOf atSign lineText with
  | Some lastAt =>
      if negb (includes (sliceFrom lastAt lineText) space)
      then Some {| start := mkPos (line cursor) lastAt;
                   end_ := cursor;
                   query := substring (lastAt + 1) (ch cursor) lineText |}
      else None
  | None => None
  end.

(** [selectSuggestion]: [context] is the trigger information the suggester
    was opened with, if it is open. *)
Definition selectSuggestion (value : str)
    (context : option EditorSuggestTriggerInfo) (h : Host) : Host :=
  match context with
  | Some c =>
      do_replaceRange ([atSign] ++ value ++ [space]) (start c) (end_ c) h
  | None => h
  end.

(** ** The settings tab and its modals *)

Record OpenRouterModel := { model_id : str; model_name : str }.

(** The settings, and the notices the settings handlers have shown. *)
Record Plugin := { settings : GhostSettings; shown : list str }.

Definition with_enabledModels (ms : list str) (cfg : GhostSettings)
    : GhostSettings :=
  {| apiKey := apiKey cfg; enabledModels := ms;
     triggerPhrase := triggerPhrase cfg; systemPrompt := systemPrompt cfg;
     cursorBehavior := cursorBehavior cfg; responseStyle := responseStyle cfg;
     personas := personas cfg; webSearchPolicy := webSearchPolicy cfg;
     webSearchEngine := webSearchEngine cfg |}.

(** [enabledModels.includes(id)] *)
Definition includesModel (ms : list str) (modelId : str) : bool :=
  existsb (fun m => str_eqb m modelId) ms.

(** [ModelFuzzySuggestModal.onChooseItem] *)
Definition onChooseItem (item : OpenRouterModel) (p : Plugin) : Plugin :=
  if negb (includesModel (enabledModels (settings p)) (model_id item)) then
    {| settings :=
         with_enabledModels
           (enabledModels (settings p) ++ [model_id item]) (settings p);
       shown := shown p ++ [lit "Added " ++ model_name item] |}
  else
    {| settings := settings p;
       shown := shown p ++ [model_name item ++ lit " is already enabled."] |}.

(** The click handler of a model's remove button. *)
Definition removeModel (modelId : str) (p : Plugin) : Plugin :=
  {| settings :=
       with_enabledModels
         (filter (fun m => negb (str_eqb m modelId))
            (enabledModels (settings p)))
         (settings p);
     shown := shown p |}.

Inductive ModelClick :=
  | Choose (item : OpenRouterModel)
  | Remove (modelId : str).

Definition modelClick (p : Plugin) (c : ModelClick) : Plugin :=
  match c with
  | Choose item => onChooseItem item p
  | Remove modelId => removeModel modelId p
  end.

(** [DEFAULT_SETTINGS] *)
Definition DEFAULT_SETTINGS : GhostSettings :=
  {| apiKey := [];
     enabledModels :=
       [lit "anthropic/claude-3.5-sonnet"; lit "google/gemini-flash-1.5";
        lit "meta-llama/llama-3-70b-instruct"; lit "openai/gpt-4o-mini"];
     triggerPhrase := lit ";;"; systemPrompt := [];
     cursorBehavior := Keep; responseStyle := Plain; personas := [];
     webSearchPolicy := Off; webSearchEngine := Auto |}.

(** Personas are objects: the settings list and an open modal can hold the
    same one.  [objects] is the store, an address is an index into it, and
    [personasRef] is [settings.personas]. *)
Record PersonaStore := {
  objects : list Persona;
  personasRef : list nat
}.

Definition noPersona : Persona :=
  {| persona_name := []; persona_model := []; persona_systemPrompt := [] |}.

Definition deref (objs : list Persona) (a : nat) : Persona :=
  nth a objs noPersona.

(** The personas as [processStreamingQuery] reads them. *)
Definition personasOf (st : PersonaStore) : list Persona :=
  map (deref (objects st)) (personasRef st).

Fixpoint updateAt (a : nat) (f : Persona -> Persona) (objs : list Persona)
    : list Persona :=
  match objs, a with
  | [], _ => []
  | p :: r, 0 => f p :: r
  | p :: r, S a' => p :: updateAt a' f r
  end.

(** What [onSubmit] was given by the settings tab. *)
Inductive Submit :=
  | AddPersona                    (* [personas.push(newPersona)] *)
  | EditPersona (target : nat).   (* [Object.assign(persona, updatedPersona)] *)

Record PersonaModal := {
  store : PersonaStore;
  persona : nat;           (* [this.persona] *)
  onSubmit : Submit;
  isOpen : bool;
  modalNotices : list str
}.

(** [{ name: '', model: plugin.settings.enabledModels[0] || '', systemPrompt: '' }] *)
Definition freshPersona (enabled : list str) : Persona :=
  {| persona_name := []; persona_model := hd [] enabled;
     persona_systemPrompt := [] |}.

(** [new PersonaModal(app, plugin, persona, onSubmit)] as the two buttons of
    the settings tab call it: [this.persona = persona || { ... }]. *)
Definition openPersonaModal (enabled : list str) (existing : option nat)
    (st : PersonaStore) : PersonaModal :=
  match existing with
  | Some a =>
      {| store := st; persona := a; onSubmit := EditPersona a;
         isOpen := true; modalNotices := [] |}
  | None =>
      {| store :=
           {| objects := objects st ++ [freshPersona enabled];
              personasRef := personasRef st |};
         persona := length (objects st); onSubmit := AddPersona;
         isOpen := true; modalNotices := [] |}
  end.

(** [value.replace(/\s+/g, '')] *)
Definition removeWhitespace (value : str) : str :=
  filter (fun c => negb (isWhiteSpace c)) value.

Inductive ModalEvent :=
  | NameChange (value : str)
  | ModelChange (value : str)
  | PromptChange (value : str)
  | SaveClick.

(** The three [onChange] handlers, on the object they write to. *)
Definition applyChange (e : ModalEvent) (p : Persona) : Persona :=
  match e with
  | NameChange value =>
      {| persona_name := removeWhitespace value;
         persona_model := persona_model p;
         persona_systemPrompt := persona_systemPrompt p |}
  | ModelChange value =>
      {| persona_name := persona_name p; persona_model := value;
         persona_systemPrompt := persona_systemPrompt p |}
  | PromptChange value =>
      {| persona_name := persona_name p; persona_model := persona_model p;
         persona_systemPrompt := value |}
  | SaveClick => p
  end.

Definition nameRequired : str := lit "Persona name is required".
Definition modelRequired : str :=
  lit "Persona model is required. Please enable models first.".

Definition submit (m : PersonaModal) : PersonaStore :=
  match onSubmit m with
  | AddPersona =>
      {| objects := objects (store m);
         personasRef := personasRef (store m) ++ [persona m] |}
  | EditPersona target =>
      {| objects :=
           updateAt target (fun _ => deref (objects (store m)) (persona m))
             (objects (store m));
         personasRef := personasRef (store m) |}
  end.

Definition modalStep (m : PersonaModal) (e : ModalEvent) : PersonaModal :=
  if isOpen m then
    match e with
    | SaveClick =>
        let p := deref (objects (store m)) (persona m) in
        if isEmpty (persona_name p) then
          {| store := store m; persona := persona m; onSubmit := onSubmit m;
             isOpen := true; modalNotices := modalNotices m ++ [nameRequired] |}
        else if isEmpty (persona_model p) then
          {| store := store m; persona := persona m; onSubmit := onSubmit m;
             isOpen := true;
             modalNotices := modalNotices m ++ [modelRequired] |}
        else
          {| store := submit m; persona := persona m; onSubmit := onSubmit m;
             isOpen := false; modalNotices := modalNotices m |}
    | change =>
        {| store :=
             {| objects :=
                  updateAt (persona m) (applyChange change)
                    (objects (store m));
                personasRef := personasRef (store m) |};
           persona := persona m; onSubmit := onSubmit m;
           isOpen := true; modalNotices := modalNotices m |}
    end
  else m.

Definition modalRun (m : PersonaModal) (es : list ModalEvent) : PersonaModal :=
  fold_left modalStep es m.

(** The remove button of a persona: [personas.filter(p => p !== persona)]. *)
Definition removePersona (a : nat) (st : PersonaStore) : PersonaStore :=
  {| objects := objects st;
     personasRef := filter (fun r => negb (Nat.eqb r a)) (personasRef st) |}.

(** * Vocabulary of the statements *)

Fixpoint countNL (s : str) : nat :=
  match s with
  | [] => 0
  | c :: s' => (if isNL c then 1 else 0) + countNL s'
  end.

(** The characters after the last newline. *)
Definition lastSeg (s : str) : str := last (split s) [].

(** The position just after the text [s], when [s] starts the document. *)
Definition endPos (s : str) : EditorPosition :=
  mkPos (countNL s) (length (lastSeg s)).

(** Nothing, or a newline, follows: the end of a line. *)
Definition atLineEnd (s : str) : bool :=
  match s with
  | [] => true
  | c :: _ => isNL c
  end.

Definition spinnerLine (style : ResponseStyle) (k : nat) : str :=
  spinnerPrefix style ++ getSpinnerText k.

(** What the deltas [cs] have put on the generation line and below. *)
Definition written (style : ResponseStyle) (cs : list str) : str :=
  match cs with
  | [] => []
  | c :: rest => firstDisplayOf style c ++ concat (map (displayOf style) rest)
  end.

(** The part of [prefix] above the generation line. *)
Definition prefixHead (style : ResponseStyle) : str :=
  match style with
  | Plain => [NL; NL]
  | HorizontalRule => [NL; NL] ++ lit "---" ++ [NL; NL]
  | Callout => [NL; NL] ++ lit "> [!ai] Ghost" ++ [NL]
  end.

(** Before the first delta: the generation line holds a spinner frame. *)
Definition Waiting (cfg : GhostSettings) (X post : str) (s : Invocation)
    : Prop :=
  currentFrameIndex s < 10 /\
  doc (host s)
  = X ++ spinnerLine (responseStyle cfg) (currentFrameIndex s) ++ post /\
  timerActive s = true /\ loadingInterval s = true /\
  isFirstChunk s = true /\
  currentInsertPos s = mkPos (countNL X) 0 /\
  generationLine s = countNL X.

(** After it: [W] stands where the placeholder was, and the tracked
    position is the end of [W]. *)
Definition Writing (X post W : str) (s : Invocation) : Prop :=
  doc (host s) = X ++ W ++ post /\
  currentInsertPos s = endPos (X ++ W) /\
  timerActive s = false /\
  isFirstChunk s = false /\
  generationLine s = countNL X.

Definition Inv (cfg : GhostSettings) (X post : str) (cs : list str)
    (s : Invocation) : Prop :=
  match cs with
  | [] => Waiting cfg X post s
  | _ => Writing X post (written (responseStyle cfg) cs) s
  end.

(** The delta a wire line carries, if it is a [data: ] line that parses. *)
Definition lineDelta (JSON_parse : str -> option OpenRouterResponse)
    (ln : str) : option Delta :=
  let trimmedLine := trim ln in
  if isEmpty trimmedLine then None
  else if str_eqb trimmedLine keepAlive then None
  else if startsWith trimmedLine dataPrefix then
    let data := sliceFrom 6 trimmedLine in
    if str_eqb data doneSentinel then None
    else match JSON_parse data with
         | Some parsed => firstDelta parsed
         | None => None
         end
  else None.

(** Its non-empty content, as a list of at most one delta. *)
Definition lineContents (JSON_parse : str -> option OpenRouterResponse)
    (ln : str) : list str :=
  match lineDelta JSON_parse ln with
  | Some d =>
      match content d with
      | Some ((_ :: _) as c) => [c]
      | _ => []
      end
  | None => []
  end.

(** The content deltas of a wire text: those of its complete lines. *)
Definition deltasOf (JSON_parse : str -> option OpenRouterResponse)
    (wire : str) : list str :=
  flat_map (lineContents JSON_parse) (removelast (split wire)).

Definition isTick (e : Event) : bool :=
  match e with Tick => true | _ => false end.

Definition isBody (e : Event) : bool :=
  match e with Tick | Chunk _ => true | _ => false end.

(** The decoded text of the chunks of a trace, in order. *)
Definition wireOf (es : list Event) : str :=
  flat_map (fun e => match e with Chunk t => t | _ => [] end) es.

(** An invocation that gets as far as the request. *)
Definition Proceeds (cfg : GhostSettings) (h : Host) (lineNum : nat) : Prop :=
  apiKey cfg <> [] /\
  lineNum < lineCount (doc h) /\
  findModel (doc h) lineNum <> None.

(** [s'] still has the generation line and the timer state of [s]. *)
Definition Keeps (s s' : Invocation) : Prop :=
  generationLine s' = generationLine s /\
  lineCount (doc (host s)) <= lineCount (doc (host s')) /\
  timerActive s' = timerActive s /\
  loadingInterval s' = loadingInterval s /\
  isFirstChunk s' = isFirstChunk s.

(** While the timer is scheduled, [loadingInterval] holds its handle. *)
Definition HasHandle (s : Invocation) : Prop :=
  timerActive s = true -> loadingInterval s = true.

(** [s'] has issued the edits of [s] and possibly more. *)
Definition Extends (s s' : Invocation) : Prop :=
  exists rest, edits (host s') = edits (host s) ++ rest.

(** An occurrence of the pattern at offset [k]: an [@] and a class character
    right after it. *)
Definition occursAt (s : str) (k : nat) : Prop :=
  nth_error s k = Some 64%N /\
  exists c, nth_error s (S k) = Some c /\ isTok c = true.

(** [m] is a match of the pattern in [s]: the text at its index is [@] and a
    non-empty run of class characters that cannot be extended. *)
Definition isReference (s : str) (m : RegExpMatch) : Prop :=
  whole m = 64%N :: group1 m /\
  group1 m <> [] /\
  forallb isTok (group1 m) = true /\
  firstn (length (whole m)) (skipn (index m) s) = whole m /\
  match nth_error s (index m + length (whole m)) with
  | Some c => isTok c = false
  | None => True
  end.

(** Every newline of [t] is directly followed by the block-quote marker. *)
Definition everyNewlineQuoted (t : str) : Prop :=
  forall i, nth_error t i = Some NL -> firstn 2 (skipn (S i) t) = marker.

Definition cite (u t : str) : OpenRouterAnnotation :=
  {| type := lit "url_citation";
     url_citation := Some {| url := u; title := t |} |}.

(** [title || url] *)
Definition shownTitle (t u : str) : str := if isEmpty t then u else t.

(** In the words of the specification: [s] with [m] put after every newline. *)
Definition afterEveryNewline (m s : str) : str :=
  flat_map (fun c => if isNL c then c :: m else [c]) s.

(** The lines of a quoted text: every line but the first behind the marker. *)
Definition quotedLines (ls : list str) : list str :=
  match ls with
  | [] => []
  | l :: rest => l :: map (app marker) rest
  end.

(** Once content has been written the timer is off. *)
Definition Quiet (s : Invocation) : Prop :=
  isFirstChunk s = false -> timerActive s = false.

(** The ten glyphs of [spinnerFrames], as code units (U+280B, U+2819, ...). *)
Definition glyphs : list char :=
  [10251; 10265; 10297; 10296; 10300; 10292; 10278; 10279; 10247; 10255]%N.

(** A change of the document that the user makes, not the plugin. *)
Definition userEdit (text : str) (from to : EditorPosition) (s : Invocation)
    : Invocation :=
  with_host
    {| doc := replaceRange text from to (doc (host s));
       edits := edits (host s); notices := notices (host s);
       cursor := cursor (host s); requests := requests (host s) |}
    s.

(** * Sample inputs *)

Definition twoMarkers : str := lit "q +web +web".

Definition sampleSettings (key : str) (style : ResponseStyle) : GhostSettings :=
  {| apiKey := key; enabledModels := []; triggerPhrase := lit ";;";
     systemPrompt := []; cursorBehavior := Keep; responseStyle := style;
     personas := []; webSearchPolicy := Off; webSearchEngine := Auto |}.

Definition hostOf (d : Doc) : Host :=
  {| doc := d; edits := []; notices := []; cursor := None; requests := [] |}.

Definition sampleDoc : Doc :=
  lit "notes" ++ [NL] ++ lit "@openai/gpt-4o-mini Summarize ;;".

Definition cursorLine : Doc := lit "x @m hi".

Definition urlA : str := lit "https://a.example".
Definition urlB : str := lit "https://b.example".

Definition citedState : Invocation :=
  {| host := hostOf (lit "answer"); timerActive := false; phase := Reading;
     generationLine := 0; currentFrameIndex := 0;
     loadingInterval := false; isFirstChunk := false;
     currentInsertPos := mkPos 0 6; buffer := [];
     collectedAnnotations :=
       [cite urlA (lit "t1"); cite urlA (lit "t2"); cite urlB (lit "t3")] |}.

Definition dq : char := 34%N.

(** The JSON text of a payload whose first choice carries [content]. *)
Definition jsonContent (escaped : str) : str :=
  lit "{" ++ [dq] ++ lit "choices" ++ [dq] ++ lit ":[{" ++ [dq] ++ lit "delta"
    ++ [dq] ++ lit ":{" ++ [dq] ++ lit "content" ++ [dq] ++ lit ":" ++ [dq]
    ++ escaped ++ [dq] ++ lit "}}]}".

Definition contentResponse (c : str) : OpenRouterResponse :=
  {| choices :=
       Some [{| delta := Some {| content := Some c; annotations := None |} |}] |}.

(** JSON string bodies and the strings they denote. *)
Definition samplePayloads : list (str * str) :=
  [(lit "Hel", lit "Hel"); (lit "lo", lit "lo"); (lit "x", lit "x");
   (lit "a\nb", lit "a" ++ [NL] ++ lit "b")].

(** A parser that knows the sample payloads and rejects everything else. *)
Definition sampleParse (data : str) : option OpenRouterResponse :=
  option_map (fun e => contentResponse (snd e))
    (find (fun e => str_eqb data (jsonContent (fst e))) samplePayloads).

(** One server-sent event. *)
Definition sse (payload : str) : str := lit "data: " ++ payload ++ [NL; NL].

Definition helloWire : str :=
  sse (jsonContent (lit "Hel")) ++ sse (jsonContent (lit "lo"))
    ++ sse (lit "[DONE]").

Definition multilineWire : str :=
  sse (jsonContent (lit "x")) ++ sse (jsonContent (lit "a\nb"))
    ++ sse (lit "[DONE]").


(** A wire text delivered in two chunks cut at [n], with a tick in between. *)
Definition inTwoChunks (n : nat) (wire : str) : list Event :=
  [Chunk (firstn n wire); Tick; Chunk (skipn n wire)].

Definition sampleStart (style : ResponseStyle) : Invocation :=
  processStreamingQuery (sampleSettings (lit "k") style) (hostOf sampleDoc) 1
    (getLine sampleDoc 1).

Definition hello : list str := [lit "Hel"; lit "lo"].

Definition xThenTwoLines : list str := [lit "x"; lit "a" ++ [NL] ++ lit "b"].

(** The user rewrites the placeholder line behind its glyph while the
    response is awaited; under callout style, the whole line, keeping a glyph
    in the third column. *)
Definition ownWords : str := lit " my own words".

Definition editedWhileWaiting : Invocation :=
  userEdit ownWords (mkPos 3 1) (mkPos 3 15) (sampleStart Plain).

Definition editedCallout : Invocation :=
  userEdit (lit "no" ++ [10251%N] ++ ownWords) (mkPos 4 0) (mkPos 4 17)
    (sampleStart Callout).

(** * Further vocabulary *)

(** A body delivered as the chunks [chunks]. *)
Definition chunkEvents (chunks : list str) : list Event := map Chunk chunks.

(** [s'] has sent and shown what [s] had, and nothing more. *)
Definition Silent (s s' : Invocation) : Prop :=
  requests (host s') = requests (host s) /\
  notices (host s') = notices (host s).

(** [s'] has the edit cursor where [s] left it. *)
Definition CursorKept (s s' : Invocation) : Prop :=
  cursor (host s') = cursor (host s).

(** The [engine] field of the web plugin: absent for ['auto']. *)
Definition engineField (cfg : GhostSettings) : option WebSearchEngine :=
  match webSearchEngine cfg with Auto => None | e => Some e end.

(** The keys of the sources map, in iteration order. *)
Definition keysOf (m : list (str * str)) : list str := map fst m.

(** Whether the sources map has an entry for [k]. *)
Definition mapHas (k : str) (m : list (str * str)) : bool :=
  existsb (fun k' => str_eqb k' k) (keysOf m).

(** [a] is a citation of [c]. *)
Definition cites (a : OpenRouterAnnotation) (c : UrlCitation) : Prop :=
  url_citation a = Some c.

(** The field changes of a modal session. *)
Definition isChange (e : ModalEvent) : bool :=
  match e with SaveClick => false | _ => true end.

(** A persona after the changes [es], oldest first. *)
Definition edited (es : list ModalEvent) (p : Persona) : Persona :=
  fold_left (fun q e => applyChange e q) es p.

(** Every listed address is an object of the store. *)
Definition WellFormed (st : PersonaStore) : Prop :=
  Forall (fun r => r < length (objects st)) (personasRef st).

(** What completion adds behind the response: the sources, if any URL was
    cited, and the divider of the horizontal-rule style. *)
Definition sourcesPart (style : ResponseStyle)
    (collected : list OpenRouterAnnotation) : str :=
  match uniqueSourcesOf collected with
  | [] => []
  | u => sourcesTextOf style u
  end.

Definition dividerPart (style : ResponseStyle) : str :=
  match style with HorizontalRule => divider | _ => [] end.

(** The newline that 'end' adds behind a text that does not end a line. *)
Definition closingNewline (written_ : str) : str :=
  if isEmpty (lastSeg written_) then [] else [NL].

(** One item of the sources list, without its newline. *)
Definition entryLine (e : str * str) : str :=
  lit "- [" ++ snd e ++ lit "](" ++ fst e ++ lit ")".

(** In the words of the specification: the sources as a Markdown link list
    titled "Sources", one item per entry, after two newlines; under callout
    style every line after the first behind the marker. *)
Definition renderedLines (style : ResponseStyle) (u : list (str * str))
    : list str :=
  let list := [] :: lit "**Sources:**" :: map entryLine u ++ [[]] in
  if isCallout style then [] :: map (app (lit "> ")) list else [] :: list.

(** Neither the URL nor the title of an entry holds a newline. *)
Definition oneLine (e : str * str) : Prop :=
  countNL (fst e) = 0 /\ countNL (snd e) = 0.

(** * Further sample inputs *)

(** A state that lost its generation line before any content arrived. *)
Definition truncatedState : Invocation :=
  {| host := hostOf (lit "kept" ++ [NL] ++ lit "text");
     timerActive := true; phase := Reading;
     generationLine := 3; currentFrameIndex := 0;
     loadingInterval := true; isFirstChunk := true;
     currentInsertPos := mkPos 3 0; buffer := [];
     collectedAnnotations := [] |}.

(** A note whose prompt spans two lines and names a persona, under settings
    with two personas of that name. *)
Definition coach : Persona :=
  {| persona_name := lit "coach"; persona_model := lit "openai/gpt-4o";
     persona_systemPrompt := [] |}.

Definition shadowedCoach : Persona :=
  {| persona_name := lit "coach"; persona_model := lit "other/model";
     persona_systemPrompt := lit "never used" |}.

Definition personaSettings : GhostSettings :=
  {| apiKey := lit "k"; enabledModels := []; triggerPhrase := lit ";;";
     systemPrompt := lit "Be brief."; cursorBehavior := Keep;
     responseStyle := Plain; personas := [coach; shadowedCoach];
     webSearchPolicy := Trigger; webSearchEngine := Exa |}.

Definition personaDoc : Doc :=
  lit "intro" ++ [NL] ++ lit "ask @coach how" ++ [NL] ++ lit "are you +web;;".

Definition coachMatch : RegExpMatch :=
  {| index := 4; whole := lit "@coach"; group1 := lit "coach" |}.

Definition coachStore : PersonaStore :=
  {| objects := [coach; shadowedCoach]; personasRef := [0; 1] |}.

(** A reference being typed, and the suggester's view of it. *)
Definition typingDoc : Doc := lit "notes" ++ [NL] ++ lit "ask @gp".

Definition typingCursor : EditorPosition := mkPos 1 7.

Definition typingInfo : EditorSuggestTriggerInfo :=
  {| start := mkPos 1 4; end_ := typingCursor; query := lit "gp" |}.

(** A stream whose last event lacks its final newline. *)
Definition cutWire : str :=
  sse (jsonContent (lit "Hel")) ++ lit "data: " ++ jsonContent (lit "lo").

(** * Properties *)

(** ** Strings *)

Lemma str_eqb_eq (a b : str) : str_eqb a b = true <-> a = b.
Proof.
  revert b; induction a as [|x a IH]; intros [|y b]; simpl;
    try (split; [discriminate | congruence]); try tauto.
  rewrite andb_true_iff, N.eqb_eq, IH.
  split; [intros [-> ->]; reflexivity | intros [= -> ->]; auto].
Qed.

Lemma str_eqb_refl (a : str) : str_eqb a a = true.
Proof. apply str_eqb_eq; reflexivity. Qed.

Lemma str_eqb_neq (a b : str) : a <> b -> str_eqb a b = false.
Proof.
  intros H; destruct (str_eqb a b) eqn:E; [|reflexivity].
  apply str_eqb_eq in E; contradiction.
Qed.

Lemma length_trimStart_le (s : str) : length (trimStart s) <= length s.
Proof.
  induction s as [|c s IH]; simpl; [lia|].
  destruct (isWhiteSpace c); simpl; lia.
Qed.

Lemma length_trim_le (s : str) : length (trim s) <= length s.
Proof.
  unfold trim, trimEnd.
  rewrite length_rev.
  etransitivity; [apply length_trimStart_le|].
  rewrite length_rev; apply length_trimStart_le.
Qed.

Lemma endsWith_length (s p : str) : endsWith s p = true -> length p <= length s.
Proof.
  unfold endsWith; intros H; apply andb_true_iff in H as [H _].
  apply Nat.leb_le in H; exact H.
Qed.

(** ** The [+web] marker *)

Lemma stripWeb_unmarked (p : str) : endsWith p webMarker = false -> stripWeb p = p.
Proof. unfold stripWeb; intros ->; reflexivity. Qed.

Lemma stripWeb_marked_shorter (p : str) :
  endsWith p webMarker = true -> length (stripWeb p) + 4 <= length p.
Proof.
  intros H; unfold stripWeb; rewrite H.
  pose proof (endsWith_length _ _ H) as Hl.
  change (length webMarker) with 4 in Hl.
  pose proof (length_trim_le (sliceEnd 4 p)) as Ht.
  unfold sliceEnd in *; rewrite length_firstn in Ht; lia.
Qed.

(** C9, as stated, fails: the trimmed prompt [q +web +web] loses one marker
    per application, so stripping the output again changes it. *)
Lemma stripWeb_not_idempotent :
  trim twoMarkers = twoMarkers /\
  stripWeb twoMarkers = lit "q +web" /\
  stripWeb (stripWeb twoMarkers) = lit "q" /\
  stripWeb (stripWeb twoMarkers) <> stripWeb twoMarkers.
Proof. repeat split; try reflexivity; vm_compute; discriminate. Qed.

(** C9 (amended): a prompt that does not end in [+web] is returned unchanged,
    and stripping the output of a strip again is a no-op exactly when that
    output does not itself end in [+web]; in particular a prompt with no
    marker, or with one marker not preceded by another, is stable after one
    strip. *)
Theorem stripWeb_lossless_and_stable (p : str) :
  (endsWith p webMarker = false -> stripWeb p = p) /\
  (stripWeb (stripWeb p) = stripWeb p <->
   endsWith (stripWeb p) webMarker = false).
Proof.
  split; [apply stripWeb_unmarked|].
  split.
  - intros H; destruct (endsWith (stripWeb p) webMarker) eqn:E; [|reflexivity].
    apply stripWeb_marked_shorter in E; rewrite H in E; lia.
  - apply stripWeb_unmarked.
Qed.

(** ** Early returns *)

Section Idle.

Variable JSON_parse : str -> option OpenRouterResponse.
Variable cfg : GhostSettings.

Lemma step_returned (s : Invocation) (e : Event) :
  phase s = Returned -> timerActive s = false -> step JSON_parse cfg s e = s.
Proof.
  intros Hp Ht; destruct e; simpl; rewrite ?Ht, ?Hp; reflexivity.
Qed.

Lemma run_returned (s : Invocation) (es : list Event) :
  phase s = Returned -> timerActive s = false -> run JSON_parse cfg s es = s.
Proof.
  intros Hp Ht; induction es as [|e es IH]; [reflexivity|].
  unfold run in *; simpl; rewrite step_returned; auto.
Qed.

End Idle.

(** C6: with an empty API key the invocation shows one notice and returns
    before anything else happens: the document is untouched, no
    [replaceRange] is issued (neither the trigger removal nor the
    placeholder), no request is sent, no timer is started, and nothing the
    environment delivers afterwards changes the host. *)
Theorem missing_api_key_no_mutation
    (JSON_parse : str -> option OpenRouterResponse) (cfg : GhostSettings)
    (h : Host) (lineNum : nat) (lineText : str) (es : list Event) :
  apiKey cfg = [] ->
  let s := processStreamingQuery cfg h lineNum lineText in
  doc (host s) = doc h /\
  edits (host s) = edits h /\
  requests (host s) = requests h /\
  cursor (host s) = cursor h /\
  notices (host s) =
    notices h ++ [match findModel (doc h) lineNum with
                  | None => noModelNotice
                  | Some _ => noKeyNotice
                  end] /\
  timerActive s = false /\
  run JSON_parse cfg s es = s.
Proof.
  intros Hkey s; subst s; unfold processStreamingQuery.
  destruct (findModel (doc h) lineNum) as [[i m]|]; rewrite ?Hkey; simpl;
    repeat split; apply run_returned; reflexivity.
Qed.

(** With no key the sample invocation only shows the notice. *)
Lemma missing_api_key_no_mutation_witness :
  let s := processStreamingQuery (sampleSettings [] Plain) (hostOf sampleDoc) 1
             (getLine sampleDoc 1) in
  doc (host s) = sampleDoc /\ edits (host s) = [] /\ requests (host s) = [] /\
  notices (host s) = [noKeyNotice] /\
  run (fun _ => None) (sampleSettings [] Plain) s [Tick; BodyStream; Done] = s.
Proof.
  pose proof (@missing_api_key_no_mutation (fun _ => None)
                (sampleSettings [] Plain) (hostOf sampleDoc) 1
                (getLine sampleDoc 1) [Tick; BodyStream; Done] eq_refl) as H.
  cbv zeta in H.
  destruct H as (H1 & H2 & H3 & _ & H5 & _ & H7).
  repeat split; assumption.
Defined.

(** ** Lines, newlines and offsets *)

Lemma split_nonempty (s : str) : split s <> [].
Proof.
  induction s as [|c s IH]; simpl; [discriminate|].
  destruct (isNL c); [discriminate|].
  destruct (split s); discriminate.
Qed.

Lemma split_cons (c : char) (s : str) :
  split (c :: s) =
  if isNL c then [] :: split s
  else (c :: hd [] (split s)) :: tl (split s).
Proof.
  simpl; destruct (isNL c); [reflexivity|].
  destruct (split s) eqn:E; [|reflexivity].
  exfalso; exact (@split_nonempty _ E).
Qed.

Lemma length_split (s : str) : length (split s) = S (countNL s).
Proof.
  induction s as [|c s IH]; [reflexivity|].
  rewrite split_cons; simpl countNL.
  destruct (isNL c); simpl; [rewrite IH; reflexivity|].
  destruct (split s) eqn:E; simpl in *; lia.
Qed.

Lemma lineCount_countNL (d : Doc) : lineCount d = S (countNL d).
Proof. apply length_split. Qed.

Lemma countNL_app (a b : str) : countNL (a ++ b) = countNL a + countNL b.
Proof. induction a as [|c a IH]; simpl; [reflexivity|rewrite IH; lia]. Qed.

Lemma split_noNL (s : str) : countNL s = 0 -> split s = [s].
Proof.
  induction s as [|c s IH]; [reflexivity|].
  rewrite split_cons; simpl.
  destruct (isNL c); [discriminate|].
  intros H; rewrite (IH H); reflexivity.
Qed.

Lemma lastSeg_cons (c : char) (s : str) :
  lastSeg (c :: s) =
  if isNL c then lastSeg s
  else if countNL s =? 0 then c :: s else lastSeg s.
Proof.
  unfold lastSeg; rewrite split_cons.
  destruct (isNL c).
  - pose proof (@split_nonempty s).
    destruct (split s); [contradiction|reflexivity].
  - destruct (countNL s =? 0) eqn:E.
    + apply Nat.eqb_eq in E; rewrite (split_noNL _ E); reflexivity.
    + apply Nat.eqb_neq in E.
      pose proof (length_split s) as L.
      destruct (split s) as [|x [|y r]]; simpl in *; try lia; reflexivity.
Qed.

Lemma lastSeg_noNL (s : str) : countNL s = 0 -> lastSeg s = s.
Proof. intros H; unfold lastSeg; rewrite split_noNL; auto. Qed.

Lemma lastSeg_app (a b : str) :
  lastSeg (a ++ b) = if countNL b =? 0 then lastSeg a ++ b else lastSeg b.
Proof.
  induction a as [|c a IH]; simpl app.
  - destruct (countNL b =? 0) eqn:E; [|reflexivity].
    apply Nat.eqb_eq in E; rewrite lastSeg_noNL; auto.
  - rewrite !lastSeg_cons, IH, countNL_app.
    destruct (isNL c); [reflexivity|].
    destruct (countNL b =? 0) eqn:Eb.
    + apply Nat.eqb_eq in Eb; rewrite Eb, Nat.add_0_r.
      destruct (countNL a =? 0); reflexivity.
    + apply Nat.eqb_neq in Eb.
      destruct (countNL a + countNL b =? 0) eqn:Eab; [|reflexivity].
      apply Nat.eqb_eq in Eab; lia.
Qed.

Lemma countNL_lastSeg (s : str) : countNL (lastSeg s) = 0.
Proof.
  induction s as [|c s IH]; [reflexivity|].
  rewrite lastSeg_cons.
  destruct (isNL c) eqn:Ec; [exact IH|].
  destruct (countNL s =? 0) eqn:E; [|exact IH].
  apply Nat.eqb_eq in E; simpl; rewrite Ec, E; reflexivity.
Qed.

(** [getLine] across a concatenation. *)
Lemma getLine_app_after (a b : str) (k : nat) :
  getLine (a ++ b) (countNL a + S k) = getLine b (S k).
Proof.
  unfold getLine, lines.
  induction a as [|c a IH]; [reflexivity|].
  simpl app; rewrite split_cons; simpl countNL.
  destruct (isNL c); simpl; [exact IH|].
  destruct (split (a ++ b)) as [|x r] eqn:Es;
    [exfalso; exact (@split_nonempty _ Es)|].
  rewrite Nat.add_succ_r in *; exact IH.
Qed.

Lemma getLine_app_at (a b : str) :
  getLine (a ++ b) (countNL a) = lastSeg a ++ getLine b 0.
Proof.
  unfold getLine, lines.
  induction a as [|c a IH]; simpl app.
  - simpl; reflexivity.
  - rewrite split_cons, lastSeg_cons; simpl countNL.
    destruct (isNL c); simpl; [exact IH|].
    destruct (split (a ++ b)) as [|x r] eqn:Es;
      [exfalso; exact (@split_nonempty _ Es)|].
    destruct (countNL a) eqn:Ea; simpl in *.
    + rewrite lastSeg_noNL in IH by assumption; rewrite IH; reflexivity.
    + exact IH.
Qed.

Lemma getLine_first (ln rest : str) :
  countNL ln = 0 -> atLineEnd rest = true -> getLine (ln ++ rest) 0 = ln.
Proof.
  intros H E.
  pose proof (getLine_app_at ln rest) as G; rewrite H in G; rewrite G.
  rewrite lastSeg_noNL by assumption.
  destruct rest as [|c rest]; [apply app_nil_r|].
  simpl in E; unfold getLine, lines; rewrite split_cons, E; apply app_nil_r.
Qed.

(** The offset of the position that ends a prefix is the prefix's length. *)
Lemma offsetAt_endPos (a b : str) :
  offsetAt (a ++ b) (countNL a) (length (lastSeg a)) = length a.
Proof.
  induction a as [|c a IH]; simpl app.
  - destruct b as [|x b]; simpl; [reflexivity|].
    destruct (isNL x); reflexivity.
  - rewrite lastSeg_cons; simpl countNL; simpl offsetAt.
    destruct (isNL c); simpl; [rewrite IH; reflexivity|].
    destruct (countNL a) eqn:Ea; simpl.
    + rewrite lastSeg_noNL in IH by assumption; rewrite IH; reflexivity.
    + rewrite IH; reflexivity.
Qed.

Lemma posToOffset_endPos (a b : str) : posToOffset (a ++ b) (endPos a) = length a.
Proof. apply offsetAt_endPos. Qed.

(** A document cut around one of its lines. *)
Lemma doc_cut (d : Doc) (l : nat) :
  l <= countNL d ->
  exists a b,
    d = a ++ getLine d l ++ b /\
    countNL a = l /\ lastSeg a = [] /\
    countNL (getLine d l) = 0 /\ atLineEnd b = true.
Proof.
  revert l; induction d as [|c d IH]; intros l Hl.
  - simpl in Hl; assert (l = 0) by lia; subst.
    exists [], []; repeat split.
  - unfold getLine, lines in *; rewrite split_cons.
    simpl in Hl; destruct (isNL c) eqn:Ec.
    + destruct l as [|l].
      * exists [], (c :: d); simpl; rewrite Ec; repeat split.
      * destruct (IH l ltac:(lia)) as (a & b & Hd & Ha & Hs & Hn & Hb).
        exists (c :: a), b; simpl nth.
        rewrite lastSeg_cons, Ec; simpl; rewrite Ec, Ha.
        repeat split; auto; congruence.
    + destruct l as [|l].
      * destruct (IH 0 ltac:(lia)) as (a & b & Hd & Ha & Hs & Hn & Hb).
        assert (a = []) as ->.
        { destruct a as [|x a]; [reflexivity|].
          rewrite lastSeg_cons in Hs; simpl in Ha.
          destruct (isNL x); [discriminate|].
          simpl in Ha; rewrite Ha in Hs; simpl in Hs; discriminate. }
        exists [], b; simpl in *.
        rewrite Ec; simpl.
        destruct (split d) as [|x r] eqn:Es; [exfalso; exact (@split_nonempty _ Es)|].
        simpl in *; repeat split; auto; congruence.
      * destruct (IH (S l) ltac:(lia)) as (a & b & Hd & Ha & Hs & Hn & Hb).
        exists (c :: a), b; simpl nth.
        rewrite lastSeg_cons, Ec, Ha; simpl; rewrite Ec, Ha.
        destruct (split d) as [|x r] eqn:Es; [exfalso; exact (@split_nonempty _ Es)|].
        simpl in *.
        repeat split; auto; congruence.
Qed.

Lemma countNL_firstn_noNL (ln : str) (c : nat) :
  countNL ln = 0 -> countNL (firstn c ln) = 0.
Proof.
  revert c; induction ln as [|x ln IH]; intros [|c] H; simpl in *; auto.
  destruct (isNL x); [discriminate|]; simpl in *; auto.
Qed.

Lemma offsetAt_cut (a ln b : str) (c : nat) :
  lastSeg a = [] -> countNL ln = 0 -> c <= length ln ->
  offsetAt (a ++ ln ++ b) (countNL a) c = length a + c.
Proof.
  intros Ha Hn Hc.
  rewrite <- (firstn_skipn c ln), <- app_assoc, app_assoc.
  pose proof (offsetAt_endPos (a ++ firstn c ln) (skipn c ln ++ b)) as H.
  rewrite countNL_app, lastSeg_app, countNL_firstn_noNL in H by assumption.
  simpl in H; rewrite Ha, Nat.add_0_r in H; simpl in H.
  rewrite length_app, length_firstn, Nat.min_l in H by assumption.
  exact H.
Qed.

(** Replacing a stretch of one line leaves the rest of the document alone. *)
Lemma replaceRange_line (a ln b text : str) (c1 c2 : nat) :
  lastSeg a = [] -> countNL ln = 0 -> c1 <= length ln -> c2 <= length ln ->
  replaceRange text (mkPos (countNL a) c1) (mkPos (countNL a) c2) (a ++ ln ++ b)
  = a ++ firstn c1 ln ++ text ++ skipn c2 ln ++ b.
Proof.
  intros Ha Hn H1 H2; unfold replaceRange, posToOffset; simpl.
  rewrite !offsetAt_cut by assumption.
  rewrite firstn_app, firstn_all2 by lia.
  replace (length a + c1 - length a) with c1 by lia.
  rewrite firstn_app, (proj2 (Nat.sub_0_le c1 (length ln)) H1), firstn_O, app_nil_r.
  rewrite skipn_app, skipn_all2 by lia.
  replace (length a + c2 - length a) with c2 by lia.
  rewrite skipn_app, (proj2 (Nat.sub_0_le c2 (length ln)) H2), skipn_O.
  simpl; rewrite <- !app_assoc; reflexivity.
Qed.

(** Inserting at the position that ends a prefix. *)
Lemma replaceRange_endPos (a b text : str) :
  replaceRange text (endPos a) (endPos a) (a ++ b) = a ++ text ++ b.
Proof.
  unfold replaceRange; rewrite posToOffset_endPos.
  rewrite firstn_app, firstn_all, Nat.sub_diag, firstn_O, app_nil_r.
  rewrite skipn_app, skipn_all, Nat.sub_diag, skipn_O; reflexivity.
Qed.

(** The position update of the source agrees with [endPos]. *)
Lemma advance_endPos (a text : str) :
  advance (endPos a) text = endPos (a ++ text).
Proof.
  unfold advance, endPos; simpl.
  rewrite length_split, countNL_app, lastSeg_app.
  fold (lastSeg text).
  destruct (countNL text) eqn:E; simpl.
  - rewrite length_app, Nat.add_0_r; reflexivity.
  - f_equal; lia.
Qed.

Lemma advanceLines_endPos (a text : str) :
  0 < countNL text -> advanceLines (endPos a) text = endPos (a ++ text).
Proof.
  intros H; unfold advanceLines, endPos; simpl.
  rewrite length_split, countNL_app, lastSeg_app.
  fold (lastSeg text).
  destruct (countNL text) eqn:E; [lia|]; simpl.
  f_equal; lia.
Qed.

(** Line framing: a chunk only completes the fragment kept from before. *)
Lemma split_app_lastSeg (a b : str) :
  split (a ++ b) = removelast (split a) ++ split (lastSeg a ++ b).
Proof.
  induction a as [|c a IH]; [reflexivity|].
  rewrite <- app_comm_cons.
  rewrite (split_cons c (a ++ b)), (split_cons c a), lastSeg_cons.
  pose proof (length_split a) as L.
  destruct (isNL c) eqn:Ec.
  - rewrite IH.
    destruct (split a) as [|x r] eqn:Es; [discriminate|reflexivity].
  - destruct (countNL a =? 0) eqn:E.
    + apply Nat.eqb_eq in E.
      rewrite (split_noNL _ E); cbn [hd tl removelast app].
      rewrite (split_cons c (a ++ b)), Ec; reflexivity.
    + apply Nat.eqb_neq in E.
      rewrite IH.
      destruct (split a) as [|x [|y r]] eqn:Es; simpl in L; try lia.
      reflexivity.
Qed.

Lemma removelast_split_app (a b : str) :
  removelast (split (a ++ b))
  = removelast (split a) ++ removelast (split (lastSeg a ++ b)).
Proof.
  rewrite split_app_lastSeg.
  apply removelast_app, split_nonempty.
Qed.

Lemma lastSeg_app_lastSeg (a b : str) :
  lastSeg (a ++ b) = lastSeg (lastSeg a ++ b).
Proof.
  rewrite !lastSeg_app.
  rewrite (lastSeg_noNL (lastSeg a)) by apply countNL_lastSeg.
  reflexivity.
Qed.

(** ** The invocation between the placeholder and the end of the stream *)

Lemma spinnerLine_noNL (style : ResponseStyle) (k : nat) :
  k < 10 -> countNL (spinnerLine style k) = 0.
Proof.
  intros H; destruct style;
    do 10 (destruct k as [|k]; [reflexivity|]); lia.
Qed.

Lemma spinnerLine_looks (style : ResponseStyle) (k : nat) :
  k < 10 -> looksLikeSpinner style (spinnerLine style k) = true.
Proof.
  intros H; destruct style;
    do 10 (destruct k as [|k]; [reflexivity|]); lia.
Qed.

(** Projections of an updated record. *)
Ltac proj :=
  unfold edit, notify, with_host, with_phase, with_frame, with_pos,
    with_buffer, with_annotations, not_first, clearTimer,
    clearTimerAndForget, do_insert, do_replaceRange, do_notice, do_setCursor,
    do_fetch;
  cbn [host doc edits notices cursor requests timerActive phase
       generationLine currentFrameIndex loadingInterval isFirstChunk
       currentInsertPos buffer collectedAnnotations line ch].

Section Invariants.

Variable JSON_parse : str -> option OpenRouterResponse.
Variable cfg : GhostSettings.

(** The text before the generation line, and the text after it. *)
Variables X post : str.
Hypothesis X_line_start : lastSeg X = [].
Hypothesis post_line_end : atLineEnd post = true.

Let style := responseStyle cfg.

Lemma waiting_line (s : Invocation) :
  Waiting cfg X post s ->
  generationLine s < lineCount (doc (host s)) /\
  getLine (doc (host s)) (generationLine s)
    = spinnerLine style (currentFrameIndex s).
Proof.
  intros (Hk & Hd & _ & _ & _ & _ & Hg).
  rewrite Hd, Hg, lineCount_countNL, countNL_app; split; [lia|].
  rewrite getLine_app_at, X_line_start; simpl.
  apply getLine_first; [apply spinnerLine_noNL|]; assumption.
Qed.

Lemma tick_waiting (s : Invocation) :
  Waiting cfg X post s ->
  Waiting cfg X post (tick cfg s) /\ phase (tick cfg s) = phase s /\
  buffer (tick cfg s) = buffer s /\
  collectedAnnotations (tick cfg s) = collectedAnnotations s /\
  notices (host (tick cfg s)) = notices (host s).
Proof.
  intros W; pose proof (@waiting_line s W) as [Hlt Hline].
  destruct W as (Hk & Hd & Ht & Hh & Hf & Hp & Hg).
  unfold tick.
  set (k := (currentFrameIndex s + 1) mod length spinnerFrames).
  assert (Hk' : k < 10) by (apply Nat.mod_upper_bound; discriminate).
  proj.
  apply Nat.ltb_lt in Hlt; rewrite Hlt, Hline.
  fold style; rewrite spinnerLine_looks by assumption.
  proj; repeat split; auto.
  fold (spinnerLine style k).
  rewrite Hd, Hg.
  pose proof (spinnerLine_noNL style Hk) as Hn.
  rewrite (@replaceRange_line X _ post _ 0 _ X_line_start Hn) by lia.
  rewrite skipn_all; reflexivity.
Qed.

Lemma onContent_first (c : str) (s : Invocation) :
  Waiting cfg X post s -> Writing X post (firstDisplayOf style c) (onContent cfg c s).
Proof.
  intros W; pose proof (@waiting_line s W) as [Hlt Hline].
  destruct W as (Hk & Hd & Ht & Hh & Hf & Hp & Hg).
  unfold onContent; rewrite Hf; proj.
  apply Nat.ltb_lt in Hlt; rewrite Hlt, Hline; proj.
  fold style.
  pose proof (spinnerLine_noNL style Hk) as Hn.
  unfold Writing; proj.
  rewrite Hd, Hg, Hh.
  rewrite (@replaceRange_line X _ post _ 0 _ X_line_start Hn) by lia.
  rewrite skipn_all; simpl.
  assert (E : mkPos (countNL X) 0 = endPos X)
    by (unfold endPos; rewrite X_line_start; reflexivity).
  rewrite E, advance_endPos.
  repeat split; reflexivity.
Qed.

Lemma onContent_next (W c : str) (s : Invocation) :
  Writing X post W s -> Writing X post (W ++ displayOf style c) (onContent cfg c s).
Proof.
  intros (Hd & Hp & Ht & Hf & Hg).
  unfold onContent; rewrite Hf; unfold Writing; proj; fold style.
  rewrite Hd, Hp, app_assoc, replaceRange_endPos, advance_endPos.
  rewrite <- !app_assoc.
  repeat split; auto.
Qed.

Lemma onContent_frame (c : str) (s : Invocation) :
  phase (onContent cfg c s) = phase s /\
  buffer (onContent cfg c s) = buffer s /\
  collectedAnnotations (onContent cfg c s) = collectedAnnotations s /\
  notices (host (onContent cfg c s)) = notices (host s).
Proof.
  unfold onContent.
  destruct (isFirstChunk s); proj; [|auto].
  destruct (generationLine s <? lineCount (doc (host s))); proj; auto.
Qed.

Lemma onContent_inv (cs : list str) (c : str) (s : Invocation) :
  Inv cfg X post cs s -> Inv cfg X post (cs ++ [c]) (onContent cfg c s).
Proof.
  destruct cs as [|c0 rest]; simpl.
  - intros W; pose proof (@onContent_first c s W) as H.
    rewrite app_nil_r; exact H.
  - intros W; pose proof (@onContent_next _ c s W) as H.
    rewrite map_app, concat_app; simpl.
    rewrite app_nil_r, <- app_assoc in *; exact H.
Qed.

Lemma inv_notify (cs : list str) (msg : str) (s : Invocation) :
  Inv cfg X post cs s -> Inv cfg X post cs (notify msg s).
Proof. destruct cs; exact (fun H => H). Qed.

Lemma inv_annotations (cs : list str) (a : list OpenRouterAnnotation)
    (s : Invocation) :
  Inv cfg X post cs s -> Inv cfg X post cs (with_annotations a s).
Proof. destruct cs; exact (fun H => H). Qed.

Lemma processLine_inv (cs : list str) (ln : str) (s : Invocation) :
  Inv cfg X post cs s ->
  Inv cfg X post (cs ++ lineContents JSON_parse ln) (processLine JSON_parse cfg ln s) /\
  phase (processLine JSON_parse cfg ln s) = phase s /\
  buffer (processLine JSON_parse cfg ln s) = buffer s.
Proof.
  intros H.
  unfold processLine, lineContents, lineDelta.
  destruct (isEmpty (trim ln)); [rewrite app_nil_r; auto|].
  destruct (str_eqb (trim ln) keepAlive); [rewrite app_nil_r; auto|].
  destruct (startsWith (trim ln) dataPrefix).
  - destruct (str_eqb (sliceFrom 6 (trim ln)) doneSentinel);
      [rewrite app_nil_r; auto|].
    destruct (JSON_parse (sliceFrom 6 (trim ln))) as [parsed|];
      [|rewrite app_nil_r; auto].
    destruct (firstDelta parsed) as [d|]; [|rewrite app_nil_r; auto].
    destruct (content d) as [[|x c]|], (annotations d) as [ans|]; simpl isEmpty;
      cbv iota; rewrite ?app_nil_r; auto using inv_annotations;
      match goal with
      | |- context [onContent cfg ?c0 ?s1] =>
          destruct (onContent_frame c0 s1) as (Hp & Hb & _); rewrite Hp, Hb;
          split; [apply (@onContent_inv cs c0); auto using inv_annotations
                 |split; reflexivity]
      end.
  - rewrite app_nil_r.
    destruct (startsWith (trim ln) errorPrefix); auto using inv_notify.
Qed.

Lemma processLines_inv (lns : list str) (cs : list str) (s : Invocation) :
  Inv cfg X post cs s ->
  let s' := fold_left (fun st ln => processLine JSON_parse cfg ln st) lns s in
  Inv cfg X post (cs ++ flat_map (lineContents JSON_parse) lns) s' /\
  phase s' = phase s /\ buffer s' = buffer s.
Proof.
  revert cs s; induction lns as [|ln lns IH]; intros cs s H; simpl.
  - rewrite app_nil_r; auto.
  - destruct (@processLine_inv cs ln s H) as (H1 & Hp & Hb).
    destruct (IH _ _ H1) as (H2 & Hp2 & Hb2).
    rewrite app_assoc; repeat split; congruence.
Qed.

Lemma onChunk_inv (seen chunk : str) (s : Invocation) :
  Inv cfg X post (deltasOf JSON_parse seen) s -> buffer s = lastSeg seen ->
  Inv cfg X post (deltasOf JSON_parse (seen ++ chunk)) (onChunk JSON_parse cfg chunk s) /\
  buffer (onChunk JSON_parse cfg chunk s) = lastSeg (seen ++ chunk) /\
  phase (onChunk JSON_parse cfg chunk s) = phase s.
Proof.
  intros H Hb; unfold onChunk, deltasOf.
  rewrite removelast_split_app, flat_map_app, lastSeg_app_lastSeg, Hb.
  set (s1 := with_buffer _ s).
  assert (H1 : Inv cfg X post (deltasOf JSON_parse seen) s1) by (destruct (deltasOf JSON_parse seen); exact H).
  destruct (@processLines_inv (removelast (split (lastSeg seen ++ chunk))) _ _ H1)
    as (H2 & Hp & Hb2).
  repeat split; assumption.
Qed.

Lemma tick_inv (cs : list str) (s : Invocation) :
  Inv cfg X post cs s ->
  Inv cfg X post cs (step JSON_parse cfg s Tick) /\
  phase (step JSON_parse cfg s Tick) = phase s /\
  buffer (step JSON_parse cfg s Tick) = buffer s.
Proof.
  intros H; simpl.
  destruct cs as [|c rest].
  - destruct (@tick_waiting s H) as (H1 & H2 & H3 & _).
    destruct H as (_ & _ & Ht & _); rewrite Ht.
    split; [exact H1 | split; assumption].
  - pose proof H as (Hd & Hp & Ht & Hr); rewrite Ht.
    split; [exact H | split; reflexivity].
Qed.

Lemma ticks_waiting (es : list Event) (s : Invocation) :
  forallb isTick es = true -> Waiting cfg X post s ->
  Waiting cfg X post (run JSON_parse cfg s es) /\
  phase (run JSON_parse cfg s es) = phase s /\
  buffer (run JSON_parse cfg s es) = buffer s.
Proof.
  revert s; induction es as [|e es IH]; intros s Hes W; [auto|].
  simpl in Hes; apply andb_true_iff in Hes as [He Hes].
  destruct e; try discriminate.
  destruct (@tick_inv [] s W) as (W1 & Hp & Hb).
  destruct (IH _ Hes W1) as (W2 & Hp2 & Hb2).
  change (run JSON_parse cfg s (Tick :: es))
    with (run JSON_parse cfg (step JSON_parse cfg s Tick) es).
  split; [exact W2 | split; congruence].
Qed.

Lemma body_inv (es : list Event) (seen : str) (s : Invocation) :
  forallb isBody es = true -> phase s = Reading ->
  Inv cfg X post (deltasOf JSON_parse seen) s -> buffer s = lastSeg seen ->
  let s' := run JSON_parse cfg s es in
  Inv cfg X post (deltasOf JSON_parse (seen ++ wireOf es)) s' /\
  buffer s' = lastSeg (seen ++ wireOf es) /\ phase s' = Reading.
Proof.
  revert seen s; induction es as [|e es IH]; intros seen s Hes Hph H Hb.
  - simpl; rewrite app_nil_r; auto.
  - simpl in Hes; apply andb_true_iff in Hes as [He Hes].
    change (run JSON_parse cfg s (e :: es))
      with (run JSON_parse cfg (step JSON_parse cfg s e) es).
    destruct e; try discriminate.
    + destruct (@tick_inv _ s H) as (H1 & Hp1 & Hb1).
      apply (IH seen); congruence.
    + simpl wireOf; rewrite app_assoc.
      destruct (@onChunk_inv seen text s H Hb) as (H1 & Hb1 & Hp1).
      assert (E : step JSON_parse cfg s (Chunk text)
                  = onChunk JSON_parse cfg text s)
        by (simpl; rewrite Hph; reflexivity).
      rewrite E; apply IH; congruence.
Qed.

End Invariants.

(** ** From the invocation to the placeholder *)

Lemma prefix_split (style : ResponseStyle) :
  prefix style = prefixHead style ++ spinnerPrefix style.
Proof. destruct style; reflexivity. Qed.

Lemma prefixHead_lines (style : ResponseStyle) :
  countNL (prefixHead style) = generationLineOffset style /\
  lastSeg (prefixHead style) = [].
Proof. destruct style; split; reflexivity. Qed.

Lemma start_waiting (cfg : GhostSettings) (h : Host) (lineNum : nat) :
  Proceeds cfg h lineNum ->
  let s := processStreamingQuery cfg h lineNum (getLine (doc h) lineNum) in
  exists X post,
    lastSeg X = [] /\ atLineEnd post = true /\
    countNL X = lineNum + generationLineOffset (responseStyle cfg) /\
    Waiting cfg X post s /\
    phase s = AwaitResponse /\ buffer s = [] /\
    collectedAnnotations s = [] /\ notices (host s) = notices h /\
    generationLine s = lineNum + generationLineOffset (responseStyle cfg).
Proof.
  intros (Hkey & Hline & Hfound) s; subst s.
  unfold processStreamingQuery.
  destruct (findModel (doc h) lineNum) as [[i m]|]; [|contradiction].
  destruct (apiKey cfg) as [|k0 key] eqn:Ek; [contradiction|].
  cbn [isEmpty].
  rewrite lineCount_countNL in Hline.
  destruct (@doc_cut (doc h) lineNum ltac:(lia)) as (a & b & Hd & Ha & Hs & Hn & Hb).
  remember (getLine (doc h) lineNum) as ln eqn:Eln.
  set (rm := endsWith ln (triggerPhrase cfg)).
  set (pe := if rm then length ln - length (triggerPhrase cfg) else length ln).
  assert (Hpe : pe <= length ln) by (subst pe; destruct rm; lia).
  set (style := responseStyle cfg).
  destruct (prefixHead_lines style) as [Hcnt Hlast].
  exists (a ++ firstn pe ln ++ prefixHead style), b.
  assert (HX : countNL (a ++ firstn pe ln ++ prefixHead style)
               = lineNum + generationLineOffset style).
  { rewrite !countNL_app, countNL_firstn_noNL, Ha, Hcnt by assumption; lia. }
  assert (HL : lastSeg (a ++ firstn pe ln ++ prefixHead style) = []).
  { rewrite app_assoc, lastSeg_app, Hcnt, Hlast.
    destruct style; reflexivity. }
  split; [exact HL|]. split; [exact Hb|]. split; [exact HX|].
  unfold Waiting; proj.
  repeat split; auto; try lia; [|destruct rm; reflexivity].
  assert (E : doc (if rm
                   then do_replaceRange [] (mkPos lineNum pe)
                          (mkPos lineNum (length ln)) h
                   else h) = a ++ firstn pe ln ++ b).
  { destruct rm eqn:Er; proj.
    - rewrite Hd, <- Ha, replaceRange_line by (auto; lia).
      rewrite skipn_all; reflexivity.
    - subst pe; rewrite firstn_all; exact Hd. }
  unfold do_replaceRange in E; rewrite E, <- Ha.
  rewrite (@replaceRange_line a (firstn pe ln) b _ pe pe Hs)
    by (rewrite ?length_firstn; auto using countNL_firstn_noNL; lia).
  rewrite firstn_firstn, Nat.min_id.
  replace (skipn pe (firstn pe ln)) with (@nil char)
    by (symmetry; apply skipn_all2; rewrite length_firstn; lia).
  fold style; rewrite prefix_split.
  unfold spinnerLine; rewrite <- !app_assoc; reflexivity.
Qed.

(** ** Ticks and insertions never remove the generation line *)

Lemma lineCount_insert (text : str) (p : EditorPosition) (d : Doc) :
  lineCount (replaceRange text p p d) = lineCount d + countNL text.
Proof.
  unfold replaceRange; rewrite !lineCount_countNL, !countNL_app.
  pose proof (firstn_skipn (posToOffset d p) d) as E.
  apply (f_equal countNL) in E; rewrite countNL_app in E; lia.
Qed.

Lemma getSpinnerText_noNL (k : nat) (style : ResponseStyle) :
  k < 10 -> countNL (spinnerPrefix style ++ getSpinnerText k) = 0.
Proof. apply spinnerLine_noNL. Qed.


Lemma keeps_refl (s : Invocation) : Keeps s s.
Proof. unfold Keeps; auto. Qed.

Lemma keeps_trans (s1 s2 s3 : Invocation) :
  Keeps s1 s2 -> Keeps s2 s3 -> Keeps s1 s3.
Proof.
  intros (A1 & A2 & A3 & A4 & A5) (B1 & B2 & B3 & B4 & B5).
  unfold Keeps; repeat split; try congruence; lia.
Qed.

Lemma keeps_insert (t : str) (p : EditorPosition) (s : Invocation) :
  Keeps s (with_pos p (edit t (currentInsertPos s) (currentInsertPos s) s)).
Proof.
  unfold Keeps; proj; rewrite lineCount_insert; repeat split; lia.
Qed.

Lemma keeps_phase (p : Phase) (s s' : Invocation) :
  Keeps s s' -> Keeps s (with_phase p s').
Proof. exact (fun H => H). Qed.

Lemma keeps_cursor (s s' : Invocation) :
  Keeps s s' ->
  Keeps s (with_host (do_setCursor (currentInsertPos s') (host s')) s').
Proof. exact (fun H => H). Qed.

Lemma onDone_keeps (cfg : GhostSettings) (s : Invocation) :
  Keeps s (onDone cfg s) /\ phase (onDone cfg s) = Returned.
Proof.
  unfold onDone.
  set (s1 := match collectedAnnotations s with [] => s | _ => _ end).
  assert (K1 : Keeps s s1).
  { subst s1; destruct (collectedAnnotations s) as [|a0 rest];
      [apply keeps_refl|].
    destruct (uniqueSourcesOf (a0 :: rest));
      [apply keeps_refl|apply keeps_insert]. }
  set (s2 := match responseStyle cfg with HorizontalRule => _ | _ => s1 end).
  assert (K2 : Keeps s1 s2).
  { subst s2; destruct (responseStyle cfg);
      [apply keeps_refl|apply keeps_insert|apply keeps_refl]. }
  split; [|reflexivity].
  apply (keeps_trans K1), (keeps_trans K2), keeps_phase.
  destruct (cursorBehavior cfg); [apply keeps_refl|].
  apply keeps_cursor.
  destruct (ch (currentInsertPos s2)); [apply keeps_refl|].
  apply (keeps_insert [NL]).
Qed.

(** ** Finalization *)

Lemma atLineEnd_app (a b : str) :
  atLineEnd a = true -> atLineEnd b = true -> atLineEnd (a ++ b) = true.
Proof. destruct a; simpl; auto. Qed.

Lemma sourcesText_concat (acc : str) (u : list (str * str)) :
  fold_left (fun acc e => acc ++ sourceEntry e) u acc
  = acc ++ concat (map sourceEntry u).
Proof.
  revert acc; induction u as [|e u IH]; intros acc; cbn [fold_left map concat].
  - rewrite app_nil_r; reflexivity.
  - rewrite IH, <- app_assoc; reflexivity.
Qed.

Lemma sourcesText_head (style : ResponseStyle) (u : list (str * str)) :
  atLineEnd (sourcesTextOf style u) = true /\
  0 < countNL (sourcesTextOf style u).
Proof.
  unfold sourcesTextOf; rewrite sourcesText_concat.
  destruct style; simpl; split; auto; lia.
Qed.

Section Finalize.

Variable cfg : GhostSettings.
Variables X post : str.

Lemma writing_insert (W t : str) (s : Invocation) :
  Writing X post W s -> 0 < countNL t ->
  Writing X post (W ++ t)
    (with_pos (advanceLines (currentInsertPos s) t)
       (edit t (currentInsertPos s) (currentInsertPos s) s)).
Proof.
  intros (Hd & Hp & Ht & Hf & Hg) Hn; unfold Writing; proj.
  rewrite Hd, Hp, app_assoc, replaceRange_endPos, advanceLines_endPos
    by assumption.
  rewrite <- !app_assoc; repeat split; auto.
Qed.

Lemma writing_newline (W : str) (s : Invocation) :
  Writing X post W s ->
  Writing X post (W ++ [NL])
    (with_pos (mkPos (line (currentInsertPos s) + 1) 0)
       (edit [NL] (currentInsertPos s) (currentInsertPos s) s)).
Proof.
  intros (Hd & Hp & Ht & Hf & Hg); unfold Writing; proj.
  rewrite Hd, Hp, app_assoc, replaceRange_endPos.
  rewrite <- !app_assoc; repeat split; auto.
  unfold endPos; cbn [line].
  rewrite (app_assoc X W), (countNL_app (X ++ W) [NL]), lastSeg_app.
  reflexivity.
Qed.

Lemma onDone_writing (W : str) (s : Invocation) :
  Writing X post W s ->
  exists F,
    atLineEnd F = true /\
    Writing X post (W ++ F) (onDone cfg s) /\
    phase (onDone cfg s) = Returned.
Proof.
  intros H0; unfold onDone.
  set (s1 := match collectedAnnotations s with [] => s | _ => _ end).
  assert (H1 : exists F1, atLineEnd F1 = true /\ Writing X post (W ++ F1) s1).
  { subst s1; destruct (collectedAnnotations s) as [|a0 rest].
    - exists []; rewrite app_nil_r; auto.
    - destruct (uniqueSourcesOf (a0 :: rest)) as [|u0 us].
      + exists []; rewrite app_nil_r; auto.
      + destruct (sourcesText_head (responseStyle cfg) (u0 :: us)) as [Ha Hn].
        eexists; split; [exact Ha|].
        apply writing_insert; assumption. }
  destruct H1 as (F1 & HF1 & H1).
  set (s2 := match responseStyle cfg with HorizontalRule => _ | _ => s1 end).
  assert (H2 : exists F2, atLineEnd F2 = true /\
                          Writing X post ((W ++ F1) ++ F2) s2).
  { subst s2; destruct (responseStyle cfg);
      try (exists []; rewrite app_nil_r; auto; fail).
    exists divider; split; [reflexivity|].
    apply writing_insert; [assumption|simpl; lia]. }
  destruct H2 as (F2 & HF2 & H2).
  assert (H3 : exists F3, atLineEnd F3 = true /\
      Writing X post (((W ++ F1) ++ F2) ++ F3)
        match cursorBehavior cfg with
        | Keep => s2
        | ToEnd =>
            let s' :=
              match ch (currentInsertPos s2) with
              | 0 => s2
              | S _ =>
                  with_pos (mkPos (line (currentInsertPos s2) + 1) 0)
                    (edit [NL] (currentInsertPos s2) (currentInsertPos s2) s2)
              end in
            with_host (do_setCursor (currentInsertPos s') (host s')) s'
        end).
  { destruct (cursorBehavior cfg).
    - exists []; rewrite app_nil_r; auto.
    - destruct (ch (currentInsertPos s2)).
      + exists []; rewrite app_nil_r; split; [reflexivity|exact H2].
      + exists [NL]; split; [reflexivity|].
        exact (@writing_newline _ _ H2). }
  destruct H3 as (F3 & HF3 & H3).
  exists (F1 ++ F2 ++ F3).
  split; [auto using atLineEnd_app|].
  split; [|reflexivity].
  rewrite !app_assoc; exact H3.
Qed.

End Finalize.

(** ** The reference parser *)

Lemma takeTok_spec (s : str) :
  forallb isTok (takeTok s) = true /\
  firstn (length (takeTok s)) s = takeTok s /\
  match nth_error s (length (takeTok s)) with
  | Some c => isTok c = false
  | None => True
  end.
Proof.
  induction s as [|c s (IH1 & IH2 & IH3)]; simpl; [auto|].
  destruct (isTok c) eqn:E; simpl; [|auto].
  rewrite E, IH1, IH2; auto.
Qed.

Lemma matchAllAt_sound (s : str) (i skip : nat) (m : RegExpMatch) :
  In m (matchAllAt i skip s) ->
  i + skip <= index m /\
  isReference s {| index := index m - i; whole := whole m; group1 := group1 m |}.
Proof.
  revert i skip; induction s as [|c s IH]; intros i skip; simpl; [tauto|].
  assert (Hshift : forall k,
             In m (matchAllAt (S i) k s) ->
             S i + k <= index m /\
             isReference (c :: s)
               {| index := index m - i; whole := whole m; group1 := group1 m |}).
  { intros k Hin; destruct (IH _ _ Hin) as (Hle & H1 & H2 & H3 & H4 & H5).
    split; [exact Hle|]; unfold isReference in *; cbn [index whole group1] in *.
    replace (index m - i) with (S (index m - S i)) by lia.
    repeat split; auto. }
  destruct skip as [|k].
  - destruct (isAt c) eqn:Ec.
    + destruct (takeTok s) as [|t tok] eqn:Et.
      * intros Hin; destruct (Hshift 0 Hin); split; [lia|assumption].
      * intros [<-|Hin].
        -- cbn [index whole group1]; split; [lia|].
           destruct (takeTok_spec s) as (T1 & T2 & T3); rewrite Et in *.
           apply N.eqb_eq in Ec; subst c.
           unfold isReference; cbn [index whole group1].
           rewrite Nat.sub_diag; cbn [skipn].
           repeat split; [discriminate|exact T1| |exact T3].
           change (length (64%N :: t :: tok)) with (S (length (t :: tok))).
           cbn [firstn]; rewrite T2; reflexivity.
        -- destruct (Hshift _ Hin); split; [lia|assumption].
    + intros Hin; destruct (Hshift 0 Hin); split; [lia|assumption].
  - intros Hin; destruct (Hshift k Hin); split; [lia|assumption].
Qed.

Lemma matchAll_sound (s : str) (m : RegExpMatch) :
  In m (matchAll s) -> isReference s m.
Proof.
  intros Hin; destruct (@matchAllAt_sound s 0 0 m Hin) as [_ H].
  rewrite Nat.sub_0_r in H; destruct m; exact H.
Qed.

Lemma matchAllAt_complete (s : str) (i skip k : nat) :
  occursAt s k -> skip <= k -> matchAllAt i skip s <> [].
Proof.
  revert i skip k; induction s as [|c s IH]; intros i skip k (Hat & x & Hx & Htok) Hk.
  - destruct k; discriminate.
  - simpl; destruct skip as [|j].
    + destruct k as [|k].
      * simpl in Hat, Hx; injection Hat as ->.
        destruct s as [|y s]; [discriminate|]; injection Hx as ->.
        simpl; rewrite Htok; discriminate.
      * assert (Hocc : occursAt s k) by (split; [exact Hat|exists x; auto]).
        destruct (isAt c); [|apply (IH _ 0 k); auto; lia].
        destruct (takeTok s); [apply (IH _ 0 k); auto; lia|discriminate].
    + destruct k as [|k]; [lia|].
      apply (IH _ j k); [split; [exact Hat|exists x; auto]|lia].
Qed.

Lemma isReference_occurs (s : str) (m : RegExpMatch) :
  isReference s m -> occursAt s (index m).
Proof.
  intros (Hw & Hne & Htok & Htxt & _).
  destruct (group1 m) as [|t tok] eqn:Eg; [contradiction|].
  rewrite Hw in Htxt; cbn [length forallb] in Htxt, Htok.
  apply andb_true_iff in Htok as [Ht _].
  pose proof (nth_error_skipn (index m) s) as E.
  destruct (skipn (index m) s) as [|a [|b r]]; try discriminate.
  cbn [firstn] in Htxt; injection Htxt as -> -> _.
  split.
  - rewrite <- (Nat.add_0_r (index m)), <- E; reflexivity.
  - exists t; split; [|exact Ht].
    rewrite <- Nat.add_1_r, <- E; reflexivity.
Qed.

Lemma matchAll_nil_iff (s : str) :
  matchAll s = [] <-> forall k, ~ occursAt s k.
Proof.
  split.
  - intros E k Hocc.
    exact (@matchAllAt_complete s 0 0 k Hocc (Nat.le_0_l k) E).
  - intros H; destruct (matchAll s) as [|m ms] eqn:E; [reflexivity|].
    exfalso; apply (H (index m)), isReference_occurs, matchAll_sound.
    rewrite E; left; reflexivity.
Qed.

(** Matches are reported left to right. *)
Lemma matchAllAt_bounds (s : str) (i skip : nat) :
  Forall (fun m => i + skip <= index m) (matchAllAt i skip s).
Proof.
  apply Forall_forall; intros m Hin.
  apply (@matchAllAt_sound s i skip m Hin).
Qed.

Lemma matchAllAt_increasing (s : str) (i skip : nat) :
  StronglySorted (fun a b => index a < index b) (matchAllAt i skip s).
Proof.
  revert i skip; induction s as [|c s IH]; intros i skip; simpl; [constructor|].
  destruct skip as [|k]; [|apply IH].
  destruct (isAt c); [|apply IH].
  destruct (takeTok s) as [|t tok]; [apply IH|].
  constructor; [apply IH|].
  eapply Forall_impl; [|apply matchAllAt_bounds].
  cbn [index]; intros a Ha; lia.
Qed.

Lemma last_In (ms : list RegExpMatch) (d : RegExpMatch) :
  In (last ms d) (d :: ms).
Proof.
  induction ms as [|m1 ms IH]; [left; reflexivity|].
  destruct ms as [|m2 ms]; [right; left; reflexivity|].
  change (last (m1 :: m2 :: ms) d) with (last (m2 :: ms) d).
  destruct IH as [E|E]; [left; exact E|right; right; exact E].
Qed.

Lemma lastMatchOf_In (ms : list RegExpMatch) (m : RegExpMatch) :
  lastMatchOf ms = Some m -> In m ms.
Proof.
  destruct ms as [|m0 ms]; [discriminate|]; intros [= <-].
  apply last_In.
Qed.

Lemma last_cons_default (a d : RegExpMatch) (l : list RegExpMatch) :
  last (a :: l) d = last l a.
Proof.
  revert a d; induction l as [|b l IH]; intros a d; [reflexivity|].
  change (last (a :: b :: l) d) with (last (b :: l) d).
  rewrite !IH; reflexivity.
Qed.

Lemma sorted_last_rightmost (ms : list RegExpMatch) (d m' : RegExpMatch) :
  StronglySorted (fun a b => index a < index b) (d :: ms) ->
  In m' (d :: ms) -> index m' <= index (last ms d).
Proof.
  revert d m'; induction ms as [|m1 ms IH]; intros d m' Hs Hin.
  - destruct Hin as [<-|[]]; simpl; lia.
  - apply StronglySorted_inv in Hs as [Hs Hall].
    rewrite last_cons_default.
    destruct Hin as [<-|Hin]; [|apply IH; assumption].
    apply Forall_inv in Hall.
    specialize (IH m1 m1 Hs (or_introl eq_refl)); lia.
Qed.

Lemma lastMatchOf_rightmost (s : str) (m m' : RegExpMatch) :
  lastMatchOf (matchAll s) = Some m -> In m' (matchAll s) ->
  index m' <= index m.
Proof.
  unfold matchAll.
  pose proof (matchAllAt_increasing s 0 0) as Hs.
  destruct (matchAllAt 0 0 s) as [|m0 ms]; [discriminate|].
  intros [= <-] Hin; apply sorted_last_rightmost; assumption.
Qed.

Lemma findModel_spec (d : Doc) (n : nat) :
  match findModel d n with
  | Some (i, m) =>
      i <= n /\
      (forall j, i < j <= n -> matchAll (getLine d j) = []) /\
      lastMatchOf (matchAll (getLine d i)) = Some m
  | None => forall j, j <= n -> matchAll (getLine d j) = []
  end.
Proof.
  induction n as [|n IH]; simpl.
  - destruct (lastMatchOf (matchAll (getLine d 0))) as [m|] eqn:E.
    + pose proof (@matchAll_sound _ _ (@lastMatchOf_In _ _ E)) as (_ & Hne & _).
      destruct (group1 m); [contradiction|]; simpl.
      repeat split; auto; intros j Hj; lia.
    + intros j Hj; assert (j = 0) by lia; subst.
      destruct (matchAll (getLine d 0)); [reflexivity|discriminate].
  - destruct (lastMatchOf (matchAll (getLine d (S n)))) as [m|] eqn:E.
    + pose proof (@matchAll_sound _ _ (@lastMatchOf_In _ _ E)) as (_ & Hne & _).
      destruct (group1 m); [contradiction|]; simpl.
      repeat split; auto; intros j Hj; lia.
    + assert (E0 : matchAll (getLine d (S n)) = [])
        by (destruct (matchAll (getLine d (S n))); [reflexivity|discriminate]).
      destruct (findModel d n) as [[i m]|].
      * destruct IH as (Hi & Hgap & Hlast).
        repeat split; auto.
        intros j Hj; destruct (Nat.eq_dec j (S n)) as [->|]; [exact E0|].
        apply Hgap; lia.
      * intros j Hj; destruct (Nat.eq_dec j (S n)) as [->|]; [exact E0|].
        apply IH; lia.
Qed.

(** The scan is between matches whenever it reaches an [@]. *)
Lemma matchAllAt_app_at (pre rest : str) (i skip : nat) :
  skip <= length (takeTok (pre ++ atSign :: rest)) ->
  exists ms,
    matchAllAt i skip (pre ++ atSign :: rest)
    = ms ++ matchAllAt (i + length pre) 0 (atSign :: rest).
Proof.
  revert i skip; induction pre as [|c pre IH]; intros i skip Hs.
  - cbn [app] in *.
    assert (skip = 0) by (cbn in Hs; lia); subst skip.
    exists []; rewrite Nat.add_0_r; reflexivity.
  - cbn [app length] in *; rewrite Nat.add_succ_r.
    cbn [matchAllAt]; destruct skip as [|k].
    + destruct (isAt c).
      * destruct (takeTok (pre ++ atSign :: rest)) as [|t tok] eqn:E.
        -- apply (IH (S i) 0), Nat.le_0_l.
        -- destruct (IH (S i) (length (t :: tok)) (le_n _)) as [ms Hms].
           eexists (_ :: ms); rewrite Hms; reflexivity.
      * apply (IH (S i) 0); lia.
    + cbn [takeTok] in Hs; destruct (isTok c); cbn [length] in Hs; [|lia].
      apply (IH (S i) k); lia.
Qed.

(** Every occurrence of the pattern is collected, at its own offset. *)
Lemma matchAll_complete (s : str) (k : nat) :
  occursAt s k -> exists m, In m (matchAll s) /\ index m = k.
Proof.
  intros (Hat & c & Hc & Htok).
  destruct (nth_error_split s k Hat) as (pre & rest & -> & Hlen).
  rewrite nth_error_app2, Hlen in Hc by lia.
  replace (S k - k) with 1 in Hc by lia; cbn [nth_error] in Hc.
  destruct rest as [|c' rest]; [discriminate|]; injection Hc as ->.
  unfold matchAll.
  destruct (@matchAllAt_app_at pre (c :: rest) 0 0 (Nat.le_0_l _))
    as [ms Hms].
  unfold atSign in Hms; rewrite Hms; cbn [matchAllAt takeTok Nat.add].
  change (isAt 64%N) with true; cbn iota; rewrite Htok.
  eexists; split; [apply in_or_app; right; left; reflexivity|].
  cbn [index]; exact Hlen.
Qed.

(** C3, as stated, fails when the invocation point is the cursor: run from
    the command with the cursor at column 0 of [x @m hi], the parser selects
    [@m], which starts at column 2, to the right of the cursor, and the
    request is sent for that model. *)
Lemma reference_right_of_cursor :
  let cur := mkPos 0 0 in
  let at_m := {| index := 2; whole := lit "@m"; group1 := lit "m" |} in
  findModel cursorLine (line cur) = Some (0, at_m) /\
  ch cur < index at_m /\
  map req_model
    (requests (host (triggerCommand (sampleSettings (lit "k") Plain)
                       (hostOf cursorLine) cur)))
  = [lit "m"].
Proof. cbv zeta; split; [reflexivity|split; [simpl; lia|reflexivity]]. Qed.

(** C3 (amended): the parser scans the lines from the invocation line up to
    line 0 and stops at the first one that has an occurrence of the pattern,
    an [@] directly followed by a class character (word characters, [/], [.]
    and [-]).  On every line the matches collected are exactly the
    occurrences, each with the maximal run of class characters after its
    [@]; the match selected is the one of the rightmost occurrence of that
    nearest line, so no occurrence lies to its right and none lies on a line
    between it and the invocation line.  The selected token is never on a
    line below the invocation line (the whole invocation line is scanned,
    whatever the cursor column).  When no scanned line has an occurrence, the
    invocation shows the notice and returns with the host otherwise
    untouched. *)
Theorem reference_parser_nearest (cfg : GhostSettings) (h : Host)
    (lineNum : nat) (lineText : str) :
  (forall ln, matchAll ln = [] <-> forall k, ~ occursAt ln k) /\
  (forall ln k, occursAt ln k -> exists m', In m' (matchAll ln) /\ index m' = k) /\
  (forall ln m', In m' (matchAll ln) -> isReference ln m' /\ occursAt ln (index m')) /\
  match findModel (doc h) lineNum with
  | Some (i, m) =>
      i <= lineNum /\
      (forall j, i < j <= lineNum -> matchAll (getLine (doc h) j) = []) /\
      (forall j k, i < j <= lineNum -> ~ occursAt (getLine (doc h) j) k) /\
      lastMatchOf (matchAll (getLine (doc h) i)) = Some m /\
      isReference (getLine (doc h) i) m /\
      occursAt (getLine (doc h) i) (index m) /\
      (forall k, occursAt (getLine (doc h) i) k -> k <= index m) /\
      (forall m', In m' (matchAll (getLine (doc h) i)) -> index m' <= index m)
  | None =>
      (forall j, j <= lineNum -> matchAll (getLine (doc h) j) = []) /\
      (forall j k, j <= lineNum -> ~ occursAt (getLine (doc h) j) k) /\
      let s := processStreamingQuery cfg h lineNum lineText in
      doc (host s) = doc h /\ edits (host s) = edits h /\
      requests (host s) = requests h /\ cursor (host s) = cursor h /\
      notices (host s) = notices h ++ [noModelNotice] /\
      timerActive s = false /\ phase s = Returned
  end.
Proof.
  split; [exact matchAll_nil_iff|].
  split; [exact matchAll_complete|].
  split.
  { intros ln m' Hin; pose proof (@matchAll_sound _ _ Hin) as R.
    split; [exact R|exact (@isReference_occurs _ _ R)]. }
  pose proof (findModel_spec (doc h) lineNum) as H.
  unfold processStreamingQuery.
  destruct (findModel (doc h) lineNum) as [[i m]|].
  - destruct H as (Hi & Hgap & Hlast).
    pose proof (@matchAll_sound _ _ (@lastMatchOf_In _ _ Hlast)) as R.
    split; [exact Hi|]. split; [exact Hgap|].
    split; [intros j k Hj; exact (proj1 (matchAll_nil_iff _) (Hgap j Hj) k)|].
    split; [exact Hlast|]. split; [exact R|].
    split; [exact (@isReference_occurs _ _ R)|].
    split.
    + intros k Hk; destruct (@matchAll_complete _ _ Hk) as (m' & Hin & <-).
      exact (@lastMatchOf_rightmost _ m m' Hlast Hin).
    + intros m' Hm'; exact (@lastMatchOf_rightmost _ m m' Hlast Hm').
  - split; [exact H|].
    split; [intros j k Hj; exact (proj1 (matchAll_nil_iff _) (H j Hj) k)|].
    cbv zeta; proj; repeat split.
Qed.

(** ** The animator *)

Lemma startsWith_iff (s p : str) :
  startsWith s p = true <-> exists r, s = p ++ r.
Proof.
  revert s; induction p as [|y p IH]; intros s; simpl.
  - split; [exists s; reflexivity|destruct s; reflexivity].
  - destruct s as [|x s]; simpl.
    + split; [discriminate|intros [r Hr]; discriminate].
    + rewrite andb_true_iff, N.eqb_eq, IH; split.
      * intros [-> [r ->]]; exists r; reflexivity.
      * intros [r [= -> ->]]; split; [reflexivity|exists r; reflexivity].
Qed.

Lemma looksLikeSpinner_iff (style : ResponseStyle) (lineContent : str) :
  looksLikeSpinner style lineContent = true <->
  exists f r,
    In f spinnerFrames /\
    (if isCallout style then sliceFrom 2 lineContent else lineContent) = f ++ r.
Proof.
  unfold looksLikeSpinner; rewrite existsb_exists; split.
  - intros (f & Hin & Hs); apply startsWith_iff in Hs as [r Hr]; eauto.
  - intros (f & r & Hin & E); exists f; split; [exact Hin|].
    apply startsWith_iff; eauto.
Qed.

Lemma overwrite_line (d : Doc) (g : nat) (text : str) :
  g < lineCount d -> countNL text = 0 ->
  getLine (replaceRange text (mkPos g 0) (mkPos g (length (getLine d g))) d) g
  = text.
Proof.
  intros Hg Ht; rewrite lineCount_countNL in Hg.
  destruct (@doc_cut d g ltac:(lia)) as (a & b & Hd & Ha & Hs & Hn & Hb).
  remember (getLine d g) as ln.
  rewrite Hd, <- Ha, replaceRange_line by (auto; lia).
  rewrite skipn_all; cbn [firstn app].
  rewrite getLine_app_at, Hs; apply getLine_first; assumption.
Qed.

(** The handle is only forgotten when the timer is stopped. *)
Lemma onContent_handle (cfg : GhostSettings) (c : str) (s : Invocation) :
  HasHandle s -> HasHandle (onContent cfg c s).
Proof.
  unfold HasHandle, onContent; intros H.
  destruct (isFirstChunk s); proj; [|exact H].
  destruct (generationLine s <? lineCount (doc (host s))); proj;
    destruct (loadingInterval s); auto.
Qed.

Lemma processLine_handle (JSON_parse : str -> option OpenRouterResponse)
    (cfg : GhostSettings) (ln : str) (s : Invocation) :
  HasHandle s -> HasHandle (processLine JSON_parse cfg ln s).
Proof.
  intros H; unfold processLine.
  destruct (isEmpty (trim ln)); [exact H|].
  destruct (str_eqb (trim ln) keepAlive); [exact H|].
  destruct (startsWith (trim ln) dataPrefix).
  - destruct (str_eqb (sliceFrom 6 (trim ln)) doneSentinel); [exact H|].
    destruct (JSON_parse (sliceFrom 6 (trim ln))) as [parsed|]; [|exact H].
    destruct (firstDelta parsed) as [d|]; [|exact H].
    destruct (annotations d);
      (destruct (isEmpty _); [exact H|apply onContent_handle; exact H]).
  - destruct (startsWith (trim ln) errorPrefix); exact H.
Qed.

Lemma step_handle (JSON_parse : str -> option OpenRouterResponse)
    (cfg : GhostSettings) (s : Invocation) (e : Event) :
  HasHandle s -> HasHandle (step JSON_parse cfg s e).
Proof.
  intros H.
  assert (Hclear : HasHandle (clearTimer s))
    by (unfold HasHandle in *; proj; destruct (loadingInterval s); auto).
  destruct e; unfold step.
  - destruct (timerActive s) eqn:Ht; [|exact H].
    unfold tick; proj.
    destruct (_ <? _); [destruct (looksLikeSpinner _ _)|]; proj;
      unfold HasHandle in *; proj; intros _; apply H, Ht.
  - destruct (phase s); try exact H; exact Hclear.
  - destruct (phase s); try exact H; exact Hclear.
  - destruct (phase s); exact H.
  - destruct (phase s); try exact H.
    unfold onChunk.
    set (s1 := with_buffer _ s).
    assert (H1 : HasHandle s1) by exact H.
    clearbody s1; clear H Hclear.
    revert s1 H1; induction (removelast _) as [|ln lns IH]; intros s1 H1;
      [exact H1|].
    apply IH, processLine_handle, H1.
  - destruct (phase s); try exact H.
    unfold HasHandle.
    destruct (onDone_keeps cfg s) as ((_ & _ & K3 & K4 & _) & _).
    rewrite K3, K4; exact H.
  - destruct (phase s); try exact H; exact Hclear.
Qed.

Lemma run_handle (JSON_parse : str -> option OpenRouterResponse)
    (cfg : GhostSettings) (h : Host) (lineNum : nat) (lineText : str)
    (es : list Event) :
  HasHandle (run JSON_parse cfg (processStreamingQuery cfg h lineNum lineText) es).
Proof.
  assert (H0 : HasHandle (processStreamingQuery cfg h lineNum lineText)).
  { unfold processStreamingQuery.
    destruct (findModel (doc h) lineNum) as [[i m]|]; [|discriminate].
    destruct (isEmpty (apiKey cfg)); [discriminate|intros _; reflexivity]. }
  revert H0; generalize (processStreamingQuery cfg h lineNum lineText).
  induction es as [|e es IH]; intros s H; [exact H|].
  apply (IH (step JSON_parse cfg s e)), step_handle, H.
Qed.

Lemma onContent_quiet (cfg : GhostSettings) (c : str) (s : Invocation) :
  HasHandle s -> Quiet s -> Quiet (onContent cfg c s).
Proof.
  unfold HasHandle, Quiet, onContent; intros Hh Hq.
  destruct (isFirstChunk s) eqn:Hf; proj; [|intros _; exact (Hq eq_refl)].
  destruct (generationLine s <? lineCount (doc (host s))); proj; intros _;
    (destruct (loadingInterval s); [reflexivity|]);
    (destruct (timerActive s); [discriminate (Hh eq_refl)|reflexivity]).
Qed.

Lemma processLine_quiet (JSON_parse : str -> option OpenRouterResponse)
    (cfg : GhostSettings) (ln : str) (s : Invocation) :
  HasHandle s -> Quiet s -> Quiet (processLine JSON_parse cfg ln s).
Proof.
  intros Hh H; unfold processLine.
  destruct (isEmpty (trim ln)); [exact H|].
  destruct (str_eqb (trim ln) keepAlive); [exact H|].
  destruct (startsWith (trim ln) dataPrefix).
  - destruct (str_eqb (sliceFrom 6 (trim ln)) doneSentinel); [exact H|].
    destruct (JSON_parse (sliceFrom 6 (trim ln))) as [parsed|]; [|exact H].
    destruct (firstDelta parsed) as [d|]; [|exact H].
    destruct (annotations d);
      (destruct (isEmpty _);
       [exact H|apply onContent_quiet; [exact Hh|exact H]]).
  - destruct (startsWith (trim ln) errorPrefix); exact H.
Qed.

Lemma step_quiet (JSON_parse : str -> option OpenRouterResponse)
    (cfg : GhostSettings) (s : Invocation) (e : Event) :
  HasHandle s -> Quiet s -> Quiet (step JSON_parse cfg s e).
Proof.
  intros Hh H.
  assert (Hclear : forall p msg,
             Quiet (with_phase p (notify msg (clearTimer s)))).
  { intros p msg; unfold Quiet in *; proj; intros Hf.
    rewrite (H Hf); destruct (loadingInterval s); reflexivity. }
  assert (Hempty : Quiet (with_phase Returned (clearTimer s))).
  { unfold Quiet in *; proj; intros Hf.
    rewrite (H Hf); destruct (loadingInterval s); reflexivity. }
  destruct e; unfold step.
  - destruct (timerActive s) eqn:Ht; [|exact H].
    unfold Quiet in *; intros Hf.
    assert (Hf' : isFirstChunk s = false).
    { revert Hf; unfold tick; proj.
      destruct (_ <? _); [destruct (looksLikeSpinner _ _)|]; proj;
        exact (fun E => E). }
    rewrite (H Hf') in Ht; discriminate.
  - destruct (phase s); try exact H; apply Hclear.
  - destruct (phase s); try exact H; exact Hempty.
  - destruct (phase s); exact H.
  - destruct (phase s); try exact H.
    unfold onChunk.
    set (s1 := with_buffer _ s).
    assert (H1 : HasHandle s1 /\ Quiet s1) by (split; [exact Hh|exact H]).
    clearbody s1; clear Hh H Hclear Hempty.
    revert s1 H1; induction (removelast _) as [|ln lns IH]; intros s1 [A B];
      [exact B|].
    apply IH; split; [apply processLine_handle, A|].
    apply processLine_quiet; assumption.
  - destruct (phase s); try exact H.
    unfold Quiet.
    destruct (onDone_keeps cfg s) as ((_ & _ & K3 & _ & K5) & _).
    rewrite K3, K5; exact H.
  - destruct (phase s); try exact H; apply Hclear.
Qed.

(** Streamed content and a running timer never coexist. *)
Lemma run_quiet (JSON_parse : str -> option OpenRouterResponse)
    (cfg : GhostSettings) (h : Host) (lineNum : nat) (lineText : str)
    (es : list Event) :
  Quiet (run JSON_parse cfg (processStreamingQuery cfg h lineNum lineText) es).
Proof.
  assert (H0 : HasHandle (processStreamingQuery cfg h lineNum lineText) /\
               Quiet (processStreamingQuery cfg h lineNum lineText)).
  { split; [exact (run_handle JSON_parse cfg h lineNum lineText [])|].
    unfold processStreamingQuery, Quiet.
    destruct (findModel (doc h) lineNum) as [[i m]|]; [|discriminate].
    destruct (isEmpty (apiKey cfg)); discriminate. }
  revert H0; generalize (processStreamingQuery cfg h lineNum lineText).
  induction es as [|e es IH]; intros s [A B]; [exact B|].
  apply (IH (step JSON_parse cfg s e)); split;
    [apply step_handle, A|apply step_quiet; assumption].
Qed.

(** C4, as stated, fails for a line the user edited: the guard looks at one
    character only.  While the response is awaited the user replaces the
    text behind the glyph of the placeholder line by words of their own; the
    line is then no placeholder, and the next tick replaces the whole line,
    words included, by the next frame.  Under callout style the same happens
    to a line that is not even quoted, as long as its third character is a
    glyph. *)
Lemma animator_overwrites_edited_line :
  let cfg := sampleSettings (lit "k") Plain in
  let s := editedWhileWaiting in
  let s' := step sampleParse cfg s Tick in
  let cfgC := sampleSettings (lit "k") Callout in
  let c := editedCallout in
  let c' := step sampleParse cfgC c Tick in
  getLine (doc (host s)) (generationLine s) = [10251%N] ++ ownWords /\
  (forall style k, getLine (doc (host s)) (generationLine s)
                   <> spinnerLine style k) /\
  getLine (doc (host s')) (generationLine s) = [10265%N] ++ generating /\
  lineCount (doc (host s')) = lineCount (doc (host s)) /\
  edits (host s')
  = edits (host s)
      ++ [{| edit_text := [10265%N] ++ generating; edit_from := mkPos 3 0;
             edit_to := mkPos 3 (length ([10251%N] ++ ownWords)) |}] /\
  getLine (doc (host c)) (generationLine c)
  = lit "no" ++ [10251%N] ++ ownWords /\
  getLine (doc (host c')) (generationLine c)
  = lit "> " ++ [10265%N] ++ generating.
Proof.
  cbv zeta.
  split; [vm_compute; reflexivity|].
  split.
  { intros style k E.
    assert (L : nth_error (getLine (doc (host editedWhileWaiting))
                             (generationLine editedWhileWaiting)) 2
                = Some 109%N) by (vm_compute; reflexivity).
    rewrite E in L; clear E.
    destruct style;
      do 10 (destruct k as [|k]; [vm_compute in L; discriminate L|]);
      destruct k; vm_compute in L; discriminate L. }
  repeat split; vm_compute; reflexivity.
Qed.

(** C4 (amended): a tick advances the frame index to the next of the ten,
    and then, when the generation line exists, overwrites that whole line
    with the next frame (under callout style behind ["> "]: the glyph of the
    new index and [" Generating..."]) if and only if the line's content
    (from column 2 on under callout style) begins with one of the ten
    glyphs, whatever follows the glyph; the frame written passes the test
    again.  Otherwise it leaves the host untouched, so a line that no longer
    begins with a glyph is never overwritten, while a line the user edited
    behind the glyph is.  When the generation line does not exist the tick
    changes nothing and cancels the timer, whose handle the invocation holds
    for as long as it is scheduled.  Streamed content is never overwritten,
    because the first content delta cancels the timer: in every run, once
    content has been written, the timer is off and a tick does nothing. *)
Theorem animator_guard (JSON_parse : str -> option OpenRouterResponse)
    (cfg : GhostSettings) (s : Invocation) :
  let style := responseStyle cfg in
  let g := generationLine s in
  let d := doc (host s) in
  let next := (currentFrameIndex s + 1) mod 10 in
  let frame := spinnerPrefix style ++ getSpinnerText next in
  let s' := tick cfg s in
  (forall lineContent,
     looksLikeSpinner style lineContent = true <->
     exists f r,
       In f spinnerFrames /\
       (if isCallout style then sliceFrom 2 lineContent else lineContent)
       = f ++ r) /\
  spinnerFrames = map (fun c => [c]) glyphs /\
  (forall k, getSpinnerText k = nth k spinnerFrames [] ++ generating) /\
  frame
  = (if isCallout style then lit "> " else [])
      ++ [nth next glyphs 0%N] ++ lit " Generating..." /\
  looksLikeSpinner style frame = true /\
  currentFrameIndex s' = next /\ next < 10 /\
  (g < lineCount d -> looksLikeSpinner style (getLine d g) = true ->
     edits (host s') =
       edits (host s) ++
       [{| edit_text := frame; edit_from := mkPos g 0;
           edit_to := mkPos g (length (getLine d g)) |}] /\
     getLine (doc (host s')) g = frame /\
     timerActive s' = timerActive s) /\
  (forall c r, g < lineCount d -> In c glyphs ->
     getLine d g = (if isCallout style then firstn 2 (getLine d g) else [])
                     ++ [c] ++ r ->
     2 <= length (getLine d g) \/ isCallout style = false ->
     getLine (doc (host s')) g = frame) /\
  (g < lineCount d -> looksLikeSpinner style (getLine d g) = false ->
     host s' = host s /\ timerActive s' = timerActive s) /\
  (lineCount d <= g ->
     host s' = host s /\ (loadingInterval s = true -> timerActive s' = false)) /\
  (timerActive s = false -> step JSON_parse cfg s Tick = s) /\
  (forall c, isFirstChunk s = true -> loadingInterval s = true ->
     timerActive (onContent cfg c s) = false) /\
  (forall h lineNum lineText es,
     let r := run JSON_parse cfg
                (processStreamingQuery cfg h lineNum lineText) es in
     (timerActive r = true -> loadingInterval r = true) /\
     (isFirstChunk r = false ->
        timerActive r = false /\ step JSON_parse cfg r Tick = r)).
Proof.
  cbv zeta.
  assert (Hn : (currentFrameIndex s + 1) mod 10 < 10)
    by (apply Nat.mod_upper_bound; discriminate).
  assert (Hover : generationLine s < lineCount (doc (host s)) ->
            looksLikeSpinner (responseStyle cfg)
              (getLine (doc (host s)) (generationLine s)) = true ->
            edits (host (tick cfg s)) =
              edits (host s) ++
              [{| edit_text :=
                    spinnerPrefix (responseStyle cfg)
                      ++ getSpinnerText ((currentFrameIndex s + 1) mod 10);
                  edit_from := mkPos (generationLine s) 0;
                  edit_to :=
                    mkPos (generationLine s)
                      (length (getLine (doc (host s)) (generationLine s))) |}] /\
            getLine (doc (host (tick cfg s))) (generationLine s)
            = spinnerPrefix (responseStyle cfg)
                ++ getSpinnerText ((currentFrameIndex s + 1) mod 10) /\
            timerActive (tick cfg s) = timerActive s).
  { unfold tick; proj.
    intros Hg Hl; pose proof Hg as Hg'; apply Nat.ltb_lt in Hg'.
    rewrite Hg', Hl; proj; repeat split.
    apply overwrite_line; [assumption|].
    apply getSpinnerText_noNL, Hn. }
  split; [apply looksLikeSpinner_iff|].
  split; [reflexivity|]. split; [reflexivity|].
  split.
  { destruct (responseStyle cfg); cbn [spinnerPrefix isCallout app];
      set (k := (currentFrameIndex s + 1) mod 10) in *; clearbody k;
      do 10 (destruct k as [|k]; [reflexivity|]); lia. }
  split; [apply spinnerLine_looks, Hn|].
  split.
  { unfold tick; proj.
    destruct (_ <? _); [destruct (looksLikeSpinner _ _)|]; reflexivity. }
  split; [exact Hn|].
  split; [exact Hover|].
  split.
  { intros c r Hg Hc Hline Hlen.
    refine (proj1 (proj2 (Hover Hg _))).
    apply looksLikeSpinner_iff; exists [c], r.
    split; [exact (in_map (fun x => [x]) glyphs c Hc)|].
    destruct (isCallout (responseStyle cfg)) eqn:Ec.
    - destruct Hlen as [Hlen|Hlen]; [|discriminate].
      unfold sliceFrom.
      pose proof (f_equal (skipn 2) Hline) as E.
      rewrite skipn_app, length_firstn, Nat.min_l in E by exact Hlen.
      rewrite (skipn_all2 (firstn 2 _)) in E
        by (rewrite length_firstn; lia).
      rewrite Nat.sub_diag in E; exact E.
    - exact Hline. }
  unfold tick; proj.
  split; [|split; [|split; [|split]]].
  - intros Hg Hl; apply Nat.ltb_lt in Hg; rewrite Hg, Hl; proj; auto.
  - intros Hg; apply Nat.ltb_ge in Hg; rewrite Hg; proj.
    split; [reflexivity|intros ->; reflexivity].
  - intros Ht; simpl; rewrite Ht; reflexivity.
  - intros c Hf Hh; unfold onContent; rewrite Hf; proj.
    destruct (generationLine s <? lineCount (doc (host s))); proj;
      rewrite Hh; reflexivity.
  - intros h lineNum lineText es.
    split; [apply run_handle|].
    intros Hf.
    pose proof (@run_quiet JSON_parse cfg h lineNum lineText es Hf) as Hq.
    split; [exact Hq|].
    unfold step; rewrite Hq; reflexivity.
Qed.

(** ** Styles *)

Lemma quoteNewlines_quoted (c : str) : everyNewlineQuoted (quoteNewlines c).
Proof.
  induction c as [|x c IH]; intros i Hi.
  - destruct i; discriminate.
  - simpl in *; destruct (isNL x) eqn:Ex.
    + destruct i as [|[|[|i]]]; try discriminate; [reflexivity|].
      exact (IH i Hi).
    + destruct i as [|i]; [|exact (IH i Hi)].
      injection Hi as ->; discriminate.
Qed.

Lemma marker_quoted (t : str) :
  everyNewlineQuoted t -> everyNewlineQuoted (marker ++ t).
Proof.
  intros H i Hi; destruct i as [|[|i]]; try discriminate.
  exact (H i Hi).
Qed.

(** The source's replacement is the specification's insertion. *)
Lemma quoteNewlines_spec (c : str) :
  quoteNewlines c = afterEveryNewline marker c.
Proof.
  induction c as [|x c IH]; [reflexivity|].
  cbn [quoteNewlines afterEveryNewline flat_map].
  fold (afterEveryNewline marker c); rewrite IH.
  destruct (isNL x) eqn:E; [|reflexivity].
  apply N.eqb_eq in E; subst x; reflexivity.
Qed.

Lemma quoteNewlines_lines (c : str) :
  split (quoteNewlines c) = quotedLines (split c).
Proof.
  induction c as [|x c IH]; [reflexivity|].
  cbn [quoteNewlines]; rewrite (split_cons x c).
  destruct (isNL x) eqn:E.
  - rewrite (split_cons NL), (split_cons 62%N), (split_cons 32%N), IH.
    cbn [isNL N.eqb Pos.eqb NL].
    destruct (split c) as [|l ls] eqn:Es;
      [exfalso; exact (@split_nonempty _ Es)|].
    reflexivity.
  - rewrite (split_cons x), E, IH.
    destruct (split c) as [|l ls] eqn:Es;
      [exfalso; exact (@split_nonempty _ Es)|].
    reflexivity.
Qed.

Lemma quoteNewlines_length (c : str) :
  length (quoteNewlines c) = length c + 2 * countNL c /\
  countNL (quoteNewlines c) = countNL c.
Proof.
  induction c as [|x c [IH1 IH2]]; [split; reflexivity|].
  cbn [quoteNewlines countNL]; destruct (isNL x) eqn:E;
    cbn [length countNL isNL N.eqb Pos.eqb NL]; rewrite ?E, IH1, IH2;
    split; lia.
Qed.

(** C7: each content delta issues exactly one [replaceRange], whose text is
    the styled delta, behind a separator of newlines only when the first
    delta has to fall back to the end of the document.  Under plain and
    horizontal-rule style the styled delta is the delta itself, character
    for character.  Under callout style it is the delta with ["> "] put
    after every newline and nothing else changed (the lines of the delta,
    each but the first behind a marker; two characters longer per newline),
    and the first delta is prefixed with one more marker. *)
Theorem style_transformation (cfg : GhostSettings) (content : str)
    (s : Invocation) :
  let style := responseStyle cfg in
  let s' := onContent cfg content s in
  let fresh := isFirstChunk s in
  let present := generationLine s <? lineCount (doc (host s)) in
  let separator :=
    if fresh && negb present
    then if isCallout style then [NL; NL; NL] else [NL; NL]
    else [] in
  let styled :=
    if isCallout style
    then (if fresh then lit "> " else []) ++ afterEveryNewline (lit "> ") content
    else content in
  exists e,
    edits (host s') = edits (host s) ++ [e] /\
    edit_text e = separator ++ styled /\
    (isCallout style = false ->
       edit_text e
       = (if fresh && negb present then [NL; NL] else []) ++ content) /\
    (isCallout style = true ->
       edit_text e
       = (if fresh then if present then marker else [NL; NL; NL] ++ marker
          else []) ++ quoteNewlines content /\
       everyNewlineQuoted (quoteNewlines content) /\
       everyNewlineQuoted (marker ++ quoteNewlines content)) /\
    displayOf style content
    = (if isCallout style then afterEveryNewline (lit "> ") content
       else content) /\
    lines (afterEveryNewline (lit "> ") content)
    = quotedLines (lines content) /\
    length (afterEveryNewline (lit "> ") content)
    = length content + 2 * countNL content /\
    countNL (afterEveryNewline (lit "> ") content) = countNL content /\
    everyNewlineQuoted (afterEveryNewline (lit "> ") content).
Proof.
  cbv zeta.
  pose proof (quoteNewlines_quoted content) as Q.
  pose proof (@marker_quoted _ Q) as Q'.
  pose proof (quoteNewlines_spec content) as S.
  pose proof (quoteNewlines_lines content) as L.
  pose proof (quoteNewlines_length content) as [Ln Cn].
  change (lit "> ") with marker.
  rewrite <- S; unfold lines.
  assert (E : exists e,
            edits (host (onContent cfg content s)) = edits (host s) ++ [e] /\
            edit_text e
            = (if isFirstChunk s
                  && negb (generationLine s <? lineCount (doc (host s)))
               then if isCallout (responseStyle cfg) then [NL; NL; NL]
                    else [NL; NL]
               else [])
                ++ (if isCallout (responseStyle cfg)
                    then (if isFirstChunk s then marker else [])
                           ++ quoteNewlines content
                    else content)).
  { unfold onContent, firstDisplayOf, fallbackOf, displayOf.
    destruct (isFirstChunk s); proj;
      [destruct (generationLine s <? lineCount (doc (host s))); proj|];
      eexists; (split; [reflexivity|]); cbn [edit_text];
      destruct (isCallout (responseStyle cfg)); reflexivity. }
  destruct E as (e & He & Ht); exists e.
  split; [exact He|]. split; [exact Ht|].
  split.
  { intros Hc; rewrite Ht, Hc; reflexivity. }
  split.
  { intros Hc; rewrite Ht, Hc.
    split; [|split; assumption].
    destruct (isFirstChunk s); [|reflexivity].
    destruct (generationLine s <? lineCount (doc (host s))); reflexivity. }
  split; [reflexivity|].
  split; [exact L|]. split; [exact Ln|]. split; [exact Cn|exact Q].
Qed.

(** ** Citations *)

Lemma extends_refl (s : Invocation) : Extends s s.
Proof. exists []; rewrite app_nil_r; reflexivity. Qed.

Lemma extends_trans (s1 s2 s3 : Invocation) :
  Extends s1 s2 -> Extends s2 s3 -> Extends s1 s3.
Proof.
  intros [r1 H1] [r2 H2]; exists (r1 ++ r2).
  rewrite H2, H1, app_assoc; reflexivity.
Qed.

Lemma extends_insert (t : str) (p : EditorPosition) (s : Invocation) :
  Extends s (with_pos p (edit t (currentInsertPos s) (currentInsertPos s) s)).
Proof. eexists; proj; reflexivity. Qed.

Lemma extends_cursor (s s' : Invocation) :
  Extends s s' ->
  Extends s (with_host (do_setCursor (currentInsertPos s') (host s')) s').
Proof. exact (fun H => H). Qed.

Lemma mapHas_In (k : str) (m : list (str * str)) :
  mapHas k m = true <-> In k (keysOf m).
Proof.
  unfold mapHas; rewrite existsb_exists; split.
  - intros (x & Hx & E); apply str_eqb_eq in E; subst; exact Hx.
  - intros H; exists k; split; [exact H|apply str_eqb_refl].
Qed.

Lemma mapSet_keys (k v : str) (m : list (str * str)) :
  keysOf (mapSet k v m)
  = keysOf m ++ (if mapHas k m then [] else [k]).
Proof.
  unfold mapHas, keysOf; induction m as [|[k' v'] m IH]; [reflexivity|].
  cbn [mapSet map fst existsb].
  destruct (str_eqb k' k) eqn:E; cbn [orb map fst].
  - rewrite app_nil_r; reflexivity.
  - rewrite IH; reflexivity.
Qed.

Lemma mapSet_In (k v : str) (m : list (str * str)) :
  In (k, v) (mapSet k v m).
Proof.
  induction m as [|[k' v'] m IH]; [left; reflexivity|].
  cbn [mapSet]; destruct (str_eqb k' k) eqn:E.
  - apply str_eqb_eq in E; subst; left; reflexivity.
  - right; exact IH.
Qed.

Lemma mapSet_other (k v k' v' : str) (m : list (str * str)) :
  k' <> k -> (In (k', v') (mapSet k v m) <-> In (k', v') m).
Proof.
  intros Hne; induction m as [|[k0 v0] m IH].
  - cbn [mapSet In]; split; [intros [[= ? ?]|[]]; congruence|tauto].
  - cbn [mapSet]; destruct (str_eqb k0 k) eqn:E.
    + apply str_eqb_eq in E; subst k0; cbn [In].
      split; (intros [[= ? ?]|H]; [congruence|right; exact H]).
    + cbn [In]; rewrite IH; tauto.
Qed.

Lemma mapSet_length (k v : str) (m : list (str * str)) :
  length (mapSet k v m) <= S (length m).
Proof.
  induction m as [|[k' v'] m IH]; [simpl; lia|].
  cbn [mapSet]; destruct (str_eqb k' k); simpl in *; lia.
Qed.

Lemma uniqueSourcesOf_snoc (l : list OpenRouterAnnotation)
    (a : OpenRouterAnnotation) :
  uniqueSourcesOf (l ++ [a])
  = match url_citation a with
    | Some c => mapSet (url c) (shownTitle (title c) (url c)) (uniqueSourcesOf l)
    | None => uniqueSourcesOf l
    end.
Proof. unfold uniqueSourcesOf; rewrite fold_left_app; reflexivity. Qed.

(** The sources map of any annotations: one entry per cited URL. *)
Lemma uniqueSources_map (collected : list OpenRouterAnnotation) :
  NoDup (keysOf (uniqueSourcesOf collected)) /\
  length (uniqueSourcesOf collected) <= length collected /\
  (forall k,
     In k (keysOf (uniqueSourcesOf collected))
     <-> exists a c, In a collected /\ cites a c /\ url c = k).
Proof.
  split; [|split].
  - induction collected as [|a l IH] using rev_ind; [constructor|].
    rewrite uniqueSourcesOf_snoc.
    destruct (url_citation a) as [c|]; [|exact IH].
    rewrite mapSet_keys.
    destruct (mapHas (url c) (uniqueSourcesOf l)) eqn:E;
      [rewrite app_nil_r; exact IH|].
    apply NoDup_app; [exact IH|repeat constructor; intros []|].
    intros k Hk [<-|[]].
    apply mapHas_In in Hk; congruence.
  - induction collected as [|a l IH] using rev_ind; [simpl; lia|].
    rewrite uniqueSourcesOf_snoc, length_app; cbn [length].
    destruct (url_citation a) as [c|]; [|lia].
    pose proof (mapSet_length (url c) (shownTitle (title c) (url c))
                  (uniqueSourcesOf l)); lia.
  - induction collected as [|a l IH] using rev_ind; intros k.
    + split; [intros []|intros (a & c & [] & _)].
    + rewrite uniqueSourcesOf_snoc.
      assert (Hold : (exists a0 c, In a0 l /\ cites a0 c /\ url c = k) ->
                     exists a0 c, In a0 (l ++ [a]) /\ cites a0 c /\ url c = k).
      { intros (a0 & c0 & H0 & H1); exists a0, c0; split; [|exact H1].
        apply in_or_app; left; exact H0. }
      destruct (url_citation a) as [c|] eqn:Ea.
      * rewrite mapSet_keys, in_app_iff, IH; split.
        -- intros [H|H]; [exact (Hold H)|].
           destruct (mapHas (url c) (uniqueSourcesOf l)); [destruct H|].
           destruct H as [<-|[]].
           exists a, c; split; [apply in_or_app; right; left; reflexivity|].
           split; [exact Ea|reflexivity].
        -- intros (a0 & c0 & H0 & H1 & H2).
           apply in_app_or in H0 as [H0|[<-|[]]];
             [left; exists a0, c0; auto|].
           unfold cites in H1; rewrite Ea in H1; injection H1 as <-.
           destruct (mapHas (url c) (uniqueSourcesOf l)) eqn:E.
           ++ left; apply IH, mapHas_In; rewrite <- H2; exact E.
           ++ right; left; exact H2.
      * rewrite IH; split; [exact Hold|].
        intros (a0 & c0 & H0 & H1 & H2).
        apply in_app_or in H0 as [H0|[<-|[]]]; [exists a0, c0; auto|].
        unfold cites in H1; congruence.
Qed.

Lemma split_line (x rest : str) :
  countNL x = 0 -> split (x ++ NL :: rest) = x :: split rest.
Proof.
  induction x as [|c x IH]; [reflexivity|].
  cbn [countNL app]; rewrite (split_cons c).
  destruct (isNL c); [discriminate|].
  intros H; rewrite (IH H); reflexivity.
Qed.

(** The rendered sources, line by line. *)
Lemma sourcesText_lines (style : ResponseStyle) (u : list (str * str)) :
  Forall oneLine u -> lines (sourcesTextOf style u) = renderedLines style u.
Proof.
  intros Hu; unfold lines, sourcesTextOf, renderedLines.
  rewrite sourcesText_concat.
  assert (P : split (sourcesHeader ++ concat (map sourceEntry u))
              = [] :: [] :: lit "**Sources:**" :: map entryLine u ++ [[]]).
  { replace (sourcesHeader ++ concat (map sourceEntry u))
      with (NL :: NL :: lit "**Sources:**"
              ++ NL :: concat (map sourceEntry u))
      by (unfold sourcesHeader; rewrite <- !app_assoc; reflexivity).
    rewrite (split_cons NL), (split_cons NL).
    change (isNL NL) with true; cbn iota.
    rewrite split_line by reflexivity.
    do 3 f_equal.
    induction Hu as [|e u [H1 H2] Hu IH]; [reflexivity|].
    cbn [map concat app].
    replace (sourceEntry e ++ concat (map sourceEntry u))
      with (entryLine e ++ NL :: concat (map sourceEntry u))
      by (unfold sourceEntry, entryLine; rewrite <- !app_assoc; reflexivity).
    rewrite split_line, IH; [reflexivity|].
    unfold entryLine; rewrite !countNL_app, H1, H2; reflexivity. }
  destruct (isCallout style); [|exact P].
  rewrite quoteNewlines_lines, P; reflexivity.
Qed.

(** C8: the citations are keyed by URL before they are rendered, whatever
    they are: no URL is listed twice and exactly the cited URLs are listed.
    Annotations for the URLs [A, A, B] collapse to one entry per URL, in
    first-seen order, the later title of [A] replacing the earlier one.  The
    rendered text is the header and exactly those two items, spelled out
    here under every style: as it stands under plain and horizontal-rule
    style, with ["> "] after every newline under callout style; with URLs
    and titles of one line it has six lines, two of them items.  It is the
    text the completion inserts at the tracked position. *)
Theorem citations_deduplicated (cfg : GhostSettings) (s : Invocation)
    (A B t1 t2 t3 : str) :
  A <> B ->
  collectedAnnotations s = [cite A t1; cite A t2; cite B t3] ->
  let style := responseStyle cfg in
  let TA := shownTitle t2 A in
  let TB := shownTitle t3 B in
  let unique := [(A, TA); (B, TB)] in
  let itemA := lit "- [" ++ TA ++ lit "](" ++ A ++ lit ")" in
  let itemB := lit "- [" ++ TB ++ lit "](" ++ B ++ lit ")" in
  let plainText :=
    [NL; NL] ++ lit "**Sources:**" ++ [NL] ++ itemA ++ [NL] ++ itemB ++ [NL] in
  (forall collected,
     NoDup (keysOf (uniqueSourcesOf collected)) /\
     length (uniqueSourcesOf collected) <= length collected /\
     forall k,
       In k (keysOf (uniqueSourcesOf collected))
       <-> exists a c, In a collected /\ cites a c /\ url c = k) /\
  uniqueSourcesOf (collectedAnnotations s) = unique /\
  length (uniqueSourcesOf (collectedAnnotations s)) = 2 /\
  sourcesTextOf style unique
  = displayOf style
      (sourcesHeader ++ sourceEntry (A, shownTitle t2 A)
         ++ sourceEntry (B, shownTitle t3 B)) /\
  sourcesTextOf style unique
  = (if isCallout style then afterEveryNewline (lit "> ") plainText
     else plainText) /\
  (countNL A = 0 -> countNL B = 0 -> countNL TA = 0 -> countNL TB = 0 ->
     lines (sourcesTextOf style unique)
     = if isCallout style
       then [[]; lit "> "; lit "> **Sources:**"; lit "> " ++ itemA;
             lit "> " ++ itemB; lit "> "]
       else [[]; []; lit "**Sources:**"; itemA; itemB; []]) /\
  exists rest,
    edits (host (onDone cfg s))
    = edits (host s)
        ++ {| edit_text := sourcesTextOf style unique;
              edit_from := currentInsertPos s;
              edit_to := currentInsertPos s |} :: rest.
Proof.
  intros Hne Hc; cbv zeta.
  split; [exact uniqueSources_map|].
  assert (U : uniqueSourcesOf (collectedAnnotations s)
              = [(A, shownTitle t2 A); (B, shownTitle t3 B)]).
  { rewrite Hc; unfold uniqueSourcesOf, cite, shownTitle; simpl.
    rewrite str_eqb_refl; simpl.
    rewrite (@str_eqb_neq A B Hne); reflexivity. }
  split; [exact U|]. split; [rewrite U; reflexivity|].
  assert (T : sourcesTextOf (responseStyle cfg)
                [(A, shownTitle t2 A); (B, shownTitle t3 B)]
              = displayOf (responseStyle cfg)
                  (sourcesHeader ++ sourceEntry (A, shownTitle t2 A)
                     ++ sourceEntry (B, shownTitle t3 B))).
  { unfold sourcesTextOf, displayOf; simpl.
    rewrite <- !app_assoc; reflexivity. }
  split; [exact T|].
  split.
  { rewrite T; unfold displayOf.
    rewrite <- quoteNewlines_spec.
    unfold sourcesHeader, sourceEntry; cbn [fst snd].
    rewrite <- !app_assoc; reflexivity. }
  split.
  { intros HA HB HTA HTB.
    rewrite sourcesText_lines
      by (repeat constructor; cbn [fst snd]; assumption).
    unfold renderedLines, entryLine; cbn [map fst snd app].
    destruct (isCallout (responseStyle cfg)); reflexivity. }
  unfold onDone; rewrite U, Hc.
  set (txt := sourcesTextOf (responseStyle cfg)
                [(A, shownTitle t2 A); (B, shownTitle t3 B)]).
  set (s1 := with_pos _ (edit txt _ _ s)).
  set (s2 := match responseStyle cfg with HorizontalRule => _ | _ => s1 end).
  assert (E2 : Extends s1 s2).
  { subst s2; destruct (responseStyle cfg);
      [apply extends_refl|apply extends_insert|apply extends_refl]. }
  assert (E3 : Extends s2
            match cursorBehavior cfg with
            | Keep => s2
            | ToEnd =>
                let s' :=
                  match ch (currentInsertPos s2) with
                  | 0 => s2
                  | S _ =>
                      with_pos (mkPos (line (currentInsertPos s2) + 1) 0)
                        (edit [NL] (currentInsertPos s2)
                           (currentInsertPos s2) s2)
                  end in
                with_host (do_setCursor (currentInsertPos s') (host s')) s'
            end).
  { destruct (cursorBehavior cfg); [apply extends_refl|].
    cbv zeta; apply extends_cursor.
    destruct (ch (currentInsertPos s2));
      [apply extends_refl|apply (extends_insert [NL])]. }
  destruct (extends_trans E2 E3) as [rest Hrest].
  exists rest.
  transitivity (edits (host s1) ++ rest); [exact Hrest|].
  subst s1; proj; rewrite <- app_assoc; reflexivity.
Qed.

(** Three citations of two URLs render as two list items, under plain and
    under callout style. *)
Lemma citations_deduplicated_witness :
  let plain := onDone (sampleSettings (lit "k") Plain) citedState in
  let callout := onDone (sampleSettings (lit "k") Callout) citedState in
  uniqueSourcesOf (collectedAnnotations citedState)
  = [(urlA, lit "t2"); (urlB, lit "t3")] /\
  lines (doc (host plain))
  = [lit "answer"; []; lit "**Sources:**"; lit "- [t2](https://a.example)";
     lit "- [t3](https://b.example)"; []] /\
  lines (doc (host callout))
  = [lit "answer"; lit "> "; lit "> **Sources:**";
     lit "> - [t2](https://a.example)"; lit "> - [t3](https://b.example)";
     lit "> "].
Proof.
  cbv zeta; split.
  - exact (proj1 (proj2 (@citations_deduplicated
                           (sampleSettings (lit "k") Plain) citedState
                           urlA urlB (lit "t1") (lit "t2") (lit "t3")
                           ltac:(discriminate) eq_refl))).
  - split; vm_compute; reflexivity.
Defined.

(** ** Whole runs *)

Lemma run_app (JSON_parse : str -> option OpenRouterResponse)
    (cfg : GhostSettings) (s : Invocation) (es1 es2 : list Event) :
  run JSON_parse cfg s (es1 ++ es2)
  = run JSON_parse cfg (run JSON_parse cfg s es1) es2.
Proof. apply fold_left_app. Qed.

(** The state when the stream has delivered [body], whatever the chunking
    and however the ticks fall: the invariant of the deltas seen so far. *)
Lemma stream_result (JSON_parse : str -> option OpenRouterResponse)
    (cfg : GhostSettings) (h : Host) (lineNum : nat)
    (ticks body : list Event) :
  Proceeds cfg h lineNum ->
  forallb isTick ticks = true -> forallb isBody body = true ->
  let s := run JSON_parse cfg
             (processStreamingQuery cfg h lineNum (getLine (doc h) lineNum))
             (ticks ++ BodyStream :: body) in
  exists X post,
    lastSeg X = [] /\ atLineEnd post = true /\
    countNL X = lineNum + generationLineOffset (responseStyle cfg) /\
    Inv cfg X post (deltasOf JSON_parse (wireOf body)) s /\
    phase s = Reading /\ generationLine s = countNL X.
Proof.
  intros Hp Ht Hb s; subst s.
  destruct (start_waiting Hp)
    as (X & post & HX & Hpost & Hcnt & W0 & Hph & Hbuf & _ & _ & Hg).
  exists X, post.
  destruct (@ticks_waiting JSON_parse cfg X post HX Hpost ticks _ Ht W0)
    as (W1 & Hph1 & Hbuf1).
  rewrite run_app.
  set (s1 := run JSON_parse cfg _ ticks) in *.
  change (run JSON_parse cfg s1 (BodyStream :: body))
    with (run JSON_parse cfg (step JSON_parse cfg s1 BodyStream) body).
  assert (E : step JSON_parse cfg s1 BodyStream = with_phase Reading s1)
    by (simpl; rewrite Hph1, Hph; reflexivity).
  rewrite E.
  destruct (@body_inv JSON_parse cfg X post HX Hpost body []
              (with_phase Reading s1) Hb eq_refl W1)
    as (I & _ & Hr).
  { proj; rewrite Hbuf1, Hbuf; reflexivity. }
  cbv zeta in *; simpl app in I.
  repeat split; auto.
  destruct (deltasOf JSON_parse (wireOf body)).
  - apply I.
  - apply I.
Qed.

(** A tick never shows a notice. *)
Lemma tick_notices (cfg : GhostSettings) (s : Invocation) :
  notices (host (tick cfg s)) = notices (host s) /\
  requests (host (tick cfg s)) = requests (host s).
Proof.
  unfold tick; proj.
  destruct (_ <? _); [destruct (looksLikeSpinner _ _)|]; proj; auto.
Qed.

Lemma ticks_notices (JSON_parse : str -> option OpenRouterResponse)
    (cfg : GhostSettings) (es : list Event) (s : Invocation) :
  forallb isTick es = true ->
  notices (host (run JSON_parse cfg s es)) = notices (host s) /\
  requests (host (run JSON_parse cfg s es)) = requests (host s).
Proof.
  revert s; induction es as [|e es IH]; intros s Hes; [auto|].
  simpl in Hes; apply andb_true_iff in Hes as [He Hes].
  destruct e; try discriminate.
  change (run JSON_parse cfg s (Tick :: es))
    with (run JSON_parse cfg (step JSON_parse cfg s Tick) es).
  destruct (IH (step JSON_parse cfg s Tick) Hes) as [H1 H2].
  rewrite H1, H2; simpl.
  destruct (timerActive s); [apply tick_notices|auto].
Qed.

(** ** Sample traffic *)

Lemma sample_proceeds (style : ResponseStyle) :
  Proceeds (sampleSettings (lit "k") style) (hostOf sampleDoc) 1.
Proof.
  split; [discriminate|].
  split; [vm_compute; lia|vm_compute; discriminate].
Defined.

(** ** A rejected request *)

(** C5: when the request is answered with a non-OK status, whatever ticks
    came before, the timer is stopped, one notice made of the status code and
    the first hundred characters of the body is shown, the function returns,
    and nothing that arrives later changes the host: the generation line
    still holds the placeholder frame the last tick left there. *)
Theorem http_error_leaves_placeholder
    (JSON_parse : str -> option OpenRouterResponse) (cfg : GhostSettings)
    (h : Host) (lineNum : nat) (ticks later : list Event)
    (status : N) (errorText : str) :
  Proceeds cfg h lineNum ->
  forallb isTick ticks = true ->
  let s0 := processStreamingQuery cfg h lineNum (getLine (doc h) lineNum) in
  let before := run JSON_parse cfg s0 ticks in
  let s := run JSON_parse cfg s0
             (ticks ++ HttpError status errorText :: later) in
  s = run JSON_parse cfg s0 (ticks ++ [HttpError status errorText]) /\
  timerActive s = false /\
  phase s = Returned /\
  notices (host s)
  = notices h ++ [lit "Ghost Error: " ++ ofNumber status ++ lit " - "
                    ++ substringTo 100 errorText] /\
  doc (host s) = doc (host before) /\
  edits (host s) = edits (host before) /\
  requests (host s) = requests (host s0) /\
  isFirstChunk s = true /\
  exists k, k < 10 /\
    getLine (doc (host s)) (generationLine s)
    = spinnerPrefix (responseStyle cfg) ++ getSpinnerText k.
Proof.
  intros Hp Ht s0 before s.
  destruct (start_waiting Hp)
    as (X & post & HX & Hpost & Hcnt & W0 & Hph & Hbuf & _ & Hn & Hg).
  fold s0 in W0, Hph, Hbuf, Hn, Hg.
  destruct (@ticks_waiting JSON_parse cfg X post HX Hpost ticks s0 Ht W0)
    as (W1 & Hph1 & _).
  destruct (@ticks_notices JSON_parse cfg ticks s0 Ht) as [Hn1 Hr1].
  fold before in W1, Hph1, Hn1, Hr1.
  assert (E : s = onHttpError status errorText before).
  { subst s; rewrite run_app; fold before.
    change (run JSON_parse cfg before (HttpError status errorText :: later))
      with (run JSON_parse cfg
              (step JSON_parse cfg before (HttpError status errorText)) later).
    assert (E1 : step JSON_parse cfg before (HttpError status errorText)
                 = onHttpError status errorText before)
      by (simpl; rewrite Hph1, Hph; reflexivity).
    rewrite E1; apply run_returned; [reflexivity|].
    destruct W1 as (_ & _ & _ & Hh & _).
    unfold onHttpError; proj; rewrite Hh; reflexivity. }
  destruct (@waiting_line cfg X post HX Hpost before W1) as [_ Hline].
  pose proof W1 as (Hk & _ & _ & Hh & Hf & _).
  split.
  { rewrite E, run_app; fold before.
    unfold run; cbn [fold_left]; unfold step.
    rewrite Hph1, Hph; reflexivity. }
  rewrite E; unfold onHttpError; proj.
  rewrite Hh, Hn1, Hn, Hr1.
  repeat split; auto.
  exists (currentFrameIndex before); split; [exact Hk|exact Hline].
Qed.

(** A 401 after two ticks: the notice, and frame 2 still on line 3. *)
Lemma http_error_leaves_placeholder_witness :
  let s := run sampleParse (sampleSettings (lit "k") Plain) (sampleStart Plain)
             ([Tick; Tick] ++ HttpError 401 (lit "Unauthorized")
                :: [Tick; Chunk helloWire; Done]) in
  timerActive s = false /\
  notices (host s) = [lit "Ghost Error: 401 - Unauthorized"] /\
  getLine (doc (host s)) 3 = getSpinnerText 2.
Proof.
  pose proof (@http_error_leaves_placeholder sampleParse
                (sampleSettings (lit "k") Plain) (hostOf sampleDoc) 1
                [Tick; Tick] [Tick; Chunk helloWire; Done] 401
                (lit "Unauthorized") (sample_proceeds Plain) eq_refl) as H.
  cbv zeta in H; destruct H as (_ & H1 & _ & H3 & _).
  split; [exact H1|]. split; [exact H3|]. reflexivity.
Defined.

(** ** A stream without content *)






(** ** Streamed content *)

(** C1, as stated, fails under callout style: the deltas [Hel], [lo] leave
    ["> Hello"] on the generation line, not [Hello]. *)
Lemma hello_in_callout_is_quoted :
  let cfg := sampleSettings (lit "k") Callout in
  let s := run sampleParse cfg (sampleStart Callout)
             ([Tick] ++ BodyStream :: inTwoChunks 30 helloWire ++ [Done]) in
  deltasOf sampleParse (wireOf (inTwoChunks 30 helloWire)) = hello /\
  generationLine s = 4 /\
  getLine (doc (host s)) (generationLine s) = lit "> Hello" /\
  getLine (doc (host s)) (generationLine s) <> lit "Hello".
Proof.
  cbv zeta; split; [reflexivity|]. split; [reflexivity|].
  split; [reflexivity|vm_compute; discriminate].
Qed.

(** C1 (amended): when the content deltas of the response are [Hel] then
    [lo], the generation line ends up holding [Hello] under plain and
    horizontal-rule style and ["> Hello"] under callout style, however the
    wire text was cut into chunks and wherever the ticks fell, also after
    the sources, the divider and the cursor relocation of the completion. *)
Theorem hello_whatever_the_chunks
    (JSON_parse : str -> option OpenRouterResponse) (cfg : GhostSettings)
    (h : Host) (lineNum : nat) (ticks body : list Event) :
  Proceeds cfg h lineNum ->
  forallb isTick ticks = true -> forallb isBody body = true ->
  deltasOf JSON_parse (wireOf body) = hello ->
  let s := run JSON_parse cfg
             (processStreamingQuery cfg h lineNum (getLine (doc h) lineNum))
             (ticks ++ BodyStream :: body ++ [Done]) in
  generationLine s = lineNum + generationLineOffset (responseStyle cfg) /\
  getLine (doc (host s)) (generationLine s)
  = spinnerPrefix (responseStyle cfg) ++ lit "Hello" /\
  phase s = Returned /\ timerActive s = false.
Proof.
  intros Hp Ht Hb Hd s.
  destruct (@stream_result JSON_parse cfg h lineNum ticks body Hp Ht Hb)
    as (X & post & HX & Hpost & Hcnt & I & Hph & Hg).
  rewrite Hd in I.
  set (s1 := run JSON_parse cfg _ (ticks ++ BodyStream :: body)) in *.
  assert (E : s = onDone cfg s1).
  { subst s.
    replace (ticks ++ BodyStream :: body ++ [Done])
      with ((ticks ++ BodyStream :: body) ++ [Done])
      by (rewrite <- app_assoc; reflexivity).
    rewrite run_app; fold s1.
    unfold run; cbn [fold_left]; unfold step; rewrite Hph; reflexivity. }
  destruct (@onDone_writing cfg X post _ s1 I)
    as (F & HF & (Hdoc & _ & Htimer & _ & Hgen) & Hret).
  rewrite E, Hgen, Hdoc.
  split; [exact Hcnt|].
  split; [|auto].
  rewrite getLine_app_at, HX, <- app_assoc; cbn [app].
  assert (W : written (responseStyle cfg) hello
              = spinnerPrefix (responseStyle cfg) ++ lit "Hello")
    by (destruct (responseStyle cfg); reflexivity).
  rewrite W; apply getLine_first.
  - destruct (responseStyle cfg); reflexivity.
  - apply atLineEnd_app; assumption.
Qed.

(** Plain style, the wire cut inside the first payload. *)
Lemma hello_whatever_the_chunks_witness :
  let cfg := sampleSettings (lit "k") Plain in
  let s := run sampleParse cfg (sampleStart Plain)
             ([Tick] ++ BodyStream :: inTwoChunks 30 helloWire ++ [Done]) in
  generationLine s = 3 /\ getLine (doc (host s)) 3 = lit "Hello".
Proof.
  pose proof (@hello_whatever_the_chunks sampleParse
                (sampleSettings (lit "k") Plain) (hostOf sampleDoc) 1
                [Tick] (inTwoChunks 30 helloWire)
                (sample_proceeds Plain) eq_refl eq_refl eq_refl) as H.
  cbv zeta in H; destruct H as (H1 & H2 & _).
  split; [exact H1|]. rewrite H1 in H2; exact H2.
Defined.

(** C2, as stated, fails under callout style: after the deltas [x] and
    [a\nb] the tracked position is one line down at column 3, not column 1,
    because the second line is written as ["> b"]. *)
Lemma callout_position_counts_marker :
  let cfg := sampleSettings (lit "k") Callout in
  let s := run sampleParse cfg (sampleStart Callout)
             ([Tick] ++ BodyStream :: inTwoChunks 30 multilineWire) in
  deltasOf sampleParse (wireOf (inTwoChunks 30 multilineWire)) = xThenTwoLines /\
  generationLine s = 4 /\
  getLine (doc (host s)) 5 = lit "> b" /\
  currentInsertPos s = mkPos 5 3 /\
  currentInsertPos s <> mkPos (generationLine s + 1) 1.
Proof.
  cbv zeta; split; [reflexivity|]. split; [reflexivity|].
  split; [reflexivity|]. split; [reflexivity|vm_compute; discriminate].
Qed.

Lemma advance_cases (p : EditorPosition) (t : str) :
  advance p t =
  if countNL t =? 0 then mkPos (line p) (ch p + length t)
  else mkPos (line p + countNL t) (length (lastSeg t)).
Proof.
  unfold advance; rewrite length_split; fold (lastSeg t).
  destruct (countNL t); simpl; [reflexivity|].
  f_equal; lia.
Qed.

(** C2 (amended): every delta after the first is inserted at the tracked
    position, which then moves over the inserted text: by its length when it
    has no newline, else down by its number of newlines to the column that
    is the length of its last segment.  The inserted text is the delta
    itself under plain and horizontal-rule style and the delta with ["> "]
    after every newline under callout style.  Once content has arrived the
    tracked position is the offset just after everything the deltas wrote.
    After [x] and then [a\nb] it is one line below the generation line, at
    column 1 under plain and horizontal-rule style and at column 3 under
    callout style. *)
Theorem tracked_position_follows_text
    (JSON_parse : str -> option OpenRouterResponse) (cfg : GhostSettings)
    (h : Host) (lineNum : nat) (ticks body : list Event) :
  Proceeds cfg h lineNum ->
  forallb isTick ticks = true -> forallb isBody body = true ->
  let style := responseStyle cfg in
  let g := lineNum + generationLineOffset style in
  let s := run JSON_parse cfg
             (processStreamingQuery cfg h lineNum (getLine (doc h) lineNum))
             (ticks ++ BodyStream :: body) in
  let cs := deltasOf JSON_parse (wireOf body) in
  (forall st c, isFirstChunk st = false ->
     let t := displayOf style c in
     edits (host (onContent cfg c st))
     = edits (host st)
         ++ [{| edit_text := t; edit_from := currentInsertPos st;
                edit_to := currentInsertPos st |}] /\
     currentInsertPos (onContent cfg c st)
     = (if countNL t =? 0
        then mkPos (line (currentInsertPos st))
               (ch (currentInsertPos st) + length t)
        else mkPos (line (currentInsertPos st) + countNL t)
               (length (lastSeg t))) /\
     (isCallout style = false -> t = c)) /\
  (cs <> [] ->
     exists X post,
       doc (host s) = X ++ written style cs ++ post /\
       countNL X = g /\ lastSeg X = [] /\
       posToOffset (doc (host s)) (currentInsertPos s)
       = length (X ++ written style cs) /\
       currentInsertPos s
       = mkPos (g + countNL (written style cs))
           (length (lastSeg (written style cs)))) /\
  (cs = xThenTwoLines ->
     currentInsertPos s = mkPos (g + 1) (if isCallout style then 3 else 1)).
Proof.
  intros Hp Ht Hb style g s cs.
  assert (Hinv : cs <> [] ->
     exists X post,
       doc (host s) = X ++ written style cs ++ post /\
       countNL X = g /\ lastSeg X = [] /\
       posToOffset (doc (host s)) (currentInsertPos s)
       = length (X ++ written style cs) /\
       currentInsertPos s
       = mkPos (g + countNL (written style cs))
           (length (lastSeg (written style cs)))).
  { intros Hne.
    destruct (@stream_result JSON_parse cfg h lineNum ticks body Hp Ht Hb)
      as (X & post & HX & Hpost & Hcnt & I & Hph & Hg).
    fold s cs in I, Hph, Hg.
    destruct cs as [|c0 rest] eqn:Ecs; [contradiction|].
    destruct I as (Hdoc & Hpos & _).
    fold style in Hdoc, Hpos.
    exists X, post.
    split; [exact Hdoc|]. split; [exact Hcnt|]. split; [exact HX|].
    split.
    - rewrite Hdoc, Hpos, app_assoc; apply posToOffset_endPos.
    - rewrite Hpos; unfold endPos.
      rewrite countNL_app, lastSeg_app, HX, Hcnt; fold style g.
      f_equal.
      destruct (countNL (written style (c0 :: rest)) =? 0) eqn:E;
        [|reflexivity].
      apply Nat.eqb_eq in E; rewrite lastSeg_noNL by assumption; reflexivity. }
  split; [|split; [exact Hinv|]].
  - intros st c Hf t.
    unfold onContent; rewrite Hf; proj; fold style; fold t.
    split; [reflexivity|].
    split; [apply advance_cases|].
    subst t; unfold displayOf; intros ->; reflexivity.
  - intros E; destruct Hinv as (X & post & _ & _ & _ & _ & Hpos);
      [rewrite E; discriminate|].
    rewrite Hpos, E; destruct style; reflexivity.
Qed.

(** Plain style: [x] then [a\nb] ends at line 4, column 1. *)
Lemma tracked_position_follows_text_witness :
  let cfg := sampleSettings (lit "k") Plain in
  let s := run sampleParse cfg (sampleStart Plain)
             ([Tick] ++ BodyStream :: inTwoChunks 30 multilineWire) in
  getLine (doc (host s)) 3 = lit "xa" /\
  getLine (doc (host s)) 4 = lit "b" /\
  currentInsertPos s = mkPos 4 1.
Proof.
  pose proof (@tracked_position_follows_text sampleParse
                (sampleSettings (lit "k") Plain) (hostOf sampleDoc) 1
                [Tick] (inTwoChunks 30 multilineWire)
                (sample_proceeds Plain) eq_refl eq_refl) as H.
  cbv zeta in H; destruct H as (_ & _ & H3).
  split; [reflexivity|]. split; [reflexivity|].
  exact (H3 eq_refl).
Defined.

(** * Further properties *)

(** ** Line framing *)

Lemma with_buffer_twice (b1 b2 : str) (s : Invocation) :
  with_buffer b2 (with_buffer b1 s) = with_buffer b2 s.
Proof. reflexivity. Qed.

Lemma onContent_with_buffer (cfg : GhostSettings) (c b : str) (s : Invocation) :
  onContent cfg c (with_buffer b s) = with_buffer b (onContent cfg c s).
Proof.
  unfold onContent; proj.
  destruct (isFirstChunk s); [|reflexivity].
  destruct (generationLine s <? lineCount (doc (host s))); reflexivity.
Qed.

Lemma processLine_with_buffer (JSON_parse : str -> option OpenRouterResponse)
    (cfg : GhostSettings) (ln b : str) (s : Invocation) :
  processLine JSON_parse cfg ln (with_buffer b s)
  = with_buffer b (processLine JSON_parse cfg ln s).
Proof.
  unfold processLine.
  destruct (isEmpty (trim ln)); [reflexivity|].
  destruct (str_eqb (trim ln) keepAlive); [reflexivity|].
  destruct (startsWith (trim ln) dataPrefix).
  - destruct (str_eqb (sliceFrom 6 (trim ln)) doneSentinel); [reflexivity|].
    destruct (JSON_parse (sliceFrom 6 (trim ln))) as [parsed|]; [|reflexivity].
    destruct (firstDelta parsed) as [d|]; [|reflexivity].
    destruct (annotations d);
      (destruct (isEmpty _); [reflexivity|]);
      rewrite <- onContent_with_buffer; reflexivity.
  - destruct (startsWith (trim ln) errorPrefix); reflexivity.
Qed.

Lemma processLines_with_buffer (JSON_parse : str -> option OpenRouterResponse)
    (cfg : GhostSettings) (lns : list str) (b : str) (s : Invocation) :
  fold_left (fun st ln => processLine JSON_parse cfg ln st) lns (with_buffer b s)
  = with_buffer b
      (fold_left (fun st ln => processLine JSON_parse cfg ln st) lns s).
Proof.
  revert s; induction lns as [|ln lns IH]; intros s; [reflexivity|].
  simpl; rewrite processLine_with_buffer; apply IH.
Qed.

Lemma onContent_buffer (cfg : GhostSettings) (c : str) (s : Invocation) :
  buffer (onContent cfg c s) = buffer s.
Proof.
  unfold onContent.
  destruct (isFirstChunk s); proj; [|reflexivity].
  destruct (generationLine s <? lineCount (doc (host s))); reflexivity.
Qed.

Lemma processLine_buffer (JSON_parse : str -> option OpenRouterResponse)
    (cfg : GhostSettings) (ln : str) (s : Invocation) :
  buffer (processLine JSON_parse cfg ln s) = buffer s.
Proof.
  unfold processLine.
  destruct (isEmpty (trim ln)); [reflexivity|].
  destruct (str_eqb (trim ln) keepAlive); [reflexivity|].
  destruct (startsWith (trim ln) dataPrefix).
  - destruct (str_eqb (sliceFrom 6 (trim ln)) doneSentinel); [reflexivity|].
    destruct (JSON_parse (sliceFrom 6 (trim ln))) as [parsed|]; [|reflexivity].
    destruct (firstDelta parsed) as [d|]; [|reflexivity].
    destruct (annotations d);
      (destruct (isEmpty _); [reflexivity|]);
      rewrite onContent_buffer; reflexivity.
  - destruct (startsWith (trim ln) errorPrefix); reflexivity.
Qed.

Lemma processLines_buffer (JSON_parse : str -> option OpenRouterResponse)
    (cfg : GhostSettings) (lns : list str) (s : Invocation) :
  buffer (fold_left (fun st ln => processLine JSON_parse cfg ln st) lns s)
  = buffer s.
Proof.
  revert s; induction lns as [|ln lns IH]; intros s; [reflexivity|].
  simpl; rewrite IH; apply processLine_buffer.
Qed.

Lemma processLine_phase (JSON_parse : str -> option OpenRouterResponse)
    (cfg : GhostSettings) (ln : str) (s : Invocation) :
  phase (processLine JSON_parse cfg ln s) = phase s.
Proof.
  unfold processLine.
  destruct (isEmpty (trim ln)); [reflexivity|].
  destruct (str_eqb (trim ln) keepAlive); [reflexivity|].
  destruct (startsWith (trim ln) dataPrefix).
  - destruct (str_eqb (sliceFrom 6 (trim ln)) doneSentinel); [reflexivity|].
    destruct (JSON_parse (sliceFrom 6 (trim ln))) as [parsed|]; [|reflexivity].
    destruct (firstDelta parsed) as [d|]; [|reflexivity].
    destruct (annotations d);
      (destruct (isEmpty _); [reflexivity|]);
      rewrite (proj1 (onContent_frame cfg _ _)); reflexivity.
  - destruct (startsWith (trim ln) errorPrefix); reflexivity.
Qed.

Lemma processLines_phase (JSON_parse : str -> option OpenRouterResponse)
    (cfg : GhostSettings) (lns : list str) (s : Invocation) :
  phase (fold_left (fun st ln => processLine JSON_parse cfg ln st) lns s)
  = phase s.
Proof.
  revert s; induction lns as [|ln lns IH]; intros s; [reflexivity|].
  simpl; rewrite IH; apply processLine_phase.
Qed.

Lemma last_app_nonempty (A : Type) (l1 l2 : list A) (d : A) :
  l2 <> [] -> last (l1 ++ l2) d = last l2 d.
Proof.
  intros H; induction l1 as [|x l1 IH]; [reflexivity|].
  simpl; rewrite IH.
  destruct (l1 ++ l2) eqn:E; [|reflexivity].
  apply app_eq_nil in E as [_ E]; contradiction.
Qed.

Lemma onChunk_buffer (JSON_parse : str -> option OpenRouterResponse)
    (cfg : GhostSettings) (chunk : str) (s : Invocation) :
  buffer (onChunk JSON_parse cfg chunk s) = lastSeg (buffer s ++ chunk).
Proof. unfold onChunk; rewrite processLines_buffer; reflexivity. Qed.

Lemma onChunk_compose (JSON_parse : str -> option OpenRouterResponse)
    (cfg : GhostSettings) (c1 c2 : str) (s : Invocation) :
  onChunk JSON_parse cfg c2 (onChunk JSON_parse cfg c1 s)
  = onChunk JSON_parse cfg (c1 ++ c2) s.
Proof.
  unfold onChunk at 1.
  rewrite onChunk_buffer.
  unfold onChunk.
  rewrite (app_assoc (buffer s) c1 c2), (split_app_lastSeg (buffer s ++ c1) c2).
  rewrite removelast_app by apply split_nonempty.
  rewrite last_app_nonempty by apply split_nonempty.
  rewrite fold_left_app.
  fold (lastSeg (buffer s ++ c1)).
  rewrite !processLines_with_buffer.
  reflexivity.
Qed.

Lemma with_buffer_same (s : Invocation) : with_buffer (buffer s) s = s.
Proof. destruct s; reflexivity. Qed.

Lemma onChunk_empty (JSON_parse : str -> option OpenRouterResponse)
    (cfg : GhostSettings) (s : Invocation) :
  countNL (buffer s) = 0 -> onChunk JSON_parse cfg [] s = s.
Proof.
  intros H; unfold onChunk.
  rewrite app_nil_r, (split_noNL _ H); simpl.
  apply with_buffer_same.
Qed.

(** X1: the read loop frames lines independently of the chunk boundaries:
    a state that is reading, with a newline-free fragment kept, ends in the
    same state whether a text arrives as any sequence of chunks or as one
    chunk; and the fragment kept afterwards is the text after the last
    newline, so it never holds a newline. *)
Theorem chunking_is_irrelevant (JSON_parse : str -> option OpenRouterResponse)
    (cfg : GhostSettings) (chunks : list str) (s : Invocation) :
  phase s = Reading -> countNL (buffer s) = 0 ->
  let s' := run JSON_parse cfg s (chunkEvents chunks) in
  s' = onChunk JSON_parse cfg (concat chunks) s /\
  buffer s' = lastSeg (buffer s ++ concat chunks) /\
  countNL (buffer s') = 0 /\
  phase s' = Reading.
Proof.
  intros Hp Hb s'.
  assert (E : s' = onChunk JSON_parse cfg (concat chunks) s).
  { subst s'; revert s Hp Hb.
    induction chunks as [|c cs IH]; intros s Hp Hb.
    - simpl; symmetry; apply onChunk_empty, Hb.
    - change (run JSON_parse cfg s (chunkEvents (c :: cs)))
        with (run JSON_parse cfg (step JSON_parse cfg s (Chunk c))
                (chunkEvents cs)).
      assert (E1 : step JSON_parse cfg s (Chunk c) = onChunk JSON_parse cfg c s)
        by (unfold step; rewrite Hp; reflexivity).
      rewrite E1, IH.
      + simpl concat; apply onChunk_compose.
      + unfold onChunk; rewrite processLines_phase; exact Hp.
      + rewrite onChunk_buffer; apply countNL_lastSeg. }
  split; [exact E|].
  rewrite E, onChunk_buffer.
  split; [reflexivity|]. split; [apply countNL_lastSeg|].
  unfold onChunk.
  rewrite processLines_phase; exact Hp.
Qed.

Lemma chunking_is_irrelevant_witness :
  let cfg := sampleSettings (lit "k") Plain in
  let s := run sampleParse cfg (sampleStart Plain) [BodyStream] in
  run sampleParse cfg s
    (chunkEvents [firstn 7 helloWire; firstn 40 (skipn 7 helloWire);
                  skipn 47 helloWire])
  = onChunk sampleParse cfg helloWire s.
Proof.
  pose proof (@chunking_is_irrelevant sampleParse
                (sampleSettings (lit "k") Plain)
                [firstn 7 helloWire; firstn 40 (skipn 7 helloWire);
                 skipn 47 helloWire]
                (run sampleParse (sampleSettings (lit "k") Plain)
                   (sampleStart Plain) [BodyStream])
                eq_refl eq_refl) as H.
  cbv zeta in H; destruct H as [H _].
  cbv zeta; rewrite H; reflexivity.
Defined.

(** ** What a run never does *)

Lemma onContent_channels (cfg : GhostSettings) (c : str) (s : Invocation) :
  requests (host (onContent cfg c s)) = requests (host s) /\
  notices (host (onContent cfg c s)) = notices (host s) /\
  cursor (host (onContent cfg c s)) = cursor (host s).
Proof.
  unfold onContent.
  destruct (isFirstChunk s); proj; [|auto].
  destruct (generationLine s <? lineCount (doc (host s))); proj; auto.
Qed.

Lemma processLine_channels (JSON_parse : str -> option OpenRouterResponse)
    (cfg : GhostSettings) (ln : str) (s : Invocation) :
  requests (host (processLine JSON_parse cfg ln s)) = requests (host s) /\
  cursor (host (processLine JSON_parse cfg ln s)) = cursor (host s).
Proof.
  unfold processLine.
  destruct (isEmpty (trim ln)); [auto|].
  destruct (str_eqb (trim ln) keepAlive); [auto|].
  destruct (startsWith (trim ln) dataPrefix).
  - destruct (str_eqb (sliceFrom 6 (trim ln)) doneSentinel); [auto|].
    destruct (JSON_parse (sliceFrom 6 (trim ln))) as [parsed|]; [|auto].
    destruct (firstDelta parsed) as [d|]; [|auto].
    destruct (annotations d);
      (destruct (isEmpty _); [auto|]);
      match goal with
      | |- context [onContent cfg ?c0 ?s1] =>
          destruct (onContent_channels cfg c0 s1) as (R & _ & C);
          rewrite R, C; auto
      end.
  - destruct (startsWith (trim ln) errorPrefix); auto.
Qed.

Lemma processLines_channels (JSON_parse : str -> option OpenRouterResponse)
    (cfg : GhostSettings) (lns : list str) (s : Invocation) :
  let s' := fold_left (fun st ln => processLine JSON_parse cfg ln st) lns s in
  requests (host s') = requests (host s) /\ cursor (host s') = cursor (host s).
Proof.
  revert s; induction lns as [|ln lns IH]; intros s; [simpl; auto|].
  simpl; destruct (IH (processLine JSON_parse cfg ln s)) as [R C].
  destruct (processLine_channels JSON_parse cfg ln s) as [R1 C1].
  split; congruence.
Qed.

Lemma tick_cursor (cfg : GhostSettings) (s : Invocation) :
  cursor (host (tick cfg s)) = cursor (host s).
Proof.
  unfold tick; proj.
  destruct (_ <? _); [destruct (looksLikeSpinner _ _)|]; reflexivity.
Qed.

Lemma silent_trans (s1 s2 s3 : Invocation) :
  Silent s1 s2 -> Silent s2 s3 -> Silent s1 s3.
Proof. intros [A B] [C D]; split; congruence. Qed.

Lemma onDone_requests (cfg : GhostSettings) (s : Invocation) :
  Silent s (onDone cfg s).
Proof.
  unfold onDone.
  set (s1 := match collectedAnnotations s with [] => s | _ => _ end).
  assert (K1 : Silent s s1).
  { subst s1; destruct (collectedAnnotations s) as [|a0 rest];
      [split; reflexivity|].
    destruct (uniqueSourcesOf (a0 :: rest)); split; reflexivity. }
  set (s2 := match responseStyle cfg with HorizontalRule => _ | _ => s1 end).
  assert (K2 : Silent s1 s2)
    by (subst s2; destruct (responseStyle cfg); split; reflexivity).
  assert (K3 : Silent s2
            (with_phase Returned
               match cursorBehavior cfg with
               | Keep => s2
               | ToEnd =>
                   let s' :=
                     match ch (currentInsertPos s2) with
                     | 0 => s2
                     | S _ =>
                         with_pos (mkPos (line (currentInsertPos s2) + 1) 0)
                           (edit [NL] (currentInsertPos s2)
                              (currentInsertPos s2) s2)
                     end in
                   with_host (do_setCursor (currentInsertPos s') (host s')) s'
               end)).
  { destruct (cursorBehavior cfg); [split; reflexivity|].
    cbv zeta; destruct (ch (currentInsertPos s2)); split; reflexivity. }
  exact (silent_trans (silent_trans K1 K2) K3).
Qed.

Lemma onDone_cursor_keep (cfg : GhostSettings) (s : Invocation) :
  cursorBehavior cfg = Keep -> CursorKept s (onDone cfg s).
Proof.
  intros Hk; unfold onDone, CursorKept; rewrite Hk.
  set (s1 := match collectedAnnotations s with [] => s | _ => _ end).
  assert (K1 : cursor (host s1) = cursor (host s)).
  { subst s1; destruct (collectedAnnotations s) as [|a0 rest]; [reflexivity|].
    destruct (uniqueSourcesOf (a0 :: rest)); reflexivity. }
  destruct (responseStyle cfg); proj; exact K1.
Qed.

Lemma onDone_cursor_end (cfg : GhostSettings) (s : Invocation) :
  cursorBehavior cfg = ToEnd ->
  cursor (host (onDone cfg s)) = Some (currentInsertPos (onDone cfg s)) /\
  ch (currentInsertPos (onDone cfg s)) = 0.
Proof.
  intros Hk; unfold onDone; rewrite Hk.
  set (s1 := match collectedAnnotations s with [] => s | _ => _ end).
  set (s2 := match responseStyle cfg with HorizontalRule => _ | _ => s1 end).
  clearbody s2; cbv zeta.
  destruct (ch (currentInsertPos s2)) eqn:E; proj; auto.
Qed.

Lemma step_channels (JSON_parse : str -> option OpenRouterResponse)
    (cfg : GhostSettings) (s : Invocation) (e : Event) :
  requests (host (step JSON_parse cfg s e)) = requests (host s) /\
  (cursorBehavior cfg = Keep ->
   cursor (host (step JSON_parse cfg s e)) = cursor (host s)).
Proof.
  destruct e; unfold step.
  - destruct (timerActive s); [|auto].
    split; [apply tick_notices|intros _; apply tick_cursor].
  - destruct (phase s); auto.
  - destruct (phase s); auto.
  - destruct (phase s); auto.
  - destruct (phase s); auto.
    unfold onChunk.
    destruct (processLines_channels JSON_parse cfg
                (removelast (split (buffer s ++ text)))
                (with_buffer (last (split (buffer s ++ text)) []) s))
      as [R C].
    split; [exact R|intros _; exact C].
  - destruct (phase s); auto.
    split; [apply onDone_requests|apply onDone_cursor_keep].
  - destruct (phase s); auto.
Qed.

Lemma run_channels (JSON_parse : str -> option OpenRouterResponse)
    (cfg : GhostSettings) (es : list Event) (s : Invocation) :
  requests (host (run JSON_parse cfg s es)) = requests (host s) /\
  (cursorBehavior cfg = Keep ->
   cursor (host (run JSON_parse cfg s es)) = cursor (host s)).
Proof.
  revert s; induction es as [|e es IH]; intros s; [auto|].
  change (run JSON_parse cfg s (e :: es))
    with (run JSON_parse cfg (step JSON_parse cfg s e) es).
  destruct (IH (step JSON_parse cfg s e)) as [R C].
  destruct (step_channels JSON_parse cfg s e) as [R1 C1].
  split; [congruence|intros Hk; rewrite (C Hk); apply C1, Hk].
Qed.

(** X2: an invocation sends at most one request and never retries: whatever
    the environment delivers afterwards (ticks, errors, chunks, completion),
    the requests are those of the synchronous part, which sends exactly one,
    authorised with the configured key, when a reference is found and the
    key is not empty, and none otherwise. *)
Theorem at_most_one_request (JSON_parse : str -> option OpenRouterResponse)
    (cfg : GhostSettings) (h : Host) (lineNum : nat) (lineText : str)
    (es : list Event) :
  let s := run JSON_parse cfg
             (processStreamingQuery cfg h lineNum lineText) es in
  match findModel (doc h) lineNum with
  | None => requests (host s) = requests h
  | Some (i, m) =>
      if isEmpty (apiKey cfg) then requests (host s) = requests h
      else exists r,
          requests (host s) = requests h ++ [r] /\
          req_authorization r = lit "Bearer " ++ apiKey cfg
  end.
Proof.
  cbv zeta; rewrite (proj1 (run_channels JSON_parse cfg es _)).
  unfold processStreamingQuery.
  destruct (findModel (doc h) lineNum) as [[i m]|]; [|reflexivity].
  destruct (isEmpty (apiKey cfg)); [reflexivity|].
  destruct (endsWith lineText (triggerPhrase cfg)); proj;
    eexists; (split; [reflexivity|]); reflexivity.
Qed.

Lemma lastSeg_after (X Y : str) : lastSeg X = [] -> lastSeg (X ++ Y) = lastSeg Y.
Proof.
  intros HX; rewrite lastSeg_app, HX.
  destruct (countNL Y =? 0) eqn:E; [|reflexivity].
  apply Nat.eqb_eq in E; rewrite lastSeg_noNL by exact E; reflexivity.
Qed.

(** Completion, text by text: behind what the deltas wrote come the sources,
    the divider and, under 'end', a newline if the text does not end a line;
    the tracked position is the end of all of it. *)
Lemma onDone_exact (cfg : GhostSettings) (X post W : str) (s : Invocation) :
  lastSeg X = [] -> Writing X post W s ->
  let style := responseStyle cfg in
  let F := sourcesPart style (collectedAnnotations s) ++ dividerPart style in
  let nl :=
    match cursorBehavior cfg with
    | ToEnd => closingNewline (W ++ F)
    | Keep => []
    end in
  Writing X post (W ++ F ++ nl) (onDone cfg s).
Proof.
  intros HX H0; cbv zeta; unfold onDone.
  set (s1 := match collectedAnnotations s with [] => s | _ => _ end).
  assert (H1 : Writing X post
                 (W ++ sourcesPart (responseStyle cfg) (collectedAnnotations s))
                 s1).
  { subst s1; unfold sourcesPart.
    destruct (collectedAnnotations s) as [|a0 rest].
    - cbn; rewrite app_nil_r; exact H0.
    - destruct (uniqueSourcesOf (a0 :: rest)) as [|u0 us].
      + rewrite app_nil_r; exact H0.
      + destruct (sourcesText_head (responseStyle cfg) (u0 :: us)) as [_ Hn].
        apply writing_insert; assumption. }
  set (F1 := sourcesPart (responseStyle cfg) (collectedAnnotations s)) in *.
  clearbody s1 F1.
  set (s2 := match responseStyle cfg with HorizontalRule => _ | _ => s1 end).
  assert (H2 : Writing X post ((W ++ F1) ++ dividerPart (responseStyle cfg)) s2).
  { subst s2; unfold dividerPart; destruct (responseStyle cfg);
      try (rewrite app_nil_r; exact H1).
    apply writing_insert; [assumption|simpl; lia]. }
  set (F2 := dividerPart (responseStyle cfg)) in *.
  clearbody s2 F2.
  replace (W ++ (F1 ++ F2)
             ++ match cursorBehavior cfg with
                | Keep => []
                | ToEnd => closingNewline (W ++ F1 ++ F2)
                end)
    with (((W ++ F1) ++ F2)
            ++ match cursorBehavior cfg with
               | Keep => []
               | ToEnd => closingNewline ((W ++ F1) ++ F2)
               end)
    by (rewrite <- !app_assoc; reflexivity).
  set (V := (W ++ F1) ++ F2) in *; clearbody V.
  destruct (cursorBehavior cfg).
  - rewrite app_nil_r; exact H2.
  - cbv zeta; unfold closingNewline.
    pose proof H2 as (_ & Hp & _).
    assert (Hch : ch (currentInsertPos s2) = length (lastSeg V)).
    { rewrite Hp; unfold endPos; cbn [ch].
      rewrite (@lastSeg_after X V HX); reflexivity. }
    destruct (ch (currentInsertPos s2)) eqn:E.
    + destruct (lastSeg V); [|discriminate Hch].
      cbn [isEmpty]; rewrite app_nil_r; exact H2.
    + destruct (lastSeg V); [discriminate Hch|].
      cbn [isEmpty]; exact (@writing_newline X post V s2 H2).
Qed.

(** X3: the cursor policy.  With 'keep' no step of an invocation ever calls
    [setCursor].  With 'end', when a stream that wrote content completes, the
    document is the text before the generation line, then, where the
    placeholder stood, the styled deltas, the sources if any URL was cited,
    the divider under horizontal-rule style and one more newline if all that
    does not end a line, then the text that followed the placeholder; the
    tracked position is the end of what was written, at column 0, and the
    editor cursor is set to exactly that position. *)
Theorem cursor_policy (JSON_parse : str -> option OpenRouterResponse)
    (cfg : GhostSettings) (h : Host) (lineNum : nat)
    (ticks body : list Event) :
  Proceeds cfg h lineNum ->
  forallb isTick ticks = true -> forallb isBody body = true ->
  deltasOf JSON_parse (wireOf body) <> [] ->
  let style := responseStyle cfg in
  let s0 := processStreamingQuery cfg h lineNum (getLine (doc h) lineNum) in
  let s1 := run JSON_parse cfg s0 (ticks ++ BodyStream :: body) in
  let s := run JSON_parse cfg s0 (ticks ++ BodyStream :: body ++ [Done]) in
  let W := written style (deltasOf JSON_parse (wireOf body)) in
  let F := sourcesPart style (collectedAnnotations s1) ++ dividerPart style in
  let nl := closingNewline (W ++ F) in
  (cursorBehavior cfg = Keep ->
     forall es, cursor (host (run JSON_parse cfg s0 es)) = cursor h) /\
  (cursorBehavior cfg = ToEnd ->
     exists X post,
       doc (host s0) = X ++ spinnerLine style 0 ++ post /\
       lastSeg X = [] /\ atLineEnd post = true /\
       countNL X = lineNum + generationLineOffset style /\
       doc (host s) = X ++ (W ++ F ++ nl) ++ post /\
       currentInsertPos s = endPos (X ++ W ++ F ++ nl) /\
       cursor (host s) = Some (currentInsertPos s) /\
       ch (currentInsertPos s) = 0 /\
       line (currentInsertPos s)
       = lineNum + generationLineOffset style + countNL (W ++ F ++ nl) /\
       posToOffset (doc (host s)) (currentInsertPos s)
       = length (X ++ W ++ F ++ nl)).
Proof.
  intros Hp Ht Hb Hne style s0 s1 s W F nl; split.
  - intros Hk es.
    rewrite (proj2 (run_channels JSON_parse cfg es s0) Hk).
    unfold s0, processStreamingQuery.
    destruct (findModel (doc h) lineNum) as [[i m]|]; [|reflexivity].
    destruct (isEmpty (apiKey cfg)); [reflexivity|].
    destruct (endsWith _ _); reflexivity.
  - intros Hk.
    destruct (start_waiting Hp)
      as (X & post & HX & Hpost & Hcnt & W0 & Hph & Hbuf & _ & _ & Hg).
    fold s0 in W0, Hph, Hbuf, Hg.
    assert (K0 : currentFrameIndex s0 = 0).
    { unfold s0, processStreamingQuery.
      destruct Hp as (Hkey & _ & Hfound).
      destruct (findModel (doc h) lineNum) as [[i m]|]; [|contradiction].
      destruct (apiKey cfg); [contradiction|reflexivity]. }
    destruct (@ticks_waiting JSON_parse cfg X post HX Hpost ticks s0 Ht W0)
      as (W1 & Hph1 & Hbuf1).
    assert (I : Inv cfg X post (deltasOf JSON_parse (wireOf body)) s1 /\
                phase s1 = Reading).
    { subst s1; rewrite run_app.
      set (t1 := run JSON_parse cfg s0 ticks) in *.
      change (run JSON_parse cfg t1 (BodyStream :: body))
        with (run JSON_parse cfg (step JSON_parse cfg t1 BodyStream) body).
      assert (E : step JSON_parse cfg t1 BodyStream = with_phase Reading t1)
        by (simpl; rewrite Hph1, Hph; reflexivity).
      rewrite E.
      destruct (@body_inv JSON_parse cfg X post HX Hpost body []
                  (with_phase Reading t1) Hb eq_refl W1)
        as (I & _ & Hr).
      { proj; rewrite Hbuf1, Hbuf; reflexivity. }
      cbv zeta in *; simpl app in I; split; assumption. }
    destruct I as [I Hph2].
    assert (E : s = onDone cfg s1).
    { subst s s1.
      replace (ticks ++ BodyStream :: body ++ [Done])
        with ((ticks ++ BodyStream :: body) ++ [Done])
        by (rewrite <- app_assoc; reflexivity).
      rewrite run_app.
      set (t := run JSON_parse cfg s0 (ticks ++ BodyStream :: body)) in *.
      unfold run; cbn [fold_left]; unfold step; rewrite Hph2; reflexivity. }
    assert (Wr : Writing X post W s1).
    { subst W; destruct (deltasOf JSON_parse (wireOf body)) as [|c0 cs];
        [contradiction|exact I]. }
    pose proof (@onDone_exact cfg X post W s1 HX Wr) as D.
    cbv zeta in D; rewrite Hk in D; fold style F nl in D.
    destruct D as (Hdoc & Hpos & _).
    destruct (onDone_cursor_end cfg s1 Hk) as [Hc Hch].
    rewrite <- E in *.
    exists X, post.
    destruct W0 as (_ & Hd0 & _); rewrite K0 in Hd0.
    split; [exact Hd0|]. split; [exact HX|]. split; [exact Hpost|].
    split; [exact Hcnt|]. split; [exact Hdoc|].
    split; [exact Hpos|]. split; [exact Hc|]. split; [exact Hch|].
    split.
    { rewrite Hpos; unfold endPos; cbn [line].
      rewrite countNL_app, Hcnt; reflexivity. }
    rewrite Hdoc, Hpos, (app_assoc X).
    apply posToOffset_endPos.
Qed.

Lemma cursor_policy_witness :
  let cfg := {| apiKey := lit "k"; enabledModels := [];
                triggerPhrase := lit ";;"; systemPrompt := [];
                cursorBehavior := ToEnd; responseStyle := Plain;
                personas := []; webSearchPolicy := Off;
                webSearchEngine := Auto |} in
  let s := run sampleParse cfg
             (processStreamingQuery cfg (hostOf sampleDoc) 1
                (getLine sampleDoc 1))
             ([Tick] ++ BodyStream :: inTwoChunks 30 helloWire ++ [Done]) in
  (cursor (host s) = Some (currentInsertPos s) /\
   ch (currentInsertPos s) = 0) /\
  cursor (host s) = Some (mkPos 4 0) /\
  lines (doc (host s))
  = [lit "notes"; lit "@openai/gpt-4o-mini Summarize "; []; lit "Hello"; []].
Proof.
  pose proof (@cursor_policy sampleParse
                {| apiKey := lit "k"; enabledModels := [];
                   triggerPhrase := lit ";;"; systemPrompt := [];
                   cursorBehavior := ToEnd; responseStyle := Plain;
                   personas := []; webSearchPolicy := Off;
                   webSearchEngine := Auto |}
                (hostOf sampleDoc) 1 [Tick] (inTwoChunks 30 helloWire)) as H.
  cbv zeta in H.
  assert (Hp : Proceeds
                 {| apiKey := lit "k"; enabledModels := [];
                    triggerPhrase := lit ";;"; systemPrompt := [];
                    cursorBehavior := ToEnd; responseStyle := Plain;
                    personas := []; webSearchPolicy := Off;
                    webSearchEngine := Auto |} (hostOf sampleDoc) 1).
  { split; [discriminate|].
    split; [vm_compute; lia|vm_compute; discriminate]. }
  specialize (H Hp eq_refl eq_refl).
  assert (Hne : deltasOf sampleParse (wireOf (inTwoChunks 30 helloWire)) <> [])
    by (vm_compute; discriminate).
  destruct (H Hne) as [_ HE].
  destruct (HE eq_refl) as (X & post & _ & _ & _ & _ & _ & _ & Hc & Hch & _).
  split; [split; assumption|].
  split; vm_compute; reflexivity.
Defined.

(** ** Error exits *)

Lemma clearTimer_stops (s : Invocation) :
  HasHandle s -> timerActive (clearTimer s) = false.
Proof.
  unfold HasHandle; proj.
  destruct (loadingInterval s); [reflexivity|].
  destruct (timerActive s); [intros H; discriminate (H eq_refl)|reflexivity].
Qed.

Lemma error_exit_cases (JSON_parse : str -> option OpenRouterResponse)
    (cfg : GhostSettings) (h : Host) (lineNum : nat) (lineText : str)
    (es later : list Event) (e : Event) :
  let s := run JSON_parse cfg
             (processStreamingQuery cfg h lineNum lineText) es in
  let s' := step JSON_parse cfg s e in
  let shown :=
    match e with
    | Throw => Some [lit "Streaming error."]
    | EmptyBody => Some []
    | HttpError status errorText =>
        Some [lit "Ghost Error: " ++ ofNumber status ++ lit " - "
                ++ substringTo 100 errorText]
    | _ => None
    end in
  match shown, phase s with
  | Some msgs, AwaitResponse | Some msgs, Reading =>
      (phase s = Reading -> e = Throw) ->
      timerActive s' = false /\ phase s' = Returned /\
      notices (host s') = notices (host s) ++ msgs /\
      doc (host s') = doc (host s) /\ edits (host s') = edits (host s) /\
      run JSON_parse cfg s' later = s'
  | _, _ => True
  end.
Proof.
  cbv zeta.
  pose proof (run_handle JSON_parse cfg h lineNum lineText es) as Hh.
  set (s := run JSON_parse cfg _ es) in *.
  pose proof (clearTimer_stops Hh) as Hc.
  assert (Ht : (if loadingInterval s then false else timerActive s) = false)
    by exact Hc.
  destruct e; try exact I; destruct (phase s) eqn:Hph; try exact I;
    intros Hr; try (discriminate (Hr eq_refl));
    unfold step; rewrite Hph;
    unfold onHttpError, onThrow; proj;
    rewrite ?app_nil_r;
    (split; [exact Ht|]); (split; [reflexivity|]); (split; [reflexivity|]);
    (split; [reflexivity|]); (split; [reflexivity|]);
    (apply run_returned; [reflexivity|exact Ht]).
Qed.

(** X4: every error exit stops the animator and leaves the document as it
    is.  At any point of any run, a rejected [fetch] or [read] shows
    'Streaming error.', and while the response is awaited an empty body
    shows nothing at all and a non-OK response shows its status and the
    first 100 characters of its text; in each case the timer is no longer
    scheduled, the function has returned, no edit is issued, and nothing
    that arrives later has any effect. *)
Theorem error_exits_stop_timer (JSON_parse : str -> option OpenRouterResponse)
    (cfg : GhostSettings) (h : Host) (lineNum : nat) (lineText : str)
    (es later : list Event) (status : N) (errorText : str) :
  let s := run JSON_parse cfg
             (processStreamingQuery cfg h lineNum lineText) es in
  let exits (e : Event) (msgs : list str) :=
    let s' := step JSON_parse cfg s e in
    timerActive s' = false /\ phase s' = Returned /\
    notices (host s') = notices (host s) ++ msgs /\
    doc (host s') = doc (host s) /\ edits (host s') = edits (host s) /\
    run JSON_parse cfg s' later = s' in
  (phase s = AwaitResponse \/ phase s = Reading ->
     exits Throw [lit "Streaming error."]) /\
  (phase s = AwaitResponse ->
     exits EmptyBody [] /\
     exits (HttpError status errorText)
       [lit "Ghost Error: " ++ ofNumber status ++ lit " - "
          ++ substringTo 100 errorText]).
Proof.
  cbv zeta.
  pose proof (@error_exit_cases JSON_parse cfg h lineNum lineText es later)
    as H; cbv zeta in H.
  set (s := run JSON_parse cfg _ es) in *.
  split.
  - intros [E|E]; specialize (H Throw); cbv iota in H; rewrite E in H;
      apply H; intros _; reflexivity.
  - intros E; split.
    + specialize (H EmptyBody); cbv iota in H; rewrite E in H.
      apply H; intros C; discriminate C.
    + specialize (H (HttpError status errorText)); cbv iota in H.
      rewrite E in H; apply H; intros C; discriminate C.
Qed.

Lemma error_exits_stop_timer_witness :
  let cfg := sampleSettings (lit "k") Plain in
  let s := run sampleParse cfg (sampleStart Plain)
             ([Tick; BodyStream; Chunk (firstn 60 helloWire)] ++ [Throw]) in
  timerActive s = false /\ phase s = Returned /\
  notices (host s) = [lit "Streaming error."] /\
  getLine (doc (host s)) 3 = lit "Hel".
Proof.
  pose proof (@error_exits_stop_timer sampleParse
                (sampleSettings (lit "k") Plain) (hostOf sampleDoc) 1
                (getLine sampleDoc 1)
                [Tick; BodyStream; Chunk (firstn 60 helloWire)] [] 0%N [])
    as H.
  cbv zeta in H; destruct H as [H _].
  assert (E : phase (run sampleParse (sampleSettings (lit "k") Plain)
                       (processStreamingQuery (sampleSettings (lit "k") Plain)
                          (hostOf sampleDoc) 1 (getLine sampleDoc 1))
                       [Tick; BodyStream; Chunk (firstn 60 helloWire)])
              = Reading) by (vm_compute; reflexivity).
  destruct (H (or_intror E)) as (H1 & H2 & _).
  cbv zeta; rewrite run_app.
  split; [exact H1|]. split; [exact H2|].
  split; vm_compute; reflexivity.
Defined.

(** ** The animation *)

Lemma ticks_frame (JSON_parse : str -> option OpenRouterResponse)
    (cfg : GhostSettings) (X post : str) (es : list Event) (s : Invocation) :
  lastSeg X = [] -> atLineEnd post = true ->
  forallb isTick es = true -> Waiting cfg X post s ->
  currentFrameIndex (run JSON_parse cfg s es)
  = (currentFrameIndex s + length es) mod 10 /\
  length (edits (host (run JSON_parse cfg s es)))
  = length (edits (host s)) + length es.
Proof.
  intros HX Hpost; revert s; induction es as [|e es IH]; intros s Hes W.
  - change (run JSON_parse cfg s []) with s; cbn [length].
    destruct W as (Hk & _).
    rewrite !Nat.add_0_r, Nat.mod_small by exact Hk; auto.
  - simpl in Hes; apply andb_true_iff in Hes as [He Hes].
    destruct e; try discriminate.
    change (run JSON_parse cfg s (Tick :: es))
      with (run JSON_parse cfg (step JSON_parse cfg s Tick) es).
    destruct (@tick_inv JSON_parse cfg X post HX Hpost [] s W) as (W1 & _).
    destruct (IH _ Hes W1) as [F L]; rewrite F, L.
    pose proof (@waiting_line cfg X post HX Hpost s W) as [Hlt Hline].
    destruct W as (Hk & _ & Hon & _).
    unfold step; rewrite Hon; unfold tick; proj.
    apply Nat.ltb_lt in Hlt; rewrite Hlt, Hline.
    rewrite spinnerLine_looks by exact Hk; proj.
    rewrite length_app; cbn [length].
    split; [|lia].
    change (length spinnerFrames) with 10.
    rewrite Nat.Div0.add_mod_idemp_l; f_equal; lia.
Qed.

(** X5: while the response is awaited the animation runs through the ten
    frames in order and round again: after [n] ticks the generation line
    holds frame [n mod 10] (behind ["> "] under callout style), each tick has
    issued exactly one edit, and the rest of the document is what the
    placeholder insertion left. *)
Theorem spinner_cycles (JSON_parse : str -> option OpenRouterResponse)
    (cfg : GhostSettings) (h : Host) (lineNum : nat) (ticks : list Event) :
  Proceeds cfg h lineNum ->
  forallb isTick ticks = true ->
  let style := responseStyle cfg in
  let s0 := processStreamingQuery cfg h lineNum (getLine (doc h) lineNum) in
  let s := run JSON_parse cfg s0 ticks in
  let n := length ticks in
  currentFrameIndex s = n mod 10 /\
  getLine (doc (host s)) (generationLine s)
  = spinnerPrefix style ++ getSpinnerText (n mod 10) /\
  length (edits (host s)) = length (edits (host s0)) + n /\
  exists X post,
    doc (host s0) = X ++ spinnerPrefix style ++ getSpinnerText 0 ++ post /\
    doc (host s)
    = X ++ spinnerPrefix style ++ getSpinnerText (n mod 10) ++ post.
Proof.
  intros Hp Ht style s0 s n.
  destruct (start_waiting Hp)
    as (X & post & HX & Hpost & Hcnt & W0 & _).
  fold s0 in W0.
  destruct (@ticks_waiting JSON_parse cfg X post HX Hpost ticks s0 Ht W0)
    as (W1 & _).
  destruct (@ticks_frame JSON_parse cfg X post ticks s0 HX Hpost Ht W0)
    as [F L].
  fold s in W1, F, L.
  assert (K0 : currentFrameIndex s0 = 0).
  { unfold s0, processStreamingQuery.
    destruct Hp as (Hkey & _ & Hfound).
    destruct (findModel (doc h) lineNum) as [[i m]|]; [|contradiction].
    destruct (apiKey cfg); [contradiction|reflexivity]. }
  rewrite K0 in F; simpl in F; fold n in F.
  destruct (@waiting_line cfg X post HX Hpost s W1) as [_ Hline].
  split; [exact F|]. split; [rewrite Hline, F; reflexivity|].
  split; [exact L|].
  exists X, post.
  destruct W0 as (_ & Hd0 & _), W1 as (_ & Hd1 & _).
  rewrite Hd0, Hd1, K0, F; unfold spinnerLine.
  rewrite <- !app_assoc; split; reflexivity.
Qed.

Lemma spinner_cycles_witness :
  let cfg := sampleSettings (lit "k") Callout in
  let s := run sampleParse cfg (sampleStart Callout) (repeat Tick 13) in
  currentFrameIndex s = 3 /\
  getLine (doc (host s)) 4 = lit "> " ++ getSpinnerText 3.
Proof.
  pose proof (@spinner_cycles sampleParse (sampleSettings (lit "k") Callout)
                (hostOf sampleDoc) 1 (repeat Tick 13)
                (sample_proceeds Callout) eq_refl) as H.
  cbv zeta in H; destruct H as (H1 & H2 & _).
  split; [exact H1|exact H2].
Defined.

(** ** The fallback of the first delta *)

Lemma getLine_last (d : Doc) : getLine d (countNL d) = lastSeg d.
Proof.
  pose proof (getLine_app_at d []) as H.
  rewrite !app_nil_r in H; exact H.
Qed.

Lemma append_at_end (d text : str) :
  replaceRange text
    (mkPos (lineCount d - 1) (length (getLine d (lineCount d - 1))))
    (mkPos (lineCount d - 1) (length (getLine d (lineCount d - 1)))) d
  = d ++ text.
Proof.
  rewrite lineCount_countNL; simpl; rewrite Nat.sub_0_r, getLine_last.
  pose proof (replaceRange_endPos d [] text) as H.
  rewrite !app_nil_r in H; exact H.
Qed.

Lemma endOfDoc (d : Doc) :
  mkPos (lineCount d - 1) (length (getLine d (lineCount d - 1))) = endPos d.
Proof.
  rewrite lineCount_countNL; simpl; rewrite Nat.sub_0_r, getLine_last.
  reflexivity.
Qed.

(** X6: when the generation line no longer exists as the first content
    arrives, nothing of the document is overwritten: the delta is appended
    at the very end, after a two-newline separator (and a quoted line start
    under callout style), the timer is stopped, and the tracked position is
    the end of the document, so that the next delta continues there. *)
Theorem fallback_appends_at_end (cfg : GhostSettings) (c c' : str)
    (s : Invocation) :
  isFirstChunk s = true -> HasHandle s ->
  lineCount (doc (host s)) <= generationLine s ->
  let style := responseStyle cfg in
  let s1 := onContent cfg c s in
  let s2 := onContent cfg c' s1 in
  doc (host s1) = doc (host s) ++ fallbackOf style c /\
  posToOffset (doc (host s1)) (currentInsertPos s1) = length (doc (host s1)) /\
  timerActive s1 = false /\ isFirstChunk s1 = false /\
  doc (host s2) = doc (host s) ++ fallbackOf style c ++ displayOf style c' /\
  posToOffset (doc (host s2)) (currentInsertPos s2) = length (doc (host s2)).
Proof.
  intros Hf Hh Hg style s1 s2.
  assert (E1 : doc (host s1) = doc (host s) ++ fallbackOf style c /\
               currentInsertPos s1 = endPos (doc (host s1)) /\
               timerActive s1 = false /\ isFirstChunk s1 = false).
  { subst s1; unfold onContent; rewrite Hf; proj.
    apply Nat.ltb_ge in Hg; rewrite Hg; proj.
    rewrite append_at_end, endOfDoc.
    repeat split; try reflexivity.
    exact (clearTimer_stops Hh). }
  destruct E1 as (D1 & P1 & T1 & F1).
  assert (E2 : doc (host s2) = doc (host s1) ++ displayOf style c' /\
               currentInsertPos s2 = endPos (doc (host s2))).
  { subst s2; unfold onContent; rewrite F1; proj; fold style.
    rewrite P1.
    pose proof (replaceRange_endPos (doc (host s1)) [] (displayOf style c')) as R.
    rewrite !app_nil_r in R; rewrite R, advance_endPos; auto. }
  destruct E2 as (D2 & P2).
  pose proof (posToOffset_endPos (doc (host s1)) []) as O1.
  pose proof (posToOffset_endPos (doc (host s2)) []) as O2.
  rewrite app_nil_r in O1, O2.
  rewrite P1, P2, O1, O2, D2, D1, <- app_assoc.
  repeat split; auto.
Qed.

Lemma fallback_appends_at_end_witness :
  let cfg := sampleSettings (lit "k") Callout in
  let s := onContent cfg (lit "lo") (onContent cfg (lit "Hel") truncatedState) in
  lines (doc (host s)) = [lit "kept"; lit "text"; []; []; lit "> Hello"] /\
  currentInsertPos s = mkPos 4 7.
Proof.
  pose proof (@fallback_appends_at_end (sampleSettings (lit "k") Callout)
                (lit "Hel") (lit "lo") truncatedState eq_refl
                (fun _ => eq_refl)) as H.
  cbv zeta in H.
  assert (Hg : lineCount (doc (host truncatedState))
               <= generationLine truncatedState) by (vm_compute; lia).
  destruct (H Hg) as (_ & _ & _ & _ & H5 & _).
  split; [rewrite H5|]; vm_compute; reflexivity.
Defined.

(** ** The end of the stream and the line fragment *)

Lemma onDone_with_buffer (cfg : GhostSettings) (b : str) (s : Invocation) :
  onDone cfg (with_buffer b s) = with_buffer b (onDone cfg s).
Proof.
  unfold onDone.
  change (collectedAnnotations (with_buffer b s))
    with (collectedAnnotations s).
  change (currentInsertPos (with_buffer b s)) with (currentInsertPos s).
  set (t1 := match collectedAnnotations s with
             | [] => with_buffer b s
             | _ => _
             end).
  set (s1 := match collectedAnnotations s with [] => s | _ => _ end).
  assert (E1 : t1 = with_buffer b s1).
  { subst s1 t1; destruct (collectedAnnotations s) as [|a0 rest];
      [reflexivity|].
    destruct (uniqueSourcesOf (a0 :: rest)); reflexivity. }
  clearbody s1 t1; subst t1.
  set (t2 := match responseStyle cfg with
             | HorizontalRule => _
             | _ => with_buffer b s1
             end).
  set (s2 := match responseStyle cfg with HorizontalRule => _ | _ => s1 end).
  assert (E2 : t2 = with_buffer b s2)
    by (subst s2 t2; destruct (responseStyle cfg); reflexivity).
  clearbody s2 t2; subst t2.
  destruct (cursorBehavior cfg); [reflexivity|].
  change (currentInsertPos (with_buffer b s2)) with (currentInsertPos s2).
  destruct (ch (currentInsertPos s2)); reflexivity.
Qed.

Lemma lastSeg_newline (x : str) : lastSeg (x ++ [NL]) = [].
Proof. rewrite lastSeg_app; reflexivity. Qed.

(** X7: a last line without its newline is lost.  The read loop keeps the
    text after the last newline for the next chunk, and the end of the
    stream discards it: when the body ends in a fragment without a newline,
    the outcome is that of the body without the fragment, whatever the
    fragment holds, except for the fragment itself left in the variable; no
    content, citation or notice ever comes from it. *)
Theorem unterminated_line_is_dropped
    (JSON_parse : str -> option OpenRouterResponse) (cfg : GhostSettings)
    (s : Invocation) (wire fragment : str) :
  phase s = Reading -> countNL fragment = 0 ->
  let whole_ := run JSON_parse cfg s [Chunk (wire ++ [NL]); Done] in
  let cut := run JSON_parse cfg s [Chunk (wire ++ [NL] ++ fragment); Done] in
  cut = with_buffer fragment whole_ /\
  host cut = host whole_ /\
  collectedAnnotations cut = collectedAnnotations whole_ /\
  buffer whole_ = [].
Proof.
  intros Hp Hf whole_ cut.
  set (s1 := onChunk JSON_parse cfg (wire ++ [NL]) s).
  assert (P1 : phase s1 = Reading)
    by (unfold s1, onChunk; rewrite processLines_phase; exact Hp).
  assert (B1 : buffer s1 = []).
  { unfold s1; rewrite onChunk_buffer, app_assoc; apply lastSeg_newline. }
  assert (W : whole_ = onDone cfg s1).
  { unfold whole_, run; cbn [fold_left].
    unfold step at 2; rewrite Hp; fold s1.
    unfold step; rewrite P1; reflexivity. }
  assert (C1 : onChunk JSON_parse cfg (wire ++ [NL] ++ fragment) s
               = with_buffer fragment s1).
  { rewrite app_assoc, <- onChunk_compose; fold s1.
    unfold onChunk; rewrite B1; cbn [app].
    rewrite (split_noNL _ Hf); reflexivity. }
  assert (C : cut = with_buffer fragment whole_).
  { unfold cut, run; cbn [fold_left].
    unfold step at 2; rewrite Hp, C1.
    unfold step; change (phase (with_buffer fragment s1)) with (phase s1).
    rewrite P1, W; apply onDone_with_buffer. }
  split; [exact C|].
  rewrite C; split; [reflexivity|]. split; [reflexivity|].
  rewrite W.
  pose proof (onDone_with_buffer cfg [] s1) as E.
  rewrite <- B1 in E at 1; rewrite with_buffer_same in E.
  rewrite E; reflexivity.
Qed.

Lemma unterminated_line_is_dropped_witness :
  let cfg := sampleSettings (lit "k") Plain in
  let s := run sampleParse cfg (sampleStart Plain) [BodyStream] in
  let cut := run sampleParse cfg s [Chunk cutWire; Done] in
  getLine (doc (host cut)) (generationLine cut) = lit "Hel" /\
  buffer cut = lit "data: " ++ jsonContent (lit "lo").
Proof.
  pose proof (@unterminated_line_is_dropped sampleParse
                (sampleSettings (lit "k") Plain)
                (run sampleParse (sampleSettings (lit "k") Plain)
                   (sampleStart Plain) [BodyStream])
                (lit "data: " ++ jsonContent (lit "Hel") ++ [NL])
                (lit "data: " ++ jsonContent (lit "lo"))
                eq_refl eq_refl) as H.
  cbv zeta in H; destruct H as (H1 & _).
  cbv zeta.
  assert (E : cutWire
              = (lit "data: " ++ jsonContent (lit "Hel") ++ [NL]) ++ [NL]
                  ++ lit "data: " ++ jsonContent (lit "lo"))
    by (vm_compute; reflexivity).
  rewrite E, H1.
  split; vm_compute; reflexivity.
Defined.

(** ** What the invocation does to the document before the request *)

Lemma getLine_app_before (a b : str) (j : nat) :
  j < countNL a -> getLine (a ++ b) j = getLine a j.
Proof.
  unfold getLine, lines; revert j; induction a as [|c a IH]; intros j Hj.
  - simpl in Hj; lia.
  - rewrite <- app_comm_cons, (split_cons c (a ++ b)), (split_cons c a).
    simpl in Hj; destruct (isNL c).
    + destruct j as [|j]; [reflexivity|]; simpl; apply IH; lia.
    + destruct j as [|j]; simpl.
      * f_equal.
        specialize (IH 0 ltac:(lia)).
        destruct (split (a ++ b)), (split a); simpl in *; auto.
      * specialize (IH (S j) ltac:(lia)).
        destruct (split (a ++ b)) as [|x r] eqn:E1;
          [exfalso; exact (@split_nonempty _ E1)|].
        destruct (split a) as [|y t] eqn:E2;
          [exfalso; exact (@split_nonempty _ E2)|].
        exact IH.
Qed.

Lemma endsWith_split (s p : str) :
  endsWith s p = true -> s = sliceEnd (length p) s ++ p.
Proof.
  unfold endsWith, sliceEnd; intros H.
  apply andb_true_iff in H as [_ H]; apply str_eqb_eq in H.
  transitivity (firstn (length s - length p) s
                  ++ skipn (length s - length p) s);
    [symmetry; apply firstn_skipn|f_equal; exact H].
Qed.

(** X8: the synchronous part of an invocation changes the invocation line and
    nothing else.  It removes the trigger phrase once from the end of that
    line when the line ends with it, keeping the prompt text, and inserts the
    style's prefix and spinner frame 0 right after: the lines above are
    untouched, the lines below move down by the style's offset (2, 4 or 3),
    the generation line holds the placeholder, and exactly these one or two
    edits are issued. *)
Theorem placeholder_insertion (cfg : GhostSettings) (h : Host) (lineNum : nat) :
  Proceeds cfg h lineNum ->
  let lineText := getLine (doc h) lineNum in
  let trig := triggerPhrase cfg in
  let rm := endsWith lineText trig in
  let kept := if rm then sliceEnd (length trig) lineText else lineText in
  let style := responseStyle cfg in
  let placeholder := prefix style ++ getSpinnerText 0 in
  let s := processStreamingQuery cfg h lineNum lineText in
  let d' := doc (host s) in
  (rm = true -> lineText = kept ++ trig) /\
  (exists above below,
     doc h = above ++ lineText ++ below /\
     d' = above ++ kept ++ placeholder ++ below /\
     countNL above = lineNum /\ atLineEnd below = true) /\
  (forall j, j < lineNum -> getLine d' j = getLine (doc h) j) /\
  getLine d' lineNum = kept /\
  generationLine s = lineNum + generationLineOffset style /\
  getLine d' (generationLine s) = spinnerPrefix style ++ getSpinnerText 0 /\
  (forall j, lineNum < j ->
     getLine d' (j + generationLineOffset style) = getLine (doc h) j) /\
  lineCount d' = lineCount (doc h) + generationLineOffset style /\
  edits (host s)
  = edits h
      ++ (if rm
          then [{| edit_text := [];
                   edit_from := mkPos lineNum (length kept);
                   edit_to := mkPos lineNum (length lineText) |}]
          else [])
      ++ [{| edit_text := placeholder;
             edit_from := mkPos lineNum (length kept);
             edit_to := mkPos lineNum (length kept) |}].
Proof.
  intros Hp lineText trig rm kept style placeholder s d'.
  pose proof Hp as (Hkey & Hline & Hfound).
  rewrite lineCount_countNL in Hline.
  destruct (@doc_cut (doc h) lineNum ltac:(lia))
    as (a & b & Hd & Ha & Hs & Hn & Hb).
  fold lineText in Hd, Hn.
  assert (Hrm : rm = true -> lineText = kept ++ trig).
  { intros E; subst kept; rewrite E; apply endsWith_split, E. }
  assert (Hkl : length kept
                = if rm then length lineText - length trig
                  else length lineText).
  { subst kept; destruct rm eqn:E; [|reflexivity].
    unfold sliceEnd; rewrite length_firstn; lia. }
  assert (Hkf : kept = firstn (length kept) lineText).
  { subst kept; destruct rm eqn:E.
    - unfold sliceEnd; rewrite length_firstn, Nat.min_l by lia; reflexivity.
    - rewrite firstn_all; reflexivity. }
  assert (Hkn : countNL kept = 0)
    by (rewrite Hkf; apply countNL_firstn_noNL, Hn).
  assert (Hle : length kept <= length lineText)
    by (rewrite Hkl; destruct rm; lia).
  assert (Hdoc : d' = a ++ kept ++ placeholder ++ b /\
                 edits (host s)
                 = edits h
                     ++ (if rm
                         then [{| edit_text := [];
                                  edit_from := mkPos lineNum (length kept);
                                  edit_to := mkPos lineNum (length lineText) |}]
                         else [])
                     ++ [{| edit_text := placeholder;
                            edit_from := mkPos lineNum (length kept);
                            edit_to := mkPos lineNum (length kept) |}] /\
                 generationLine s = lineNum + generationLineOffset style).
  { subst d' s; unfold processStreamingQuery.
    destruct (findModel (doc h) lineNum) as [[i m]|]; [|contradiction].
    destruct (apiKey cfg) as [|k0 key]; [contradiction|].
    cbn [isEmpty]; fold lineText trig rm; rewrite <- Hkl.
    fold style placeholder.
    destruct rm eqn:Er; proj.
    - rewrite Hd, <- Ha, replaceRange_line by (auto; lia).
      rewrite skipn_all, <- Hkf; cbn [app].
      rewrite (@replaceRange_line a kept b _ _ _ Hs Hkn) by lia.
      rewrite firstn_all, skipn_all; cbn [app].
      rewrite <- app_assoc; auto.
    - assert (E : kept = lineText) by reflexivity.
      rewrite E in *.
      rewrite Hd, <- Ha, replaceRange_line by (auto; lia).
      rewrite firstn_all, skipn_all; cbn [app]; auto. }
  destruct Hdoc as (Hd' & Hed & Hg).
  destruct (prefixHead_lines style) as [Hcnt Hlast].
  assert (Hph : atLineEnd (placeholder ++ b) = true)
    by (unfold placeholder, style; destruct (responseStyle cfg); reflexivity).
  split; [exact Hrm|].
  split; [exists a, b; auto|].
  split.
  { intros j Hj; rewrite Hd', Hd, !getLine_app_before by lia; reflexivity. }
  split.
  { rewrite Hd', <- Ha, getLine_app_at, Hs; cbn [app].
    apply getLine_first; assumption. }
  split; [exact Hg|].
  split.
  { rewrite Hg, Hd'; unfold placeholder.
    rewrite prefix_split.
    replace (a ++ kept ++ ((prefixHead style ++ spinnerPrefix style)
                             ++ getSpinnerText 0) ++ b)
      with ((a ++ kept ++ prefixHead style)
              ++ (spinnerPrefix style ++ getSpinnerText 0) ++ b)
      by (rewrite <- !app_assoc; reflexivity).
    assert (C : countNL (a ++ kept ++ prefixHead style)
                = lineNum + generationLineOffset style)
      by (rewrite !countNL_app, Ha, Hkn, Hcnt; lia).
    rewrite <- C, getLine_app_at.
    rewrite (app_assoc a kept), lastSeg_app, Hcnt, Hlast.
    assert (Z : (generationLineOffset style =? 0) = false)
      by (unfold style; destruct (responseStyle cfg); reflexivity).
    rewrite Z; cbn [app].
    apply getLine_first; [|exact Hb].
    apply (@spinnerLine_noNL style 0); lia. }
  split.
  { intros j Hj.
    set (k := j - lineNum - 1).
    assert (R : getLine (doc h) j = getLine b (S k)).
    { replace j with (countNL a + S k) by (subst k; lia).
      rewrite Hd, getLine_app_after.
      pose proof (getLine_app_after lineText b k) as G.
      rewrite Hn in G; exact G. }
    assert (C : countNL (a ++ kept ++ placeholder)
                = lineNum + generationLineOffset style).
    { unfold placeholder; rewrite prefix_split, !countNL_app, Ha, Hkn, Hcnt.
      pose proof (@spinnerLine_noNL style 0 ltac:(lia)) as Z.
      unfold spinnerLine in Z; rewrite countNL_app in Z; lia. }
    rewrite R, Hd'.
    replace (a ++ kept ++ placeholder ++ b)
      with ((a ++ kept ++ placeholder) ++ b)
      by (rewrite <- !app_assoc; reflexivity).
    replace (j + generationLineOffset style)
      with (countNL (a ++ kept ++ placeholder) + S k)
      by (rewrite C; subst k; lia).
    apply getLine_app_after. }
  split; [|exact Hed].
  rewrite Hd', Hd, !lineCount_countNL, !countNL_app, Hkn, Hn.
  unfold placeholder; rewrite prefix_split, !countNL_app, Hcnt.
  pose proof (@spinnerLine_noNL style 0 ltac:(lia)) as Z.
  unfold spinnerLine in Z; rewrite countNL_app in Z; lia.
Qed.

Lemma placeholder_insertion_witness :
  let s := sampleStart HorizontalRule in
  lines (doc (host s))
  = [lit "notes"; lit "@openai/gpt-4o-mini Summarize "; []; lit "---"; [];
     getSpinnerText 0] /\
  generationLine s = 5.
Proof.
  pose proof (@placeholder_insertion (sampleSettings (lit "k") HorizontalRule)
                (hostOf sampleDoc) 1 (sample_proceeds HorizontalRule)) as H.
  cbv zeta in H; destruct H as (_ & _ & _ & _ & Hg & _).
  split; [vm_compute; reflexivity|exact Hg].
Defined.

(** ** What the request carries *)

Lemma offsetAt_origin (d : Doc) : offsetAt d 0 0 = 0.
Proof. destruct d as [|x d]; simpl; [|destruct (isNL x)]; reflexivity. Qed.

Lemma getRange_between (x y z : str) (p q : EditorPosition) :
  posToOffset (x ++ y ++ z) p = length x ->
  posToOffset (x ++ y ++ z) q = length x + length y ->
  getRange (x ++ y ++ z) p q = y.
Proof.
  intros Hp Hq; unfold getRange; cbv zeta; rewrite Hp, Hq.
  replace (length x + length y - length x) with (length y) by lia.
  rewrite skipn_app, skipn_all, Nat.sub_diag, skipn_O; cbn [app].
  rewrite firstn_app, firstn_all, Nat.sub_diag, firstn_O, app_nil_r.
  reflexivity.
Qed.

Lemma firstn_three (pre w post : str) (k : nat) :
  length pre + length w <= k ->
  firstn k (pre ++ w ++ post)
  = pre ++ w ++ firstn (k - (length pre + length w)) post.
Proof.
  intros H.
  rewrite firstn_app, firstn_all2 by lia; f_equal.
  rewrite firstn_app, firstn_all2 by lia; f_equal.
  f_equal; lia.
Qed.

(** A match of the pattern cuts its line in three. *)
Lemma reference_in_line (ln : str) (m : RegExpMatch) :
  isReference ln m ->
  index m + length (whole m) <= length ln /\
  ln = firstn (index m) ln ++ whole m
         ++ skipn (index m + length (whole m)) ln.
Proof.
  intros (Hw & Hne & _ & Htxt & _).
  pose proof (f_equal (@length char) Htxt) as L.
  rewrite length_firstn, length_skipn in L.
  assert (P : 1 <= length (whole m)) by (rewrite Hw; simpl; lia).
  split; [lia|].
  transitivity (firstn (index m) ln ++ skipn (index m) ln);
    [symmetry; apply firstn_skipn|].
  f_equal.
  transitivity (firstn (length (whole m)) (skipn (index m) ln)
                  ++ skipn (length (whole m)) (skipn (index m) ln));
    [symmetry; apply firstn_skipn|].
  rewrite Htxt, skipn_skipn, (Nat.add_comm (length (whole m))).
  reflexivity.
Qed.

Lemma getLine_after_newline (d : Doc) (k : nat) :
  getLine (NL :: d) (S k) = getLine d k.
Proof. unfold getLine, lines; rewrite split_cons; reflexivity. Qed.

(** Two lines of a document, the text before the first and the text between
    them. *)
Lemma doc_cut2 (d : Doc) (i n : nat) :
  i < n -> n <= countNL d ->
  exists a mid b,
    d = a ++ getLine d i ++ (NL :: mid) ++ getLine d n ++ b /\
    countNL a = i /\ lastSeg a = [] /\ countNL (getLine d i) = 0 /\
    countNL (a ++ getLine d i ++ NL :: mid) = n /\
    lastSeg (a ++ getLine d i ++ NL :: mid) = [] /\
    countNL (getLine d n) = 0 /\ atLineEnd b = true.
Proof.
  intros Hin Hn.
  destruct (@doc_cut d i ltac:(lia)) as (a & b1 & Hd & Ha & Hs & Hl & Hb1).
  remember (getLine d i) as li eqn:Eli.
  pose proof (f_equal countNL Hd) as Hc.
  rewrite !countNL_app, Ha, Hl in Hc.
  destruct b1 as [|c d2]; [simpl in Hc; lia|].
  simpl in Hb1; apply N.eqb_eq in Hb1; subst c.
  change (countNL (NL :: d2)) with (1 + countNL d2) in Hc.
  set (k := n - i - 1).
  assert (Gn : getLine d n = getLine d2 k).
  { rewrite Hd.
    replace n with (countNL (a ++ li) + S k)
      by (rewrite countNL_app, Ha, Hl; subst k; lia).
    rewrite app_assoc, getLine_app_after.
    apply getLine_after_newline. }
  destruct (@doc_cut d2 k ltac:(subst k; lia))
    as (a2 & b & Hd2 & Ha2 & Hs2 & Hl2 & Hb).
  rewrite <- Gn in Hd2, Hl2.
  exists a, a2, b.
  assert (C : countNL (a ++ li ++ NL :: a2) = n).
  { rewrite !countNL_app, Ha, Hl.
    change (countNL (NL :: a2)) with (1 + countNL a2).
    rewrite Ha2; subst k; lia. }
  split.
  { rewrite Hd at 1; rewrite Hd2 at 1; reflexivity. }
  repeat split; try assumption.
  rewrite app_assoc, lastSeg_app.
  change (countNL (NL :: a2)) with (1 + countNL a2).
  cbn [Nat.add Nat.eqb].
  rewrite lastSeg_cons; exact Hs2.
Qed.

Lemma kept_prefix (lineText trig : str) :
  let rm := endsWith lineText trig in
  let kept := if rm then sliceEnd (length trig) lineText else lineText in
  lineText = kept ++ (if rm then trig else []) /\
  length kept
  = (if rm then length lineText - length trig else length lineText) /\
  kept = firstn (length kept) lineText.
Proof.
  intros rm kept; subst kept; destruct rm eqn:E.
  - split; [apply endsWith_split, E|].
    unfold sliceEnd; rewrite length_firstn.
    split; [lia|].
    rewrite Nat.min_l by lia; reflexivity.
  - rewrite app_nil_r, firstn_all; auto.
Qed.

(** The reference, the prompt and the trigger phrase in the document: the
    three places the invocation reads, as offsets. *)
Lemma prompt_cut (d : Doc) (lineNum i : nat) (m : RegExpMatch) (trig : str) :
  lineNum <= countNL d -> i <= lineNum ->
  isReference (getLine d i) m ->
  let lineText := getLine d lineNum in
  let rm := endsWith lineText trig in
  let kept := if rm then sliceEnd (length trig) lineText else lineText in
  (i = lineNum -> index m + length (whole m) <= length kept) ->
  exists context raw below,
    d = context ++ whole m ++ raw ++ (if rm then trig else []) ++ below /\
    endPos context = mkPos i (index m) /\
    countNL (context ++ whole m ++ raw) = lineNum /\
    atLineEnd below = true /\
    posToOffset d (mkPos i (index m)) = length context /\
    posToOffset d (mkPos i (index m + length (whole m)))
    = length context + length (whole m) /\
    posToOffset d (mkPos lineNum (length kept))
    = (length context + length (whole m)) + length raw.
Proof.
  intros Hline Hi R lineText rm kept Hov.
  destruct (kept_prefix lineText trig) as (Ht & Hkl & Hkf).
  fold rm kept in Ht, Hkl, Hkf.
  assert (Hle : length kept <= length lineText)
    by (rewrite Hkl; destruct rm; lia).
  destruct (reference_in_line R) as (Hin & Hcut).
  set (pre := firstn (index m) (getLine d i)) in *.
  set (post := skipn (index m + length (whole m)) (getLine d i)) in *.
  assert (Lpre : length pre = index m)
    by (subst pre; rewrite length_firstn; lia).
  unfold posToOffset; cbn [line ch].
  destruct (Nat.eq_dec i lineNum) as [E|E].
  - subst i; specialize (Hov eq_refl).
    destruct (@doc_cut d lineNum Hline) as (a & b & Hd & Ha & Hs & Hn & Hb).
    fold lineText in Hd, Hn, Hcut, Hin, pre, post.
    assert (Hk : kept = pre ++ whole m ++ firstn (length kept - (length pre + length (whole m))) post).
    { rewrite Hkf at 1; rewrite Hcut at 1.
      apply firstn_three; lia. }
    set (raw := firstn (length kept - (length pre + length (whole m))) post) in *.
    assert (Np : countNL pre = 0)
      by (subst pre; apply countNL_firstn_noNL, Hn).
    assert (Nk : countNL kept = 0)
      by (rewrite Hkf; apply countNL_firstn_noNL, Hn).
    exists (a ++ pre), raw, b.
    split.
    { rewrite Hd at 1; rewrite Ht at 1; rewrite Hk at 1.
      rewrite <- !app_assoc; reflexivity. }
    split.
    { unfold endPos; rewrite countNL_app, lastSeg_app, Np, Ha, Hs.
      cbn [Nat.eqb app]; rewrite Lpre, Nat.add_0_r; reflexivity. }
    split.
    { replace ((a ++ pre) ++ whole m ++ raw) with (a ++ kept)
        by (rewrite Hk at 1; rewrite <- !app_assoc; reflexivity).
      rewrite countNL_app, Ha, Nk; lia. }
    split; [exact Hb|].
    rewrite Hd, <- Ha, !offsetAt_cut by (auto; lia).
    rewrite (f_equal (@length char) Hk), !length_app; lia.
  - destruct (@doc_cut2 d i lineNum ltac:(lia) Hline)
      as (a & mid & b & Hd & Ha & Hs & Hl & Ha2 & Hs2 & Hn & Hb).
    fold lineText in Hd, Hn.
    set (li := getLine d i) in *.
    assert (Nk : countNL kept = 0)
      by (rewrite Hkf; apply countNL_firstn_noNL, Hn).
    exists (a ++ pre), (post ++ (NL :: mid) ++ kept), b.
    assert (Hd' : d = (a ++ li ++ NL :: mid) ++ lineText ++ b)
      by (rewrite Hd at 1; rewrite <- !app_assoc; reflexivity).
    split.
    { rewrite Hd at 1; rewrite Hcut at 1; rewrite Ht at 1.
      rewrite <- !app_assoc; reflexivity. }
    split.
    { unfold endPos; rewrite countNL_app, lastSeg_app.
      assert (Np : countNL pre = 0)
        by (subst pre; apply countNL_firstn_noNL, Hl).
      rewrite Np, Ha, Hs.
      cbn [Nat.eqb app]; rewrite Lpre, Nat.add_0_r; reflexivity. }
    split.
    { replace ((a ++ pre) ++ whole m ++ post ++ (NL :: mid) ++ kept)
        with ((a ++ (pre ++ whole m ++ post) ++ NL :: mid) ++ kept)
        by (rewrite <- !app_assoc; reflexivity).
      rewrite <- Hcut, countNL_app, Ha2, Nk; lia. }
    split; [exact Hb|].
    split.
    { rewrite Hd, <- Ha, offsetAt_cut by (auto; lia).
      rewrite length_app; lia. }
    split.
    { rewrite Hd, <- Ha, offsetAt_cut by (auto; lia).
      rewrite length_app; lia. }
    rewrite Hd', <- Ha2, offsetAt_cut by (auto; lia).
    pose proof (f_equal (@length char) Hcut) as Lc.
    rewrite !length_app in Lc.
    rewrite ?length_app; cbn [length]; rewrite ?length_app; lia.
Qed.

(** The one request of an invocation that proceeds. *)
Lemma request_sent (cfg : GhostSettings) (h : Host) (lineNum i : nat)
    (m : RegExpMatch) :
  apiKey cfg <> [] ->
  findModel (doc h) lineNum = Some (i, m) ->
  let lineText := getLine (doc h) lineNum in
  let rm := endsWith lineText (triggerPhrase cfg) in
  let kept :=
    if rm then sliceEnd (length (triggerPhrase cfg)) lineText else lineText in
  let context := getRange (doc h) (mkPos 0 0) (mkPos i (index m)) in
  let prompt :=
    trim (getRange (doc h) (mkPos i (index m + length (whole m)))
            (mkPos lineNum (length kept))) in
  requests (host (processStreamingQuery cfg h lineNum lineText))
  = requests h
      ++ [buildRequest cfg (group1 m) context (stripWeb prompt)
            (endsWith prompt webMarker)].
Proof.
  intros Hkey Hf lineText rm kept context prompt.
  destruct (kept_prefix lineText (triggerPhrase cfg)) as (_ & Hkl & _).
  fold rm kept in Hkl.
  assert (Ek : isEmpty (apiKey cfg) = false)
    by (destruct (apiKey cfg); [contradiction|reflexivity]).
  unfold processStreamingQuery; rewrite Hf, Ek.
  fold lineText rm; rewrite <- Hkl; fold context prompt.
  destruct rm; proj; reflexivity.
Qed.

(** X9: what the request carries.  When the trigger phrase does not reach
    into the reference, the note is, in order, the context, the reference,
    the raw prompt, the trigger phrase if the line ends with it, and the rest;
    the context ends right before the reference, the raw prompt ends on the
    invocation line, the user message is the raw prompt trimmed and with one
    trailing [+web] stripped, the system message ends with the context under
    its header, and the web plugin is requested always, never, or exactly
    when the trimmed prompt ends with [+web], as the policy says. *)
Theorem request_anatomy (cfg : GhostSettings) (h : Host) (lineNum i : nat)
    (m : RegExpMatch) :
  Proceeds cfg h lineNum ->
  findModel (doc h) lineNum = Some (i, m) ->
  let lineText := getLine (doc h) lineNum in
  let trig := triggerPhrase cfg in
  let rm := endsWith lineText trig in
  let kept := if rm then sliceEnd (length trig) lineText else lineText in
  (i = lineNum -> index m + length (whole m) <= length kept) ->
  let s := processStreamingQuery cfg h lineNum lineText in
  exists context raw below r,
    doc h = context ++ whole m ++ raw ++ (if rm then trig else []) ++ below /\
    endPos context = mkPos i (index m) /\
    countNL (context ++ whole m ++ raw) = lineNum /\
    atLineEnd below = true /\
    requests (host s) = requests h ++ [r] /\
    req_user r = stripWeb (trim raw) /\
    (exists instruction,
       req_system r = instruction ++ contextHeader ++ context) /\
    req_plugins r
    = match webSearchPolicy cfg with
      | Always => Some (engineField cfg)
      | Trigger =>
          if endsWith (trim raw) webMarker then Some (engineField cfg)
          else None
      | Off => None
      end.
Proof.
  intros (Hkey & Hline & _) Hf lineText trig rm kept Hov s.
  rewrite lineCount_countNL in Hline.
  pose proof (findModel_spec (doc h) lineNum) as F.
  rewrite Hf in F; destruct F as (Hi & _ & Hlast).
  pose proof (@matchAll_sound _ _ (@lastMatchOf_In _ _ Hlast)) as R.
  destruct (@prompt_cut (doc h) lineNum i m trig ltac:(lia) Hi R Hov)
    as (context & raw & below & Hd & Hend & Hcnt & Hb & O1 & O2 & O3).
  fold lineText rm kept in Hd, O3.
  assert (G1 : getRange (doc h) (mkPos 0 0) (mkPos i (index m)) = context).
  { pose proof (@getRange_between [] context
                  (whole m ++ raw ++ (if rm then trig else []) ++ below)
                  (mkPos 0 0) (mkPos i (index m))) as G.
    cbn [app length Nat.add] in G; rewrite <- Hd in G.
    apply G; [apply offsetAt_origin|exact O1]. }
  assert (G2 : getRange (doc h) (mkPos i (index m + length (whole m)))
                 (mkPos lineNum (length kept)) = raw).
  { pose proof (@getRange_between (context ++ whole m) raw
                  ((if rm then trig else []) ++ below)
                  (mkPos i (index m + length (whole m)))
                  (mkPos lineNum (length kept))) as G.
    rewrite <- app_assoc, <- Hd, length_app in G.
    apply G; [exact O2|exact O3]. }
  pose proof (@request_sent cfg h lineNum i m Hkey Hf) as Q.
  cbv zeta in Q; fold lineText trig rm kept in Q; rewrite G1, G2 in Q.
  exists context, raw, below.
  eexists; split; [exact Hd|].
  split; [exact Hend|]. split; [exact Hcnt|]. split; [exact Hb|].
  split; [exact Q|].
  split; [reflexivity|].
  split.
  - unfold buildRequest; cbn [req_system].
    match goal with
    | |- context [isEmpty ?x] =>
        destruct (isEmpty x); [exists []; reflexivity|]
    end.
    eexists; rewrite app_assoc; reflexivity.
  - unfold buildRequest, engineField; cbn [req_plugins].
    destruct (webSearchPolicy cfg); try reflexivity.
Qed.

Lemma request_anatomy_witness :
  exists context raw below r,
    personaDoc = context ++ lit "@coach" ++ raw ++ lit ";;" ++ below /\
    endPos context = mkPos 1 4 /\
    countNL (context ++ lit "@coach" ++ raw) = 2 /\
    atLineEnd below = true /\
    requests (host (processStreamingQuery personaSettings (hostOf personaDoc)
                      2 (getLine personaDoc 2)))
    = [r] /\
    req_user r = stripWeb (trim raw) /\
    (exists instruction,
       req_system r = instruction ++ contextHeader ++ context) /\
    req_plugins r
    = (if endsWith (trim raw) webMarker then Some (Some Exa) else None).
Proof.
  apply (@request_anatomy personaSettings (hostOf personaDoc) 2 1 coachMatch).
  - split; [discriminate|].
    split; [vm_compute; lia|vm_compute; discriminate].
  - vm_compute; reflexivity.
  - intros E; discriminate E.
Defined.

(** X10: how the reference is resolved.  The reference is a non-empty run of
    pattern characters, so only a persona with such a name can be chosen;
    the first persona of that name wins and later ones are never used; the
    request then goes to the persona's model with the persona's system
    prompt, the global system prompt being dropped even when the persona's
    is empty; without such a persona the reference itself is the model and
    the global system prompt is used.  An empty instruction leaves only the
    context block. *)
Theorem persona_resolution (cfg : GhostSettings) (h : Host) (lineNum i : nat)
    (m : RegExpMatch) :
  Proceeds cfg h lineNum ->
  findModel (doc h) lineNum = Some (i, m) ->
  let s := processStreamingQuery cfg h lineNum (getLine (doc h) lineNum) in
  let block (instruction context : str) :=
    (if isEmpty instruction then [] else instruction ++ [NL; NL])
      ++ contextHeader ++ context in
  exists r context,
    requests (host s) = requests h ++ [r] /\
    req_authorization r = lit "Bearer " ++ apiKey cfg /\
    group1 m <> [] /\ forallb isTok (group1 m) = true /\
    match findPersona (personas cfg) (group1 m) with
    | Some p =>
        persona_name p = group1 m /\
        (exists before after,
           personas cfg = before ++ p :: after /\
           forall q, In q before -> persona_name q <> group1 m) /\
        req_model r = persona_model p /\
        req_system r = block (persona_systemPrompt p) context
    | None =>
        (forall q, In q (personas cfg) -> persona_name q <> group1 m) /\
        req_model r = group1 m /\
        req_system r = block (systemPrompt cfg) context
    end.
Proof.
  intros (Hkey & _ & _) Hf s block.
  pose proof (findModel_spec (doc h) lineNum) as F.
  rewrite Hf in F; destruct F as (_ & _ & Hlast).
  pose proof (@matchAll_sound _ _ (@lastMatchOf_In _ _ Hlast))
    as (_ & Hne & Htok & _).
  pose proof (@request_sent cfg h lineNum i m Hkey Hf) as Q.
  cbv zeta in Q.
  set (ctx := getRange (doc h) (mkPos 0 0) (mkPos i (index m))) in Q.
  eexists; exists ctx; split; [exact Q|].
  split; [reflexivity|]. split; [exact Hne|]. split; [exact Htok|].
  unfold buildRequest, findPersona, block; cbn [req_model req_system].
  set (ps := personas cfg); clearbody ps ctx.
  clear Q Hlast Hf s.
  induction ps as [|q ps IH]; cbn [find].
  - split; [intros q []|].
    split; [reflexivity|].
    destruct (systemPrompt cfg);
        [reflexivity|cbn [isEmpty]; rewrite <- app_assoc; reflexivity].
  - destruct (str_eqb (persona_name q) (group1 m)) eqn:E.
    + apply str_eqb_eq in E.
      split; [exact E|].
      split; [exists [], ps; split; [reflexivity|intros x []]|].
      split; [reflexivity|].
      destruct (persona_systemPrompt q);
        [reflexivity|cbn [isEmpty]; rewrite <- app_assoc; reflexivity].
    + assert (Hq : persona_name q <> group1 m).
      { intros C; rewrite C, str_eqb_refl in E; discriminate. }
      destruct (find (fun p => str_eqb (persona_name p) (group1 m)) ps)
        as [p|].
      * destruct IH as (Hn & (before & after & Hps & Hb) & Hm & Hs).
        split; [exact Hn|].
        split; [|split; [exact Hm|exact Hs]].
        exists (q :: before), after; split; [rewrite Hps; reflexivity|].
        intros x [<-|Hx]; [exact Hq|exact (Hb x Hx)].
      * destruct IH as (Hall & Hm & Hs).
        split; [|split; [exact Hm|exact Hs]].
        intros x [<-|Hx]; [exact Hq|exact (Hall x Hx)].
Qed.

Lemma persona_resolution_witness :
  exists r context,
    requests (host (processStreamingQuery personaSettings (hostOf personaDoc)
                      2 (getLine personaDoc 2)))
    = [r] /\
    req_authorization r = lit "Bearer k" /\
    lit "coach" <> [] /\ forallb isTok (lit "coach") = true /\
    persona_name coach = lit "coach" /\
    (exists before after,
       [coach; shadowedCoach] = before ++ coach :: after /\
       forall q, In q before -> persona_name q <> lit "coach") /\
    req_model r = lit "openai/gpt-4o" /\
    req_system r = contextHeader ++ context.
Proof.
  apply (@persona_resolution personaSettings (hostOf personaDoc) 2 1
           coachMatch).
  - split; [discriminate|].
    split; [vm_compute; lia|vm_compute; discriminate].
  - vm_compute; reflexivity.
Defined.

(** ** The sources map, for any annotations *)

(** X11: the sources collected during a stream form a map from URL to title,
    whatever the annotations were: no URL is listed twice, the URLs listed are
    exactly the cited ones, an annotation without a citation changes nothing,
    and a further citation puts its title (or, when that is empty, its URL)
    under its URL, leaves every other entry alone, and goes to the end of the
    list only when its URL is new. *)
Theorem sources_form_a_map (collected : list OpenRouterAnnotation) :
  let u := uniqueSourcesOf collected in
  NoDup (keysOf u) /\
  length u <= length collected /\
  (forall k,
     In k (keysOf u) <-> exists a c, In a collected /\ cites a c /\ url c = k) /\
  (forall a, url_citation a = None -> uniqueSourcesOf (collected ++ [a]) = u) /\
  (forall a c, cites a c ->
     let u' := uniqueSourcesOf (collected ++ [a]) in
     In (url c, shownTitle (title c) (url c)) u' /\
     (forall k v, k <> url c -> (In (k, v) u' <-> In (k, v) u)) /\
     keysOf u' = keysOf u ++ (if mapHas (url c) u then [] else [url c])).
Proof.
  cbv zeta.
  destruct (uniqueSources_map collected) as (N & L & K).
  split; [exact N|]. split; [exact L|]. split; [exact K|].
  split.
  - intros a Ha; rewrite uniqueSourcesOf_snoc, Ha; reflexivity.
  - intros a c Ha; unfold cites in Ha.
    pose proof (uniqueSourcesOf_snoc collected a) as E; rewrite Ha in E.
    split; [rewrite E; apply mapSet_In|].
    split; [intros k v Hk; rewrite E; apply mapSet_other, Hk|].
    rewrite E; apply mapSet_keys.
Qed.

(** ** The spinner decoration *)

Lemma isSpinner_looks (text : str) :
  isSpinner text = true -> looksLikeSpinner Plain text = true.
Proof.
  unfold isSpinner, looksLikeSpinner; cbn [isCallout].
  rewrite !existsb_exists; intros (f & Hin & Hs).
  exists f; split; [exact Hin|].
  apply startsWith_iff in Hs as [r Hr]; apply startsWith_iff.
  exists (generating ++ r); rewrite Hr, app_assoc; reflexivity.
Qed.

Lemma isSpinner_spinnerLine (style : ResponseStyle) (k : nat) :
  k < 10 -> isSpinner (spinnerLine style k) = negb (isCallout style).
Proof.
  intros H; destruct style;
    do 10 (destruct k as [|k]; [reflexivity|]); lia.
Qed.

(** X12: the decoration and the animator disagree about callouts.  While the
    response is awaited, after any number of ticks, the editor decoration
    marks the generation line under plain and horizontal-rule style and does
    not mark it under callout style, where the line starts with ["> "];
    the animator accepts the line under every style.  Every line the
    decoration marks is one the animator of a plain note would overwrite. *)
Theorem decoration_misses_callout (JSON_parse : str -> option OpenRouterResponse)
    (cfg : GhostSettings) (h : Host) (lineNum : nat) (ticks : list Event) :
  Proceeds cfg h lineNum ->
  forallb isTick ticks = true ->
  let style := responseStyle cfg in
  let s0 := processStreamingQuery cfg h lineNum (getLine (doc h) lineNum) in
  let s := run JSON_parse cfg s0 ticks in
  let text := getLine (doc (host s)) (generationLine s) in
  isSpinner text = negb (isCallout style) /\
  looksLikeSpinner style text = true /\
  (forall other, isSpinner other = true ->
     looksLikeSpinner Plain other = true).
Proof.
  intros Hp Ht style s0 s text.
  destruct (start_waiting Hp)
    as (X & post & HX & Hpost & Hcnt & W0 & _).
  fold s0 in W0.
  destruct (@ticks_waiting JSON_parse cfg X post HX Hpost ticks s0 Ht W0)
    as (W1 & _).
  fold s in W1.
  destruct (@waiting_line cfg X post HX Hpost s W1) as [_ Hline].
  fold text in Hline.
  destruct W1 as (Hk & _).
  rewrite Hline.
  split; [apply isSpinner_spinnerLine, Hk|].
  split; [apply spinnerLine_looks, Hk|exact isSpinner_looks].
Qed.

Lemma decoration_misses_callout_witness :
  let cfg := sampleSettings (lit "k") Callout in
  let s := run sampleParse cfg (sampleStart Callout) [Tick; Tick] in
  let text := getLine (doc (host s)) (generationLine s) in
  text = lit "> " ++ getSpinnerText 2 /\
  isSpinner text = false /\ looksLikeSpinner Callout text = true.
Proof.
  pose proof (@decoration_misses_callout sampleParse
                (sampleSettings (lit "k") Callout) (hostOf sampleDoc) 1
                [Tick; Tick] (sample_proceeds Callout) eq_refl) as H.
  cbv zeta in H; destruct H as (H1 & H2 & _).
  split; [vm_compute; reflexivity|].
  split; [exact H1|exact H2].
Defined.

(** ** The suggester and the reference parser *)

Lemma lastIndexOf_spec (c : char) (s : str) :
  match lastIndexOf c s with
  | Some k =>
      nth_error s k = Some c /\
      forall j, k < j -> nth_error s j <> Some c
  | None => ~ In c s
  end.
Proof.
  induction s as [|x s IH]; cbn [lastIndexOf]; [intros []|].
  destruct (lastIndexOf c s) as [k|].
  - destruct IH as [Hk Hlast]; split; [exact Hk|].
    intros [|j] Hj; [lia|]; apply Hlast; lia.
  - destruct (N.eqb x c) eqn:E.
    + apply N.eqb_eq in E; subst x; split; [reflexivity|].
      intros [|j] Hj; [lia|]; cbn [nth_error]; intros Hn.
      apply IH, (nth_error_In _ _ Hn).
    + apply N.eqb_neq in E; intros [H|H]; [exact (E H)|exact (IH H)].
Qed.

Lemma includes_false (s : str) (c : char) :
  includes s c = false <-> ~ In c s.
Proof.
  unfold includes; split.
  - intros H Hin.
    assert (T : existsb (N.eqb c) s = true)
      by (apply existsb_exists; exists c; split; [exact Hin|apply N.eqb_refl]).
    congruence.
  - intros H; destruct (existsb (N.eqb c) s) eqn:E; [|reflexivity].
    apply existsb_exists in E as (x & Hx & Ex).
    apply N.eqb_eq in Ex; subst x; contradiction.
Qed.

Lemma no_at_no_match (s : str) (i skip : nat) :
  ~ In atSign s -> matchAllAt i skip s = [].
Proof.
  intros H; destruct (matchAllAt i skip s) as [|m ms] eqn:E; [reflexivity|].
  exfalso; apply H.
  assert (Hin : In m (matchAllAt i skip s)) by (rewrite E; left; reflexivity).
  destruct (@matchAllAt_sound s i skip m Hin) as [_ R].
  destruct (isReference_occurs R) as [Hat _].
  exact (nth_error_In _ _ Hat).
Qed.

Lemma takeTok_run (value rest : str) (c : char) :
  forallb isTok value = true -> isTok c = false ->
  takeTok (value ++ c :: rest) = value.
Proof.
  intros Hv Hc; induction value as [|x value IH]; cbn [app takeTok].
  - rewrite Hc; reflexivity.
  - cbn [forallb] in Hv; apply andb_true_iff in Hv as [Hx Hv].
    rewrite Hx, (IH Hv); reflexivity.
Qed.

Lemma lastMatchOf_snoc (ms : list RegExpMatch) (m : RegExpMatch) :
  lastMatchOf (ms ++ [m]) = Some m.
Proof.
  destruct ms as [|m0 ms]; [reflexivity|].
  cbn [app lastMatchOf]; f_equal.
  revert m0; induction ms as [|m1 ms IH]; intros m0; [reflexivity|].
  cbn [app] in *; rewrite last_cons_default.
  apply IH.
Qed.

(** A reference followed by a space and text without [@] is the last match
    of its line. *)
Lemma reference_is_last (pre value post : str) :
  value <> [] -> forallb isTok value = true -> ~ In atSign post ->
  lastMatchOf (matchAll (pre ++ [atSign] ++ value ++ [space] ++ post))
  = Some {| index := length pre; whole := atSign :: value; group1 := value |}.
Proof.
  intros Hne Htok Hpost; unfold matchAll.
  destruct (@matchAllAt_app_at pre (value ++ [space] ++ post) 0 0
              (Nat.le_0_l _)) as [ms Hms].
  cbn [app] in *; rewrite Hms; cbn [matchAllAt Nat.add].
  change (isAt atSign) with true; cbn iota.
  rewrite (@takeTok_run value post space Htok eq_refl).
  destruct value as [|v value]; [contradiction|].
  rewrite no_at_no_match; [apply lastMatchOf_snoc|].
  intros Hin; apply in_app_or in Hin as [Hin|[Hin|Hin]].
  - rewrite forallb_forall in Htok; specialize (Htok _ Hin); discriminate.
  - discriminate.
  - exact (Hpost Hin).
Qed.

Lemma findModel_here (d : Doc) (n : nat) (m : RegExpMatch) :
  lastMatchOf (matchAll (getLine d n)) = Some m -> group1 m <> [] ->
  findModel d n = Some (n, m).
Proof.
  intros H Hne; destruct n; cbn [findModel]; rewrite H;
    destruct (group1 m); try contradiction; reflexivity.
Qed.

Lemma skipn_no (c : char) (s : str) (k n : nat) :
  (forall j, k < j -> nth_error s j <> Some c) -> k < n ->
  ~ In c (skipn n s).
Proof.
  intros Hlast Hn Hin.
  apply In_nth_error in Hin as [j Hj].
  rewrite nth_error_skipn in Hj.
  apply (Hlast (n + j)); [lia|exact Hj].
Qed.

Lemma firstn_no (c : char) (s : str) (n : nat) :
  ~ In c s -> ~ In c (firstn n s).
Proof.
  intros H Hin; apply H.
  rewrite <- (firstn_skipn n s); apply in_or_app; left; exact Hin.
Qed.

(** X13: choosing a suggestion writes a reference the parser reads back.  When
    the suggester opens at a cursor placed after the last [@] of its line,
    the query is the text between that [@] and the cursor and has neither a
    space nor an [@]; choosing a value made of pattern characters replaces
    ["@" + query] by ["@" + value + " "], leaves every other line alone, and
    the reference parser, run on that line, then returns exactly the chosen
    value, at the column of the [@]. *)
Theorem suggestion_round_trip (h : Host) (cursor : EditorPosition)
    (value : str) (info : EditorSuggestTriggerInfo) :
  onTrigger cursor (doc h) = Some info ->
  ch (start info) < ch cursor ->
  ch cursor <= length (getLine (doc h) (line cursor)) ->
  value <> [] -> forallb isTok value = true ->
  let lineText := getLine (doc h) (line cursor) in
  let lastAt := ch (start info) in
  let h' := selectSuggestion value (Some info) h in
  start info = mkPos (line cursor) lastAt /\ end_ info = cursor /\
  nth_error lineText lastAt = Some atSign /\
  query info = firstn (ch cursor - S lastAt) (skipn (S lastAt) lineText) /\
  includes (query info) space = false /\
  includes (query info) atSign = false /\
  getLine (doc h') (line cursor)
  = firstn lastAt lineText ++ [atSign] ++ value ++ [space]
      ++ skipn (ch cursor) lineText /\
  (forall j, j <> line cursor -> getLine (doc h') j = getLine (doc h) j) /\
  findModel (doc h') (line cursor)
  = Some (line cursor,
          {| index := lastAt; whole := atSign :: value; group1 := value |}).
Proof.
  intros Ht Hlt Hle Hne Htok lineText lastAt h'.
  unfold onTrigger in Ht; fold lineText in Ht, Hle.
  pose proof (lastIndexOf_spec atSign lineText) as L.
  destruct (lastIndexOf atSign lineText) as [k|]; [|discriminate].
  destruct L as [Hat Hlast].
  destruct (includes (sliceFrom k lineText) space) eqn:Esp; [discriminate|].
  cbn [negb] in Ht; injection Ht as <-.
  subst lastAt; cbn [start end_ query ch] in *.
  apply includes_false in Esp; unfold sliceFrom in Esp.
  assert (Hk : k < length lineText) by (apply nth_error_Some; congruence).
  assert (Hq : substring (k + 1) (ch cursor) lineText
               = firstn (ch cursor - S k) (skipn (S k) lineText)).
  { unfold substring.
    rewrite Nat.max_r, Nat.min_l by lia.
    rewrite Nat.add_1_r; reflexivity. }
  assert (Hpost : ~ In atSign (skipn (ch cursor) lineText))
    by (apply (@skipn_no atSign lineText k); assumption).
  (* the cursor line is a line of the document *)
  assert (Hline : line cursor <= countNL (doc h)).
  { destruct (Nat.le_gt_cases (line cursor) (countNL (doc h))) as [H|H];
      [exact H|exfalso].
    assert (E : lineText = []).
    { unfold lineText, getLine; apply nth_overflow.
      fold (lineCount (doc h)); rewrite lineCount_countNL; lia. }
    rewrite E in Hk; cbn in Hk; lia. }
  destruct (@doc_cut (doc h) (line cursor) Hline)
    as (a & b & Hd & Ha & Hs & Hn & Hb).
  fold lineText in Hd, Hn.
  set (new := firstn k lineText ++ [atSign] ++ value ++ [space]
                ++ skipn (ch cursor) lineText).
  assert (Hd' : doc h' = a ++ new ++ b).
  { unfold h', selectSuggestion; proj; cbn [start end_].
    destruct cursor as [l c]; cbn [line ch] in *.
    rewrite Hd at 1; rewrite <- Ha.
    rewrite replaceRange_line by (auto; lia).
    unfold new; rewrite <- !app_assoc; reflexivity. }
  assert (Hnew : countNL new = 0).
  { unfold new; rewrite !countNL_app.
    rewrite countNL_firstn_noNL by exact Hn.
    assert (V : countNL value = 0).
    { clear - Htok; induction value as [|x v IH]; [reflexivity|].
      cbn [forallb] in Htok; apply andb_true_iff in Htok as [Hx Hv].
      cbn [countNL]; rewrite (IH Hv).
      destruct (isNL x) eqn:E; [|reflexivity].
      apply N.eqb_eq in E; subst x; discriminate. }
    rewrite V.
    assert (S0 : countNL (skipn (ch cursor) lineText) = 0).
    { pose proof (f_equal countNL (firstn_skipn (ch cursor) lineText)) as C.
      rewrite countNL_app, Hn in C; lia. }
    rewrite S0; reflexivity. }
  assert (Gnew : getLine (doc h') (line cursor) = new).
  { rewrite Hd', <- Ha, getLine_app_at, Hs; cbn [app].
    apply getLine_first; assumption. }
  split; [reflexivity|]. split; [reflexivity|]. split; [exact Hat|].
  split; [exact Hq|].
  split.
  { rewrite Hq; apply includes_false; intros Hin.
    apply Esp.
    rewrite <- (firstn_skipn 1 (skipn k lineText)).
    apply in_or_app; right; rewrite skipn_skipn.
    rewrite <- (firstn_skipn (ch cursor - S k) (skipn (1 + k) lineText)).
    apply in_or_app; left; exact Hin. }
  split.
  { rewrite Hq; apply includes_false, firstn_no.
    apply (@skipn_no atSign lineText k); [exact Hlast|lia]. }
  split; [exact Gnew|].
  split.
  { intros j Hj; rewrite Hd', Hd.
    destruct (Nat.lt_ge_cases j (line cursor)) as [H|H].
    - rewrite !getLine_app_before by lia; reflexivity.
    - set (e := j - line cursor - 1).
      replace j with (countNL a + S e) by (subst e; lia).
      rewrite getLine_app_after.
      pose proof (getLine_app_after new b e) as G1.
      pose proof (getLine_app_after lineText b e) as G2.
      rewrite Hnew in G1; rewrite Hn in G2.
      cbn [Nat.add] in G1, G2.
      rewrite (getLine_app_after a (lineText ++ b) e), G2.
      exact G1. }
  apply findModel_here; [|exact Hne].
  rewrite Gnew; unfold new.
  pose proof (@reference_is_last (firstn k lineText) value
                (skipn (ch cursor) lineText) Hne Htok Hpost) as R.
  rewrite length_firstn, Nat.min_l in R by lia.
  exact R.
Qed.

Lemma suggestion_round_trip_witness :
  let h' :=
    selectSuggestion (lit "openai/gpt-4o") (Some typingInfo)
      (hostOf typingDoc) in
  onTrigger typingCursor typingDoc = Some typingInfo /\
  getLine (doc h') 1 = lit "ask @openai/gpt-4o " /\
  findModel (doc h') 1
  = Some (1, {| index := 4; whole := lit "@openai/gpt-4o";
                group1 := lit "openai/gpt-4o" |}).
Proof.
  assert (T : onTrigger typingCursor (doc (hostOf typingDoc))
              = Some typingInfo) by (vm_compute; reflexivity).
  pose proof (@suggestion_round_trip (hostOf typingDoc) typingCursor
                (lit "openai/gpt-4o") typingInfo T
                ltac:(vm_compute; lia) ltac:(vm_compute; lia)
                ltac:(discriminate) eq_refl) as H.
  cbv zeta in H; destruct H as (_ & _ & _ & _ & _ & _ & _ & _ & H2).
  split; [exact T|].
  split; [vm_compute; reflexivity|exact H2].
Defined.

(** ** The list of enabled models *)

Lemma includesModel_In (ms : list str) (modelId : str) :
  includesModel ms modelId = true <-> In modelId ms.
Proof.
  unfold includesModel; rewrite existsb_exists; split.
  - intros (x & Hx & E); apply str_eqb_eq in E; subst; exact Hx.
  - intros H; exists modelId; split; [exact H|apply str_eqb_refl].
Qed.

Lemma filter_other_In (modelId m : str) (ms : list str) :
  In m (filter (fun x => negb (str_eqb x modelId)) ms)
  <-> In m ms /\ m <> modelId.
Proof.
  rewrite filter_In; split; intros [H1 H2]; (split; [exact H1|]).
  - intros ->; rewrite str_eqb_refl in H2; discriminate.
  - destruct (str_eqb m modelId) eqn:E; [|reflexivity].
    apply str_eqb_eq in E; contradiction.
Qed.

Lemma filter_absent (modelId : str) (ms : list str) :
  ~ In modelId ms -> filter (fun x => negb (str_eqb x modelId)) ms = ms.
Proof.
  intros H; induction ms as [|m ms IH]; [reflexivity|].
  cbn [filter]; destruct (str_eqb m modelId) eqn:E.
  - apply str_eqb_eq in E; subst; exfalso; apply H; left; reflexivity.
  - cbn [negb]; rewrite IH; [reflexivity|].
    intros Hin; apply H; right; exact Hin.
Qed.

Lemma with_enabledModels_same (cfg : GhostSettings) :
  with_enabledModels (enabledModels cfg) cfg = cfg.
Proof. destruct cfg; reflexivity. Qed.

Lemma modelClick_distinct (p : Plugin) (c : ModelClick) :
  NoDup (enabledModels (settings p)) ->
  NoDup (enabledModels (settings (modelClick p c))).
Proof.
  intros H; destruct c as [item|modelId]; cbn [modelClick].
  - unfold onChooseItem.
    destruct (includesModel (enabledModels (settings p)) (model_id item))
      eqn:E; cbn [negb settings with_enabledModels enabledModels];
      [exact H|].
    apply NoDup_app; [exact H|repeat constructor; intros []|].
    intros m Hm [<-|[]].
    apply includesModel_In in Hm; congruence.
  - cbn [removeModel settings with_enabledModels enabledModels].
    apply NoDup_filter, H.
Qed.

(** X14: the list of enabled models never names a model twice.  Starting from
    a list without repetitions (such as the default one), after any clicks in
    the model chooser and on remove buttons the list has no repetitions;
    choosing a model that is already enabled changes no setting; choosing a
    new one appends it, and removing it again restores the settings; a removed
    model is not in the list and no other model is lost or gained. *)
Theorem enabled_models_stay_distinct (p : Plugin) (clicks : list ModelClick) :
  NoDup (enabledModels (settings p)) ->
  let p' := fold_left modelClick clicks p in
  let ms := enabledModels (settings p') in
  NoDup ms /\
  (forall item,
     let q := onChooseItem item p' in
     (In (model_id item) ms -> settings q = settings p') /\
     (~ In (model_id item) ms ->
        enabledModels (settings q) = ms ++ [model_id item] /\
        settings (removeModel (model_id item) q) = settings p') /\
     settings (onChooseItem item q) = settings q) /\
  (forall modelId,
     let q := removeModel modelId p' in
     ~ In modelId (enabledModels (settings q)) /\
     forall m, m <> modelId ->
       (In m (enabledModels (settings q)) <-> In m ms)).
Proof.
  intros H p' ms.
  assert (N : NoDup ms).
  { subst ms p'; revert p H; induction clicks as [|c cs IH]; intros p H;
      [exact H|].
    cbn [fold_left]; apply IH, modelClick_distinct, H. }
  split; [exact N|]. split.
  - intros item q.
    assert (A : In (model_id item) ms -> settings q = settings p').
    { intros Hin; subst q; unfold onChooseItem.
      apply includesModel_In in Hin; fold ms; rewrite Hin; reflexivity. }
    assert (B : ~ In (model_id item) ms ->
                enabledModels (settings q) = ms ++ [model_id item] /\
                settings (removeModel (model_id item) q) = settings p').
    { intros Hn; subst q; unfold onChooseItem; fold ms.
      destruct (includesModel ms (model_id item)) eqn:E;
        [apply includesModel_In in E; contradiction|].
      cbn [negb settings with_enabledModels enabledModels removeModel].
      split; [reflexivity|].
      rewrite filter_app, (@filter_absent _ _ Hn); cbn [filter].
      rewrite str_eqb_refl; cbn [negb]; rewrite app_nil_r.
      subst ms; destruct (settings p'); reflexivity. }
    split; [exact A|]. split; [exact B|].
    unfold onChooseItem at 1.
    assert (Hin : In (model_id item) (enabledModels (settings q))).
    { destruct (in_dec (list_eq_dec N.eq_dec) (model_id item) ms) as [Hi|Hn].
      - rewrite (A Hi); exact Hi.
      - destruct (B Hn) as [-> _]; apply in_or_app; right; left; reflexivity. }
    apply includesModel_In in Hin; rewrite Hin; reflexivity.
  - intros modelId q; subst q.
    cbn [removeModel settings with_enabledModels enabledModels]; fold ms.
    split.
    + intros Hin; apply filter_other_In in Hin as [_ Hne]; congruence.
    + intros m Hm; rewrite filter_other_In; tauto.
Qed.

Lemma enabled_models_stay_distinct_witness :
  let p := {| settings := DEFAULT_SETTINGS; shown := [] |} in
  let gpt := {| model_id := lit "openai/gpt-4o-mini";
                model_name := lit "GPT-4o mini" |} in
  let p' := fold_left modelClick
              [Choose gpt; Remove (lit "google/gemini-flash-1.5");
               Choose gpt] p in
  NoDup (enabledModels (settings p')) /\
  length (enabledModels (settings p')) = 3 /\
  shown p'
  = [lit "GPT-4o mini is already enabled.";
     lit "GPT-4o mini is already enabled."].
Proof.
  assert (N : NoDup (enabledModels DEFAULT_SETTINGS)).
  { repeat constructor; cbn [In];
      intros H; repeat destruct H as [H|H]; try discriminate H; exact H. }
  split; [|split; vm_compute; reflexivity].
  exact (proj1 (@enabled_models_stay_distinct
                  {| settings := DEFAULT_SETTINGS; shown := [] |} _ N)).
Defined.

(** ** Personas in the settings tab *)

Lemma updateAt_ext (a : nat) (f g : Persona -> Persona) (objs : list Persona) :
  (forall p, f p = g p) -> updateAt a f objs = updateAt a g objs.
Proof.
  intros H; revert a; induction objs as [|p r IH]; intros [|a];
    cbn [updateAt]; try reflexivity.
  - rewrite H; reflexivity.
  - rewrite IH; reflexivity.
Qed.

Lemma updateAt_id (a : nat) (objs : list Persona) :
  updateAt a (fun p => p) objs = objs.
Proof.
  revert a; induction objs as [|p r IH]; intros [|a]; cbn [updateAt];
    try reflexivity.
  rewrite IH; reflexivity.
Qed.

Lemma updateAt_compose (a : nat) (f g : Persona -> Persona)
    (objs : list Persona) :
  updateAt a g (updateAt a f objs) = updateAt a (fun p => g (f p)) objs.
Proof.
  revert a; induction objs as [|p r IH]; intros [|a]; cbn [updateAt];
    try reflexivity.
  rewrite IH; reflexivity.
Qed.

Lemma deref_updateAt_same (a : nat) (f : Persona -> Persona)
    (objs : list Persona) :
  a < length objs -> deref (updateAt a f objs) a = f (deref objs a).
Proof.
  unfold deref; revert a; induction objs as [|p r IH]; intros [|a] H;
    cbn [length] in H; try lia; cbn [updateAt nth]; [reflexivity|].
  apply IH; lia.
Qed.

Lemma deref_updateAt_other (a r : nat) (f : Persona -> Persona)
    (objs : list Persona) :
  r <> a -> deref (updateAt a f objs) r = deref objs r.
Proof.
  unfold deref; revert a r; induction objs as [|p t IH]; intros [|a] [|r] H;
    cbn [updateAt nth]; try reflexivity; try lia.
  apply IH; lia.
Qed.

Lemma updateAt_self (a : nat) (objs : list Persona) :
  updateAt a (fun _ => deref objs a) objs = objs.
Proof.
  unfold deref; revert a; induction objs as [|p r IH]; intros [|a];
    cbn [updateAt nth]; try reflexivity.
  rewrite IH; reflexivity.
Qed.

Lemma updateAt_last (f : Persona -> Persona) (objs : list Persona)
    (x : Persona) :
  updateAt (length objs) f (objs ++ [x]) = objs ++ [f x].
Proof.
  induction objs as [|p r IH]; [reflexivity|].
  cbn [length app updateAt]; rewrite IH; reflexivity.
Qed.

Lemma edited_step (e : ModalEvent) (es : list ModalEvent) (p : Persona) :
  edited (e :: es) p = edited es (applyChange e p).
Proof. reflexivity. Qed.

(** A session of field changes writes every change to the modal's object. *)
Lemma changes_run (m : PersonaModal) (es : list ModalEvent) :
  isOpen m = true -> forallb isChange es = true ->
  modalRun m es
  = {| store :=
         {| objects := updateAt (persona m) (edited es) (objects (store m));
            personasRef := personasRef (store m) |};
       persona := persona m; onSubmit := onSubmit m;
       isOpen := true; modalNotices := modalNotices m |}.
Proof.
  revert m; induction es as [|e es IH]; intros m Ho Hes.
  - cbn [modalRun fold_left].
    rewrite (@updateAt_ext _ (edited []) (fun p => p)) by reflexivity.
    rewrite updateAt_id.
    destruct m as [[objs refs] a sub o n]; cbn in *; subst o; reflexivity.
  - cbn [forallb] in Hes; apply andb_true_iff in Hes as [He Hes].
    change (modalRun m (e :: es)) with (modalRun (modalStep m e) es).
    assert (S1 : modalStep m e
                 = {| store :=
                        {| objects :=
                             updateAt (persona m) (applyChange e)
                               (objects (store m));
                           personasRef := personasRef (store m) |};
                      persona := persona m; onSubmit := onSubmit m;
                      isOpen := true; modalNotices := modalNotices m |}).
    { unfold modalStep; rewrite Ho; destruct e; try reflexivity.
      discriminate He. }
    rewrite S1, IH by (try reflexivity; exact Hes).
    cbn [store objects personasRef persona onSubmit modalNotices].
    rewrite updateAt_compose; reflexivity.
Qed.

Lemma closed_modal_stays (m : PersonaModal) (es : list ModalEvent) :
  isOpen m = false -> modalRun m es = m.
Proof.
  intros H; induction es as [|e es IH]; [reflexivity|].
  change (modalRun m (e :: es)) with (modalRun (modalStep m e) es).
  unfold modalStep; rewrite H; exact IH.
Qed.

Lemma removeWhitespace_clean (value : str) :
  forallb (fun c => negb (isWhiteSpace c)) (removeWhitespace value) = true.
Proof.
  unfold removeWhitespace; apply forallb_forall; intros c Hc.
  apply filter_In in Hc as [_ Hc]; exact Hc.
Qed.

Lemma edited_name_clean (es : list ModalEvent) (p : Persona) :
  forallb (fun c => negb (isWhiteSpace c)) (persona_name p) = true ->
  forallb (fun c => negb (isWhiteSpace c)) (persona_name (edited es p)) = true.
Proof.
  revert p; induction es as [|e es IH]; intros p H; [exact H|].
  rewrite edited_step; apply IH.
  destruct e; cbn [applyChange persona_name]; try exact H.
  apply removeWhitespace_clean.
Qed.

(** X15: editing a persona edits the settings at once.  The modal opened on an
    existing persona holds that very object, so after any field changes, and
    before or without any click on Save, the persona the settings list holds
    is the edited one, while every other persona and the list itself are
    untouched, no notice has been shown, and a click on Save alters nothing
    in the settings, whether or not the name and model pass its checks. *)
Theorem edited_persona_is_live (enabled : list str) (st : PersonaStore)
    (a : nat) (es : list ModalEvent) :
  a < length (objects st) ->
  forallb isChange es = true ->
  let m := modalRun (openPersonaModal enabled (Some a) st) es in
  let p := edited es (deref (objects st) a) in
  personasRef (store m) = personasRef st /\
  deref (objects (store m)) a = p /\
  (forall r, r <> a -> deref (objects (store m)) r = deref (objects st) r) /\
  personasOf (store m)
  = map (fun r => if Nat.eqb r a then p else deref (objects st) r)
      (personasRef st) /\
  isOpen m = true /\ modalNotices m = [] /\
  store (modalStep m SaveClick) = store m.
Proof.
  intros Ha Hes m p.
  assert (E : m = {| store :=
                       {| objects := updateAt a (edited es) (objects st);
                          personasRef := personasRef st |};
                     persona := a; onSubmit := EditPersona a;
                     isOpen := true; modalNotices := [] |}).
  { subst m; rewrite changes_run by (try reflexivity; exact Hes).
    reflexivity. }
  rewrite E; cbn [store objects personasRef isOpen modalNotices].
  assert (D1 : deref (updateAt a (edited es) (objects st)) a = p)
    by (apply deref_updateAt_same, Ha).
  assert (D2 : forall r, r <> a ->
                 deref (updateAt a (edited es) (objects st)) r
                 = deref (objects st) r)
    by (intros r Hr; apply deref_updateAt_other, Hr).
  split; [reflexivity|]. split; [exact D1|]. split; [exact D2|].
  split.
  { unfold personasOf; cbn [objects personasRef].
    apply map_ext; intros r.
    destruct (Nat.eqb r a) eqn:Er.
    - apply Nat.eqb_eq in Er; subst r; exact D1.
    - apply Nat.eqb_neq in Er; apply D2, Er. }
  split; [reflexivity|]. split; [reflexivity|].
  unfold modalStep; cbn [isOpen store objects persona].
  destruct (isEmpty (persona_name _)); [reflexivity|].
  destruct (isEmpty (persona_model _)); [reflexivity|].
  cbn [store]; unfold submit; cbn [onSubmit store objects personasRef persona].
  rewrite updateAt_self; reflexivity.
Qed.

Lemma edited_persona_is_live_witness :
  let m := modalRun (openPersonaModal [] (Some 0) coachStore)
             [NameChange (lit "  "); ModelChange []] in
  personasOf (store m) = [noPersona; shadowedCoach] /\
  modalNotices m = [] /\
  store (modalStep m SaveClick) = store m /\
  modalNotices (modalStep m SaveClick) = [nameRequired].
Proof.
  pose proof (@edited_persona_is_live [] coachStore 0
                [NameChange (lit "  "); ModelChange []]
                ltac:(vm_compute; lia) eq_refl) as H.
  cbv zeta in H; destruct H as (_ & _ & _ & H4 & _ & H6 & H7).
  split; [rewrite H4; vm_compute; reflexivity|].
  split; [exact H6|]. split; [exact H7|vm_compute; reflexivity].
Defined.

(** X16: a new persona reaches the settings only through Save.  The modal
    opened without a persona works on a fresh object (no name, the first
    enabled model if there is one, no prompt): field changes leave the
    personas of the settings as they were, and the name never holds white
    space.  A click on Save with an empty name, or else an empty model, shows
    the matching notice, keeps the modal open and adds nothing; otherwise it
    appends the persona as edited to the end of the list and closes the modal,
    after which no event has any effect. *)
Theorem new_persona_needs_save (enabled : list str) (st : PersonaStore)
    (es : list ModalEvent) :
  WellFormed st ->
  forallb isChange es = true ->
  let m := modalRun (openPersonaModal enabled None st) es in
  let p := edited es (freshPersona enabled) in
  let m' := modalStep m SaveClick in
  personasOf (store m) = personasOf st /\
  forallb (fun c => negb (isWhiteSpace c)) (persona_name p) = true /\
  if isEmpty (persona_name p) then
    personasOf (store m') = personasOf st /\ isOpen m' = true /\
    modalNotices m' = [nameRequired]
  else if isEmpty (persona_model p) then
    personasOf (store m') = personasOf st /\ isOpen m' = true /\
    modalNotices m' = [modelRequired]
  else
    personasOf (store m') = personasOf st ++ [p] /\ isOpen m' = false /\
    modalNotices m' = [] /\
    forall later, modalRun m' later = m'.
Proof.
  intros Hwf Hes m p m'.
  assert (E : m = {| store :=
                       {| objects := objects st ++ [p];
                          personasRef := personasRef st |};
                     persona := length (objects st); onSubmit := AddPersona;
                     isOpen := true; modalNotices := [] |}).
  { subst m; rewrite changes_run by (try reflexivity; exact Hes).
    cbn [openPersonaModal store objects personasRef persona onSubmit
         modalNotices].
    rewrite updateAt_last; reflexivity. }
  assert (Old : map (deref (objects st ++ [p])) (personasRef st)
                = personasOf st).
  { unfold personasOf; apply map_ext_in; intros r Hr.
    unfold WellFormed in Hwf; rewrite Forall_forall in Hwf.
    unfold deref; apply app_nth1, Hwf, Hr. }
  assert (New : deref (objects st ++ [p]) (length (objects st)) = p)
    by (unfold deref; apply nth_middle).
  split; [rewrite E; exact Old|].
  split; [apply edited_name_clean; reflexivity|].
  subst m'; rewrite E; unfold modalStep.
  cbn [isOpen store objects persona]; rewrite New.
  destruct (isEmpty (persona_name p)); [auto|].
  destruct (isEmpty (persona_model p)); [auto|].
  cbn [store isOpen modalNotices]; unfold submit.
  cbn [onSubmit store objects personasRef persona].
  split.
  { unfold personasOf; cbn [objects personasRef].
    rewrite map_app, Old; cbn [map]; rewrite New; reflexivity. }
  split; [reflexivity|]. split; [reflexivity|].
  intros later; apply closed_modal_stays; reflexivity.
Qed.

Lemma new_persona_needs_save_witness :
  let es := [NameChange (lit "my coach"); PromptChange (lit "Be kind.")] in
  let m := modalRun (openPersonaModal [lit "openai/gpt-4o"] None coachStore)
             es in
  personasOf (store m) = [coach; shadowedCoach] /\
  personasOf (store (modalStep m SaveClick))
  = [coach; shadowedCoach;
     {| persona_name := lit "mycoach"; persona_model := lit "openai/gpt-4o";
        persona_systemPrompt := lit "Be kind." |}].
Proof.
  pose proof (@new_persona_needs_save [lit "openai/gpt-4o"] coachStore
                [NameChange (lit "my coach"); PromptChange (lit "Be kind.")]
                ltac:(repeat constructor) eq_refl) as H.
  cbv zeta in H; destruct H as (H1 & _ & H3).
  split; [exact H1|].
  vm_compute; reflexivity.
Defined.

(** ** Removing a persona *)

Lemma filter_split_at (a : nat) (r1 r2 : list nat) :
  ~ In a r1 -> ~ In a r2 ->
  filter (fun r => negb (Nat.eqb r a)) (r1 ++ a :: r2) = r1 ++ r2.
Proof.
  assert (K : forall l, ~ In a l ->
                filter (fun r => negb (Nat.eqb r a)) l = l).
  { induction l as [|x l IH]; intros H; [reflexivity|].
    cbn [filter]; destruct (Nat.eqb x a) eqn:E.
    - apply Nat.eqb_eq in E; subst; exfalso; apply H; left; reflexivity.
    - cbn [negb]; rewrite IH; [reflexivity|].
      intros Hin; apply H; right; exact Hin. }
  intros H1 H2; rewrite filter_app; cbn [filter].
  rewrite Nat.eqb_refl; cbn [negb]; rewrite !K by assumption; reflexivity.
Qed.

Lemma find_app_none (f : Persona -> bool) (l1 l2 : list Persona) :
  find f l1 = None -> find f (l1 ++ l2) = find f l2.
Proof.
  induction l1 as [|x l1 IH]; [reflexivity|].
  cbn [find app]; destruct (f x); [discriminate|exact IH].
Qed.

(** X17: the remove button takes out one object, not a name.  With every
    persona listed once, removing the persona at an address leaves the
    personas before and after it, in order, even when another persona has
    the same fields; and when the removed persona was the one a reference
    resolved to, the reference now resolves to the next persona of that name
    further down the list, if there is one. *)
Theorem remove_persona_unshadows (st : PersonaStore) (a : nat)
    (r1 r2 : list nat) (model : str) :
  NoDup (personasRef st) ->
  personasRef st = r1 ++ a :: r2 ->
  let before := map (deref (objects st)) r1 in
  let after := map (deref (objects st)) r2 in
  let st' := removePersona a st in
  personasOf st = before ++ deref (objects st) a :: after /\
  personasOf st' = before ++ after /\
  objects st' = objects st /\
  (findPersona before model = None ->
   persona_name (deref (objects st) a) = model ->
   findPersona (personasOf st) model = Some (deref (objects st) a) /\
   findPersona (personasOf st') model = findPersona after model).
Proof.
  intros Hnd Hrefs before after st'.
  rewrite Hrefs in Hnd.
  pose proof (NoDup_remove_2 _ _ _ Hnd) as Hnot.
  assert (H1 : ~ In a r1) by (intros H; apply Hnot, in_or_app; left; exact H).
  assert (H2 : ~ In a r2) by (intros H; apply Hnot, in_or_app; right; exact H).
  assert (P : personasOf st = before ++ deref (objects st) a :: after)
    by (unfold personasOf; rewrite Hrefs, map_app; reflexivity).
  assert (P' : personasOf st' = before ++ after).
  { unfold personasOf, st', removePersona; cbn [objects personasRef].
    rewrite Hrefs, (@filter_split_at a r1 r2 H1 H2), map_app; reflexivity. }
  split; [exact P|]. split; [exact P'|]. split; [reflexivity|].
  intros Hb Hn; rewrite P, P'; unfold findPersona in *.
  rewrite !find_app_none by exact Hb.
  split; [|reflexivity].
  cbn [find]; rewrite Hn, str_eqb_refl; reflexivity.
Qed.

Lemma remove_persona_unshadows_witness :
  findPersona (personasOf coachStore) (lit "coach") = Some coach /\
  findPersona (personasOf (removePersona 0 coachStore)) (lit "coach")
  = Some shadowedCoach.
Proof.
  pose proof (@remove_persona_unshadows coachStore 0 [] [1] (lit "coach")
                ltac:(repeat constructor; cbn; lia) eq_refl) as H.
  cbv zeta in H; destruct H as (_ & _ & _ & H).
  destruct (H eq_refl eq_refl) as [A B].
  split; [exact A|rewrite B; reflexivity].
Defined.
